(** * Eureka, stage 5: the starry/PyMC3 light-curve model

    A shallow embedding of [eureka/S5_lightcurve_fitting/models/PyMC3Models.py]
    ([StarryModel.__init__], [StarryModel.fit_dict], [StarryModel.syseval],
    [StarryModel.physeval], [StarryModel.eval] and the slice of
    [StarryModel.plot]) together with the properties the specification
    states about it and further properties of the code.

    Conventions of the embedding:
    - Python floats are idealised as real numbers ([R]); the inputs on which
      two evaluations are compared are small integers, on which float
      arithmetic is exact.
    - Python strings are [string]s; on a string of ASCII characters
      ([Py.isascii]) the functions [Py.lower] and [Py.isdigit] are
      [str.lower] and [str.isdigit], and what is proved about the decoding
      of names is stated for such strings.
    - A theano tensor expression is a term of the inductive type [tensor];
      its value at a parameter point is given by [teval].
    - A method that mutates [self] and may raise is a function in the monad
      [PyM S], which threads the object and stops at the first exception.
    - The attributes that [setattr(self, parname, ...)] injects live in the
      dictionary [attrs]; the attributes with a fixed name ([star], [planet],
      [sys], ...) are record fields. The two agree with the one namespace of
      a Python object for the parameter names of a run ([is_parameter_name]):
      names that neither the class nor its base class [pm.Model] binds, so
      that [setattr] meets no property and the builders overwrite no
      parameter.
    - The constructors of starry, PyMC3 and theano record their arguments
      and do not raise; what the libraries check themselves is outside the
      embedding. *)

From Stdlib Require Import Reals Lra String Ascii.
From stdpp Require Import base option gmap strings list fin_maps.

Open Scope string_scope.
Open Scope R_scope.

(* ===================================================================== *)
(** ** Python strings *)
(* ===================================================================== *)

Module Py.

(** [c.lower()] on one ASCII character. *)
Definition lower_ascii (c : ascii) : ascii :=
  let n := nat_of_ascii c in
  if (65 <=? n)%nat && (n <=? 90)%nat then ascii_of_nat (n + 32) else c.

(** [s.lower()] *)
Fixpoint lower (s : string) : string :=
  match s with
  | EmptyString => EmptyString
  | String c s' => String (lower_ascii c) (lower s')
  end.

(** [s.startswith(p)] *)
Definition startswith (s p : string) : bool := String.prefix p s.

(** [s.endswith(p)] *)
Definition endswith (s p : string) : bool :=
  String.prefix (String.rev p) (String.rev s).

(** [s[1:]] *)
Definition tail (s : string) : string :=
  match s with
  | EmptyString => EmptyString
  | String _ s' => s'
  end.

Definition is_digit_ascii (c : ascii) : bool :=
  let n := nat_of_ascii c in (48 <=? n)%nat && (n <=? 57)%nat.

Fixpoint all_digits (s : string) : bool :=
  match s with
  | EmptyString => true
  | String c s' => is_digit_ascii c && all_digits s'
  end.

(** [s.isdigit()] on a string of ASCII characters: non-empty and made of
    decimal digits only. *)
Definition isdigit (s : string) : bool :=
  match s with
  | EmptyString => false
  | String _ _ => all_digits s
  end.

(** [s.isascii()]: every character is below 128. *)
Fixpoint isascii (s : string) : bool :=
  match s with
  | EmptyString => true
  | String c s' => (nat_of_ascii c <? 128)%nat && isascii s'
  end.

Fixpoint int_acc (acc : nat) (s : string) : nat :=
  match s with
  | EmptyString => acc
  | String c s' => int_acc (10 * acc + (nat_of_ascii c - 48)) s'
  end.

(** [int(s)] for a string of decimal digits. *)
Definition int (s : string) : nat := int_acc 0 s.

(** [s.split(sep)] for a one-character separator: never the empty list. *)
Fixpoint split (sep : ascii) (s : string) : list string :=
  match s with
  | EmptyString => [EmptyString]
  | String c s' =>
      if Ascii.eqb c sep then EmptyString :: split sep s'
      else match split sep s' with
           | hd :: tl => String c hd :: tl
           | [] => [String c EmptyString]
           end
  end.

(** [l[i]] for a list of strings, used only below a length check. *)
Definition item (l : list string) (i : nat) : string := nth i l EmptyString.

(** [name in l] *)
Definition contains (l : list string) (name : string) : bool :=
  bool_decide (name ∈ l).

End Py.

(* ===================================================================== *)
(** ** Values, exceptions and the object monad *)
(* ===================================================================== *)

(** A parameter value read from the parameter file: a number, or a string
    (the limb-darkening law). *)
Inductive pyvalue : Type :=
| VNum (x : R)
| VStr (s : string).

(** The [ValueError]s, by message: the two the model raises itself, and
    those of numpy broadcasting and of tuple unpacking. *)
Inductive value_error : Type :=
| PtypeNotRecognized (ptype name : string)
| LimbDarkNotHandled (law : pyvalue)
| BroadcastError
| UnpackError.

Inductive exn : Type :=
| AssertionError (missing : list string)
| ValueError (e : value_error)
| AttributeError (attr : string)
| IndexError
| TypeError.

(** A computation on an object of type [S]: the final object, and either the
    exception that stopped it or its result. *)
Definition PyM (S A : Type) : Type := S -> S * (exn + A).

Definition ret {S A} (a : A) : PyM S A := fun s => (s, inr a).

Definition raise {S A} (e : exn) : PyM S A := fun s => (s, inl e).

Definition bind {S A B} (m : PyM S A) (k : A -> PyM S B) : PyM S B :=
  fun s =>
    match m s with
    | (s', inl e) => (s', inl e)
    | (s', inr a) => k a s'
    end.

Definition gets {S A} (f : S -> A) : PyM S A := fun s => (s, inr (f s)).

Definition modify {S} (f : S -> S) : PyM S unit := fun s => (f s, inr tt).

Declare Scope py_scope.
Delimit Scope py_scope with py.
Notation "x <- m ;; k" := (bind m (fun x => k))
  (at level 100, m at next level, right associativity) : py_scope.
Notation "m ;;; k" := (bind m (fun _ => k))
  (at level 100, k at level 200, right associativity) : py_scope.

(** [for x in l: body(x)] *)
Fixpoint for_each {S A} (l : list A) (body : A -> PyM S unit) : PyM S unit :=
  match l with
  | [] => ret tt
  | x :: l' => bind (body x) (fun _ => for_each l' body)
  end.

(* ===================================================================== *)
(** ** PyMC3 distributions and theano tensors *)
(* ===================================================================== *)

(** The distributions the model draws from. [Bound lower upper mu sigma] is
    [pm.Bound(pm.Normal, lower=.., upper=..)(.., mu=.., sigma=..)]. *)
Inductive dist : Type :=
| Uniform (lower upper : R)
| Normal (mu sigma : R)
| Bound (lower upper : option R) (mu sigma : R).

(** A scalar tensor expression: a constant, a named random variable, or an
    operation on tensors. *)
Inductive tensor : Type :=
| TConst (v : pyvalue)
| TVar (name : string) (d : dist)
| TAdd (a b : tensor)
| TSub (a b : tensor)
| TMul (a b : tensor)
| TDiv (a b : tensor)
| TNeg (a : tensor)
| TExp (a : tensor)
| TSqrt (a : tensor).

(** [tt.constant(v)] *)
Definition tt_constant (v : pyvalue) : tensor := TConst v.

(** A Python float used where a tensor is expected. *)
Definition tnum (x : R) : tensor := TConst (VNum x).

(** [pm.Uniform(name, lower=.., upper=..)] and its siblings. *)
Definition pm_Uniform (name : string) (lower upper : R) : tensor :=
  TVar name (Uniform lower upper).

Definition pm_Normal (name : string) (mu sigma : R) : tensor :=
  TVar name (Normal mu sigma).

(** [BoundedNormal_0 = pm.Bound(pm.Normal, lower=0.0)] *)
Definition BoundedNormal_0 (name : string) (mu sigma : R) : tensor :=
  TVar name (Bound (Some 0) None mu sigma).

(** [BoundedNormal_90 = pm.Bound(pm.Normal, upper=90.)] *)
Definition BoundedNormal_90 (name : string) (mu sigma : R) : tensor :=
  TVar name (Bound None (Some 90) mu sigma).

(** [pm.Deterministic(name, var)] inside the context of the model: it
    names [var] and returns it. *)
Definition pm_Deterministic (name : string) (var : tensor) : tensor := var.

(** The value of a tensor at a parameter point [theta], which gives every
    random variable its value. A string constant has no numeric value. *)
Fixpoint teval (theta : string -> R) (t : tensor) : option R :=
  match t with
  | TConst (VNum x) => Some x
  | TConst (VStr _) => None
  | TVar name _ => Some (theta name)
  | TAdd a b => x ← teval theta a; y ← teval theta b; Some (x + y)
  | TSub a b => x ← teval theta a; y ← teval theta b; Some (x - y)
  | TMul a b => x ← teval theta a; y ← teval theta b; Some (x * y)
  | TDiv a b => x ← teval theta a; y ← teval theta b; Some (x / y)
  | TNeg a => x ← teval theta a; Some (- x)
  | TExp a => x ← teval theta a; Some (exp x)
  | TSqrt a => x ← teval theta a; Some (sqrt x)
  end.

(* ===================================================================== *)
(** ** starry objects *)
(* ===================================================================== *)

Module starry.

(** [starry.Map(ydeg=.., udeg=.., amp=.., inc=.., obl=..)], with the
    limb-darkening coefficients [map[n]] and the spherical-harmonic
    coefficients [map[l, m]] that were assigned. *)
Record Map : Type := mkMap {
  Map_ydeg : nat;
  Map_udeg : nat;
  Map_amp : tensor;
  Map_inc : option R;
  Map_obl : option R;
  Map_u : gmap nat tensor;
  Map_y : gmap (nat * nat) tensor
}.

Definition new_Map (ydeg udeg : nat) (amp : tensor) (inc obl : option R) : Map :=
  mkMap ydeg udeg amp inc obl ∅ ∅.

(** [map[n] = x] *)
Definition set_u (n : nat) (x : tensor) (mp : Map) : Map :=
  mkMap (Map_ydeg mp) (Map_udeg mp) (Map_amp mp) (Map_inc mp) (Map_obl mp)
        (<[n := x]> (Map_u mp)) (Map_y mp).

(** [map[l, m] = x] *)
Definition set_y (l m : nat) (x : tensor) (mp : Map) : Map :=
  mkMap (Map_ydeg mp) (Map_udeg mp) (Map_amp mp) (Map_inc mp) (Map_obl mp)
        (Map_u mp) (<[(l, m) := x]> (Map_y mp)).

(** [starry.Primary(map, m=.., r=.., prot=..)] *)
Record Primary : Type := mkPrimary {
  Primary_map : Map;
  Primary_m : tensor;
  Primary_r : tensor;
  Primary_prot : R
}.

(** [starry.Secondary(map, m=.., r=.., a=.., porb=.., prot=.., inc=..,
    ecc=.., w=..)] with the attributes assigned afterwards. *)
Record Secondary : Type := mkSecondary {
  Secondary_map : Map;
  Secondary_m : tensor;
  Secondary_r : tensor;
  Secondary_a : option tensor;
  Secondary_porb : option tensor;
  Secondary_prot : option tensor;
  Secondary_inc : tensor;
  Secondary_ecc : tensor;
  Secondary_w : tensor;
  Secondary_theta0 : option R;
  Secondary_tref : option R
}.

(** [planet.porb = x], [planet.prot = x], [planet.theta0 = x],
    [planet.tref = x] and [planet.map[l, m] = x]. *)
Definition set_porb (x : tensor) (p : Secondary) : Secondary :=
  mkSecondary (Secondary_map p) (Secondary_m p) (Secondary_r p) (Secondary_a p)
    (Some x) (Secondary_prot p) (Secondary_inc p) (Secondary_ecc p)
    (Secondary_w p) (Secondary_theta0 p) (Secondary_tref p).

Definition set_prot (x : tensor) (p : Secondary) : Secondary :=
  mkSecondary (Secondary_map p) (Secondary_m p) (Secondary_r p) (Secondary_a p)
    (Secondary_porb p) (Some x) (Secondary_inc p) (Secondary_ecc p)
    (Secondary_w p) (Secondary_theta0 p) (Secondary_tref p).

Definition set_theta0 (x : R) (p : Secondary) : Secondary :=
  mkSecondary (Secondary_map p) (Secondary_m p) (Secondary_r p) (Secondary_a p)
    (Secondary_porb p) (Secondary_prot p) (Secondary_inc p) (Secondary_ecc p)
    (Secondary_w p) (Some x) (Secondary_tref p).

Definition set_tref (x : R) (p : Secondary) : Secondary :=
  mkSecondary (Secondary_map p) (Secondary_m p) (Secondary_r p) (Secondary_a p)
    (Secondary_porb p) (Secondary_prot p) (Secondary_inc p) (Secondary_ecc p)
    (Secondary_w p) (Secondary_theta0 p) (Some x).

Definition set_map_y (l m : nat) (x : tensor) (p : Secondary) : Secondary :=
  mkSecondary (set_y l m x (Secondary_map p)) (Secondary_m p) (Secondary_r p)
    (Secondary_a p) (Secondary_porb p) (Secondary_prot p) (Secondary_inc p)
    (Secondary_ecc p) (Secondary_w p) (Secondary_theta0 p) (Secondary_tref p).

(** [starry.System(star, planet)] *)
Record System : Type := mkSystem {
  System_primary : Primary;
  System_secondary : Secondary
}.

End starry.

(* ===================================================================== *)
(** ** Parameters *)
(* ===================================================================== *)

(** One row of the parameter file (a [Parameter] of [readEPF]). *)
Record Param : Type := mkParam {
  name : string;
  value : pyvalue;
  ptype : string;
  priorpar1 : R;
  priorpar2 : R;
  prior : string
}.

(** The keyword arguments of the constructor call; [parameters] is the
    [Parameters] object, read by attribute name. *)
Record kwargs : Type := mkKwargs {
  parameters : gmap string Param;
  longparamlist : list (list string);
  nchan : nat;
  paramtitles : list string
}.

(** An object with dynamically named attributes of type [V] and the
    attributes of fixed name the model code assigns: [self] in [__init__]
    ([V] is [tensor]) and [fit] in the [fit_dict] setter ([V] is [pyvalue]). *)
Record namespace (V : Type) : Type := mkNamespace {
  attrs : gmap string V;
  star : option starry.Primary;
  u1_quadratic : option tensor;
  u2_quadratic : option tensor;
  ydeg : option nat;
  planet : option starry.Secondary;
  sys : option starry.System
}.

Arguments mkNamespace {V} _ _ _ _ _ _ _.
Arguments attrs {V} _.
Arguments star {V} _.
Arguments u1_quadratic {V} _.
Arguments u2_quadratic {V} _.
Arguments ydeg {V} _.
Arguments planet {V} _.
Arguments sys {V} _.

(** A fresh object: no attribute has been assigned. *)
Definition empty_namespace {V} : namespace V :=
  mkNamespace ∅ None None None None None None.

Section Attributes.
Context {V : Type}.

(** [hasattr(obj, name)] *)
Definition hasattr (name : string) : PyM (namespace V) bool :=
  gets (fun s => bool_decide (is_Some (attrs s !! name))).

(** [obj.name] *)
Definition getattr (name : string) : PyM (namespace V) V :=
  fun s =>
    match attrs s !! name with
    | Some v => (s, inr v)
    | None => (s, inl (AttributeError name))
    end.

(** [setattr(obj, name, v)] for a name the class of [obj] does not bind. *)
Definition setattr (name : string) (v : V) : PyM (namespace V) unit :=
  modify (fun s => mkNamespace (<[name := v]> (attrs s)) (star s)
                     (u1_quadratic s) (u2_quadratic s) (ydeg s) (planet s) (sys s)).

Definition set_star (x : starry.Primary) : PyM (namespace V) unit :=
  modify (fun s => mkNamespace (attrs s) (Some x)
                     (u1_quadratic s) (u2_quadratic s) (ydeg s) (planet s) (sys s)).

Definition set_u1_quadratic (x : tensor) : PyM (namespace V) unit :=
  modify (fun s => mkNamespace (attrs s) (star s)
                     (Some x) (u2_quadratic s) (ydeg s) (planet s) (sys s)).

Definition set_u2_quadratic (x : tensor) : PyM (namespace V) unit :=
  modify (fun s => mkNamespace (attrs s) (star s)
                     (u1_quadratic s) (Some x) (ydeg s) (planet s) (sys s)).

Definition set_ydeg (x : nat) : PyM (namespace V) unit :=
  modify (fun s => mkNamespace (attrs s) (star s)
                     (u1_quadratic s) (u2_quadratic s) (Some x) (planet s) (sys s)).

Definition set_planet (x : starry.Secondary) : PyM (namespace V) unit :=
  modify (fun s => mkNamespace (attrs s) (star s)
                     (u1_quadratic s) (u2_quadratic s) (ydeg s) (Some x) (sys s)).

Definition set_sys (x : starry.System) : PyM (namespace V) unit :=
  modify (fun s => mkNamespace (attrs s) (star s)
                     (u1_quadratic s) (u2_quadratic s) (ydeg s) (planet s) (Some x)).

(** Read an attribute of fixed name that was assigned earlier. *)
Definition get_field {A} (field : namespace V -> option A) (fname : string)
  : PyM (namespace V) A :=
  fun s =>
    match field s with
    | Some x => (s, inr x)
    | None => (s, inl (AttributeError fname))
    end.

(** [obj.star.map[n] = x] *)
Definition star_map_setitem (n : nat) (x : tensor) : PyM (namespace V) unit :=
  (st <- get_field star "star" ;;
   set_star (starry.mkPrimary (starry.set_u n x (starry.Primary_map st))
               (starry.Primary_m st) (starry.Primary_r st)
               (starry.Primary_prot st)))%py.

(** Update of [obj.planet] in place. *)
Definition update_planet (f : starry.Secondary -> starry.Secondary)
  : PyM (namespace V) unit :=
  (pl <- get_field planet "planet" ;; set_planet (f pl))%py.

End Attributes.

(** [self.parameters.<name>] *)
Definition get_parameter {S} (kw : kwargs) (parname : string) : PyM S Param :=
  fun s =>
    match parameters kw !! parname with
    | Some p => (s, inr p)
    | None => (s, inl (AttributeError parname))
    end.

(** [v == s] for a string literal [s]. *)
Definition is_str (v : pyvalue) (s : string) : bool :=
  match v with
  | VStr s' => String.eqb s' s
  | VNum _ => false
  end.

(* ===================================================================== *)
(** ** [StarryModel.__init__] *)
(* ===================================================================== *)

Definition required : list string := ["Ms"; "Mp"; "Rs"].

(** [required[missing]]: the entries of [l] selected by a boolean mask. *)
Fixpoint mask_select {A} (l : list A) (mask : list bool) : list A :=
  match l, mask with
  | x :: l', b :: mask' =>
      if b then x :: mask_select l' mask' else mask_select l' mask'
  | _, _ => []
  end.

(** [np.any(mask)] *)
Definition np_any (mask : list bool) : bool := existsb (fun b => b) mask.

(** Lines 39-42: the required names must be among [paramtitles]. *)
Definition check_required {S} (kw : kwargs) : PyM S unit :=
  let missing := map (fun name => negb (Py.contains (paramtitles kw) name)) required in
  if np_any missing then raise (AssertionError (mask_select required missing))
  else ret tt.

(** Lines 52-61: the shape of a sampled parameter, by its [ptype]. *)
Definition shape_of {S} (kw : kwargs) (param : Param) : PyM S (list nat) :=
  if String.eqb (ptype param) "free" then
    if Nat.eqb (nchan kw) 1 then ret [1%nat] else ret [1%nat; nchan kw]
  else if String.eqb (ptype param) "shared" then ret []
  else raise (ValueError (PtypeNotRecognized (ptype param) (name param))).

(** Lines 62-72: the prior of a sampled parameter; the shape is not passed
    on (the [shape=shape] arguments are commented out in the source). *)
Definition set_prior (parname : string) (param : Param)
  : PyM (namespace tensor) unit :=
  if String.eqb (prior param) "U" then
    setattr parname (pm_Uniform parname (priorpar1 param) (priorpar2 param))
  else if String.eqb (prior param) "N" then
    if Py.contains ["rp"; "per"; "ecc"; "scatter_mult"; "scatter_ppm"; "c0"] parname then
      setattr parname (BoundedNormal_0 parname (priorpar1 param) (priorpar2 param))
    else if Py.contains ["inc"] parname then
      setattr parname (BoundedNormal_90 parname (priorpar1 param) (priorpar2 param))
    else
      setattr parname (pm_Normal parname (priorpar1 param) (priorpar2 param))
  else if String.eqb (prior param) "LU" then
    setattr parname (TExp (pm_Uniform parname (priorpar1 param) (priorpar2 param)))
  else ret tt.

(** Lines 45-72: the body of the loop over [paramtitles]. *)
Definition init_parameter (kw : kwargs) (parname : string)
  : PyM (namespace tensor) unit :=
  (param <- get_parameter kw parname ;;
   if String.eqb (ptype param) "independent" then ret tt
   else if String.eqb (ptype param) "fixed" then
     setattr parname (tt_constant (value param))
   else
     (shape <- shape_of kw param ;;
      set_prior parname param))%py.

(** Lines 74-81: the star. *)
Definition init_star : PyM (namespace tensor) unit :=
  (udeg <- (has_u2 <- hasattr "u2" ;;
            if has_u2 then ret 2%nat
            else (has_u1 <- hasattr "u1" ;;
                  if has_u1 then ret 1%nat else ret 0%nat)) ;;
   Ms <- getattr "Ms" ;;
   Rs <- getattr "Rs" ;;
   set_star (starry.mkPrimary (starry.new_Map 0 udeg (tnum 1) None None) Ms Rs 1))%py.

(** Lines 84-97: the limb-darkening law. *)
Definition init_limb_dark (kw : kwargs) : PyM (namespace tensor) unit :=
  (limb_dark <- get_parameter kw "limb_dark" ;;
   if is_str (value limb_dark) "kipping2013" then
     (u1 <- getattr "u1" ;;
      u2 <- getattr "u2" ;;
      set_u1_quadratic
        (pm_Deterministic "u1_quadratic" (TMul (TMul (tnum 2) (TSqrt u1)) u2)) ;;;
      u1 <- getattr "u1" ;;
      u2 <- getattr "u2" ;;
      set_u2_quadratic
        (pm_Deterministic "u2_quadratic"
           (TMul (TSqrt u1) (TSub (tnum 1) (TMul (tnum 2) u2)))) ;;;
      x <- get_field u1_quadratic "u1_quadratic" ;;
      star_map_setitem 1 x ;;;
      x <- get_field u2_quadratic "u2_quadratic" ;;
      star_map_setitem 2 x)
   else if is_str (value limb_dark) "quadratic" then
     (u1 <- getattr "u1" ;;
      star_map_setitem 1 u1 ;;;
      u2 <- getattr "u2" ;;
      star_map_setitem 2 u2)
   else if is_str (value limb_dark) "linear" then
     (u1 <- getattr "u1" ;;
      star_map_setitem 1 u1)
   else if negb (is_str (value limb_dark) "uniform") then
     raise (ValueError (LimbDarkNotHandled (value limb_dark)))
   else ret tt)%py.

(** [if hasattr(obj, name): obj.planet.map[l, m] = obj.name] *)
Definition planet_map_from_attr {V} (lift : V -> tensor) (attr : string) (l m : nat)
  : PyM (namespace V) unit :=
  (has <- hasattr attr ;;
   if has then (x <- getattr attr ;; update_planet (starry.set_map_y l m (lift x)))
   else ret tt)%py.

(** Lines 100-105: the degree of the planet map. *)
Definition init_ydeg {V} : PyM (namespace V) unit :=
  (c2 <- hasattr "AmpCos2" ;;
   s2 <- hasattr "AmpSin2" ;;
   if c2 || s2 then set_ydeg 2
   else (c1 <- hasattr "AmpCos1" ;;
         s1 <- hasattr "AmpSin1" ;;
         if c1 || s1 then set_ydeg 1 else set_ydeg 0))%py.

(** Lines 124-134: harmonic amplitudes, reference phase and time. *)
Definition init_planet_map {V} (lift : V -> tensor) : PyM (namespace V) unit :=
  (planet_map_from_attr lift "AmpCos1" 1 0 ;;;
   planet_map_from_attr lift "AmpSin1" 1 1 ;;;
   yd <- get_field ydeg "ydeg" ;;
   (if Nat.eqb yd 2 then
      (planet_map_from_attr lift "AmpCos2" 2 0 ;;;
       planet_map_from_attr lift "AmpSin2" 2 1)
    else ret tt) ;;;
   update_planet (starry.set_theta0 180) ;;;
   update_planet (starry.set_tref 0))%py.

(** Line 137: the system. *)
Definition init_sys {V} : PyM (namespace V) unit :=
  (st <- get_field star "star" ;;
   pl <- get_field planet "planet" ;;
   set_sys (starry.mkSystem st pl))%py.

Section Model.

(** [astropy.constants]: the masses of Jupiter and of the Sun, in kg. *)
Variables (M_jup M_sun : R).

(** Lines 99-123: the planet. *)
Definition init_planet : PyM (namespace tensor) unit :=
  (init_ydeg ;;;
   amp <- (has_fp <- hasattr "fp" ;;
           if has_fp then getattr "fp" else ret (tnum 0)) ;;
   yd <- get_field ydeg "ydeg" ;;
   Mp <- getattr "Mp" ;;
   rp <- getattr "rp" ;;
   Rs <- getattr "Rs" ;;
   a <- getattr "a" ;;
   inc <- getattr "inc" ;;
   ecc <- getattr "ecc" ;;
   w <- getattr "w" ;;
   set_planet
     (starry.mkSecondary (starry.new_Map yd 0 amp (Some 90) (Some 0))
        (TDiv (TMul Mp (tnum M_jup)) (tnum M_sun))
        (TMul rp Rs)
        (Some a) None None inc ecc w None None) ;;;
   per <- getattr "per" ;;
   update_planet (starry.set_porb per) ;;;
   per <- getattr "per" ;;
   update_planet (starry.set_prot per))%py.

(** [StarryModel.__init__(self, **kwargs)] on the fresh object [self]. *)
Definition StarryModel_init (kw : kwargs) : PyM (namespace tensor) unit :=
  (check_required kw ;;;
   for_each (paramtitles kw) (init_parameter kw) ;;;
   init_star ;;;
   init_limb_dark kw ;;;
   init_planet ;;;
   init_planet_map (fun x => x) ;;;
   init_sys)%py.

(** The constructor call: the caller gets the object only when [__init__]
    returns, and the exception otherwise. *)
Definition StarryModel (kw : kwargs) : exn + namespace tensor :=
  match StarryModel_init kw empty_namespace with
  | (self, inr _) => inr self
  | (_, inl e) => inl e
  end.

(* ===================================================================== *)
(** ** The [fit_dict] setter *)
(* ===================================================================== *)

(** Lines 306-307: every fitted value becomes an attribute of [fit]. A
    Python [dict] is given by its items, in insertion order. *)
Definition fit_set_fitted (input_fit_dict : list (string * R))
  : PyM (namespace pyvalue) unit :=
  for_each input_fit_dict (fun kv => setattr (fst kv) (VNum (snd kv))).

(** Lines 309-314: every fixed parameter becomes an attribute of [fit]. *)
Definition fit_parameter (kw : kwargs) (parname : string)
  : PyM (namespace pyvalue) unit :=
  (param <- get_parameter kw parname ;;
   if String.eqb (ptype param) "independent" then ret tt
   else if String.eqb (ptype param) "fixed" then setattr parname (value param)
   else ret tt)%py.

(** Lines 316-323: the star. *)
Definition fit_star : PyM (namespace pyvalue) unit :=
  (udeg <- (has_u2 <- hasattr "u2" ;;
            if has_u2 then ret 2%nat
            else (has_u1 <- hasattr "u1" ;;
                  if has_u1 then ret 1%nat else ret 0%nat)) ;;
   Ms <- getattr "Ms" ;;
   Rs <- getattr "Rs" ;;
   set_star (starry.mkPrimary (starry.new_Map 0 udeg (tnum 1) None None)
               (TConst Ms) (TConst Rs) 1))%py.

(** Lines 325-338: the limb-darkening law. *)
Definition fit_limb_dark (kw : kwargs) : PyM (namespace pyvalue) unit :=
  (limb_dark <- get_parameter kw "limb_dark" ;;
   if is_str (value limb_dark) "kipping2013" then
     (u1 <- getattr "u1" ;;
      u2 <- getattr "u2" ;;
      set_u1_quadratic
        (pm_Deterministic "u1_quadratic"
           (TMul (TMul (tnum 2) (TSqrt (TConst u1))) (TConst u2))) ;;;
      u1 <- getattr "u1" ;;
      u2 <- getattr "u2" ;;
      set_u2_quadratic
        (pm_Deterministic "u2_quadratic"
           (TMul (TSqrt (TConst u1))
                 (TSub (tnum 1) (TMul (tnum 2) (TConst u2))))) ;;;
      x <- get_field u1_quadratic "u1_quadratic" ;;
      star_map_setitem 1 x ;;;
      x <- get_field u2_quadratic "u2_quadratic" ;;
      star_map_setitem 2 x)
   else if is_str (value limb_dark) "linear" then
     (u1 <- getattr "u1" ;;
      star_map_setitem 1 (TConst u1))
   else if is_str (value limb_dark) "quadratic" then
     (u1 <- getattr "u1" ;;
      star_map_setitem 1 (TConst u1) ;;;
      u2 <- getattr "u2" ;;
      star_map_setitem 2 (TConst u2))
   else if negb (is_str (value limb_dark) "uniform") then
     raise (ValueError (LimbDarkNotHandled (value limb_dark)))
   else ret tt)%py.

(** Lines 340-362: the planet; [fit.fp] is read unconditionally. *)
Definition fit_planet : PyM (namespace pyvalue) unit :=
  (init_ydeg ;;;
   yd <- get_field ydeg "ydeg" ;;
   fp <- getattr "fp" ;;
   Mp <- getattr "Mp" ;;
   rp <- getattr "rp" ;;
   Rs <- getattr "Rs" ;;
   porb <- getattr "per" ;;
   prot <- getattr "per" ;;
   inc <- getattr "inc" ;;
   ecc <- getattr "ecc" ;;
   w <- getattr "w" ;;
   set_planet
     (starry.mkSecondary (starry.new_Map yd 0 (TConst fp) (Some 90) (Some 0))
        (TDiv (TMul (TConst Mp) (tnum M_jup)) (tnum M_sun))
        (TMul (TConst rp) (TConst Rs))
        None (Some (TConst porb)) (Some (TConst prot))
        (TConst inc) (TConst ecc) (TConst w) None None))%py.

(** The body of the setter, on the fresh object [fit]. *)
Definition fit_dict_build (kw : kwargs) (input_fit_dict : list (string * R))
  : PyM (namespace pyvalue) unit :=
  (fit_set_fitted input_fit_dict ;;;
   for_each (paramtitles kw) (fit_parameter kw) ;;;
   fit_star ;;;
   fit_limb_dark kw ;;;
   fit_planet ;;;
   init_planet_map TConst ;;;
   init_sys)%py.

(** [self.fit_dict = input_fit_dict]: [self.fit] is assigned only when the
    whole body has run. *)
Definition fit_dict_setter (kw : kwargs) (input_fit_dict : list (string * R))
  : exn + namespace pyvalue :=
  match fit_dict_build kw input_fit_dict empty_namespace with
  | (fit, inr _) => inr fit
  | (_, inl e) => inl e
  end.

End Model.

(* ===================================================================== *)
(** ** Coefficient tables *)
(* ===================================================================== *)

(** [x == 0] on floats. *)
Definition Rzerob (x : R) : bool := if Req_dec_T x 0 then true else false.

(** The two tables of [syseval]: one row per channel, ten polynomial
    degrees and six ramp terms per row. *)
Record tables (A : Type) : Type := mkTables {
  poly_coeffs : list (list A);
  ramp_coeffs : list (list A)
}.

Arguments mkTables {A} _ _.
Arguments poly_coeffs {A} _.
Arguments ramp_coeffs {A} _.

(** [np.zeros((nchan,10))] and [np.zeros((nchan,6))] *)
Definition zero_tables {A} (zero : A) (nchan : nat) : tables A :=
  mkTables (replicate nchan (replicate 10 zero)) (replicate nchan (replicate 6 zero)).

(** [tbl[i, j] = v]: out of range raises [IndexError]. *)
Definition setitem2 {A} (i j : nat) (v : A) (tbl : list (list A))
  : exn + list (list A) :=
  match tbl !! i with
  | Some row =>
      if (j <? length row)%nat then inr (<[i := <[j := v]> row]> tbl)
      else inl IndexError
  | None => inl IndexError
  end.

Definition poly_setitem {A} (i j : nat) (v : A) : PyM (tables A) unit :=
  fun tb =>
    match setitem2 i j v (poly_coeffs tb) with
    | inr p => (mkTables p (ramp_coeffs tb), inr tt)
    | inl e => (tb, inl e)
    end.

Definition ramp_setitem {A} (i j : nat) (v : A) : PyM (tables A) unit :=
  fun tb =>
    match setitem2 i j v (ramp_coeffs tb) with
    | inr r => (mkTables (poly_coeffs tb) r, inr tt)
    | inl e => (tb, inl e)
    end.

(** [l[i]] *)
Definition getitem {S A} (l : list A) (i : nat) : PyM S A :=
  fun s =>
    match l !! i with
    | Some x => (s, inr x)
    | None => (s, inl IndexError)
    end.

(** Lines 210-226: one item of [fit_dict] ([eval=True]). *)
Definition decode_fit_item (nchan : nat) (kv : string * R) : PyM (tables R) unit :=
  let k := fst kv in
  let v := snd kv in
  if Py.startswith (Py.lower k) "c" then
    let k := Py.tail k in
    let remvisnum := Py.split "_" k in
    if Py.isdigit k then poly_setitem 0 (Py.int k) v
    else if (1 <? length remvisnum)%nat && (1 <? nchan)%nat then
      if Py.isdigit (Py.item remvisnum 0) && Py.isdigit (Py.item remvisnum 1) then
        poly_setitem (Py.int (Py.item remvisnum 1)) (Py.int (Py.item remvisnum 0)) v
      else ret tt
    else ret tt
  else if Py.startswith (Py.lower k) "r" then
    let k := Py.tail k in
    let remvisnum := Py.split "_" (Py.tail k) in
    if Py.isdigit k then ramp_setitem 0 (Py.int k) v
    else if (1 <? length remvisnum)%nat && (1 <? nchan)%nat then
      if Py.isdigit (Py.item remvisnum 0) && Py.isdigit (Py.item remvisnum 1) then
        ramp_setitem (Py.int (Py.item remvisnum 1)) (Py.int (Py.item remvisnum 0)) v
      else ret tt
    else ret tt
  else ret tt.

(** Read an attribute of [self] while working on another object. *)
Definition self_getattr {S} (self : namespace tensor) (attr : string) : PyM S tensor :=
  fun s => (s, snd (getattr attr self)).

(** Lines 249-265: one name of [paramtitles] ([eval=False]); the right-hand
    side [getattr(self, ..)] is evaluated before the table is indexed. *)
Definition decode_paramtitle (nchan : nat) (self : namespace tensor) (k : string)
  : PyM (tables tensor) unit :=
  if Py.startswith (Py.lower k) "c" then
    let k := Py.tail k in
    let remvisnum := Py.split "_" k in
    if Py.isdigit k then
      (v <- self_getattr self ("c" ++ k) ;; poly_setitem 0 (Py.int k) v)%py
    else if (1 <? length remvisnum)%nat && (1 <? nchan)%nat then
      if Py.isdigit (Py.item remvisnum 0) && Py.isdigit (Py.item remvisnum 1) then
        (v <- self_getattr self ("c" ++ k) ;;
         poly_setitem (Py.int (Py.item remvisnum 1)) (Py.int (Py.item remvisnum 0)) v)%py
      else ret tt
    else ret tt
  else if Py.startswith (Py.lower k) "r" then
    let k := Py.tail k in
    let remvisnum := Py.split "_" (Py.tail k) in
    if Py.isdigit k then
      (v <- self_getattr self ("r" ++ k) ;; ramp_setitem 0 (Py.int k) v)%py
    else if (1 <? length remvisnum)%nat && (1 <? nchan)%nat then
      if Py.isdigit (Py.item remvisnum 0) && Py.isdigit (Py.item remvisnum 1) then
        (v <- self_getattr self ("r" ++ k) ;;
         ramp_setitem (Py.int (Py.item remvisnum 1)) (Py.int (Py.item remvisnum 0)) v)%py
      else ret tt
    else ret tt
  else ret tt.

(* ===================================================================== *)
(** ** numpy on one-dimensional arrays *)
(* ===================================================================== *)

(** [a.mean()] *)
Definition np_mean (a : list R) : R := fold_right Rplus 0 a / INR (length a).

(** [np.all(tbl == 0, axis=0)] for a table of [ncols] columns. *)
Definition np_all_zero_axis0 (ncols : nat) (tbl : list (list R)) : list bool :=
  map (fun j => forallb (fun row => Rzerob (nth j row 0)) tbl) (seq 0 ncols).

(** [np.trim_zeros(c, 'f')] *)
Fixpoint trim_zeros_front (c : list R) : list R :=
  match c with
  | [] => []
  | x :: c' => if Rzerob x then trim_zeros_front c' else c
  end.

(** [np.poly1d(c)]: the coefficients it keeps. *)
Definition np_poly1d (c : list R) : list R :=
  match trim_zeros_front c with
  | [] => [0]
  | c' => c'
  end.

(** [np.polyval(p, x)]: Horner's rule, highest degree first. *)
Definition np_polyval (p : list R) (x : R) : R :=
  fold_left (fun y pv => y * x + pv) p 0.

(** [a * b] with broadcasting, for one-dimensional arrays. *)
Definition np_mul (a b : list R) : exn + list R :=
  if (length a =? length b)%nat then inr (zip_with Rmult a b)
  else match a, b with
       | [x], _ => inr (map (Rmult x) b)
       | _, [y] => inr (map (fun x => x * y) a)
       | _, _ => inl (ValueError BroadcastError)
       end.

(* ===================================================================== *)
(** ** [StarryModel.syseval] *)
(* ===================================================================== *)

(** Run a computation that builds an object from an initial one. *)
Definition run {S A} (m : PyM S A) (s : S) : exn + S :=
  match m s with
  | (s', inr _) => inr s'
  | (_, inl e) => inl e
  end.

(** Lines 228-229: drop the columns that are zero in every channel, then
    put the highest remaining degree first. *)
Definition trim_and_flip (poly : list (list R)) : list (list R) :=
  let keep := map negb (np_all_zero_axis0 10 poly) in
  map (fun row => rev (mask_select row keep)) poly.

(** Lines 230-234: the polynomial trend, channel after channel. *)
Definition poly_flux_eval (nchan : nat) (poly : list (list R)) (time : list R)
  : PyM (list R) unit :=
  let time_poly := map (fun t => t - np_mean time) time in
  for_each (seq 0 nchan) (fun c =>
    (row <- getitem poly c ;;
     let poly1d := np_poly1d row in
     modify (fun poly_flux => (poly_flux ++ map (np_polyval poly1d) time_poly)%list))%py).

(** [r0, r1, r2, r3, r4, r5 = row] followed by the ramp formula. *)
Definition ramp_piece {S A} (row : list A) (f : A -> A -> A -> A -> A -> A -> list A)
  : PyM S (list A) :=
  match row with
  | [r0; r1; r2; r3; r4; r5] => ret (f r0 r1 r2 r3 r4 r5)
  | _ => raise (ValueError UnpackError)
  end.

(** Lines 236-241: the ramp trend, channel after channel. *)
Definition ramp_flux_eval (nchan : nat) (ramp : list (list R)) (time : list R)
  : PyM (list R) unit :=
  (time0 <- getitem time 0 ;;
   let time_ramp := map (fun t => t - time0) time in
   for_each (seq 0 nchan) (fun c =>
     (row <- getitem ramp c ;;
      lcpiece <- ramp_piece row (fun r0 r1 r2 r3 r4 r5 =>
        map (fun t => r0 * exp (- r1 * t + r2) + r3 * exp (- r4 * t + r5) + 1)
            time_ramp) ;;
      modify (fun ramp_flux => (ramp_flux ++ lcpiece)%list))))%py.

(** [syseval(eval=True)], lines 205-243, with a numpy array as time
    axis. *)
Definition syseval_eval (nchan : nat) (fit_dict : list (string * R)) (time : list R)
  : exn + list R :=
  match run (for_each fit_dict (decode_fit_item nchan)) (zero_tables 0 nchan) with
  | inl e => inl e
  | inr tb =>
      let poly := trim_and_flip (poly_coeffs tb) in
      match run (poly_flux_eval nchan poly time) [] with
      | inl e => inl e
      | inr poly_flux =>
          match run (ramp_flux_eval nchan (ramp_coeffs tb) time) [] with
          | inl e => inl e
          | inr ramp_flux => inr (zip_with Rmult poly_flux ramp_flux)
          end
      end
  end.

(** Lines 267-273: the polynomial trend as tensors, one per time sample:
    [lcpiece] starts at zero and gains one term per power. *)
Definition poly_flux_lazy (nchan : nat) (poly : list (list tensor)) (time : list R)
  : PyM (list tensor) unit :=
  let time_poly := map (fun t => t - np_mean time) time in
  for_each (seq 0 nchan) (fun c =>
    (row <- getitem poly c ;;
     let lcpiece :=
       fold_left
         (fun lcpiece power =>
            map (fun acc_t =>
                   TAdd (fst acc_t)
                        (TMul (nth power row (tnum 0)) (tnum (snd acc_t ^ power))))
                (zip lcpiece time_poly))
         (seq 0 (length row))
         (replicate (length time) (tnum 0)) in
     modify (fun poly_flux => (poly_flux ++ lcpiece)%list))%py).

(** Lines 275-280: the ramp trend as tensors. *)
Definition ramp_flux_lazy (nchan : nat) (ramp : list (list tensor)) (time : list R)
  : PyM (list tensor) unit :=
  (time0 <- getitem time 0 ;;
   let time_ramp := map (fun t => t - time0) time in
   for_each (seq 0 nchan) (fun c =>
     (row <- getitem ramp c ;;
      lcpiece <- ramp_piece row (fun r0 r1 r2 r3 r4 r5 =>
        map (fun t =>
               TAdd (TAdd (TMul r0 (TExp (TAdd (TMul (TNeg r1) (tnum t)) r2)))
                          (TMul r3 (TExp (TAdd (TMul (TNeg r4) (tnum t)) r5))))
                    (tnum 1))
            time_ramp) ;;
      modify (fun ramp_flux => (ramp_flux ++ lcpiece)%list))))%py.

(** [syseval(eval=False)], lines 244-282. *)
Definition syseval_lazy (kw : kwargs) (self : namespace tensor) (time : list R)
  : exn + list tensor :=
  match run (for_each (paramtitles kw) (decode_paramtitle (nchan kw) self))
            (zero_tables (tnum 0) (nchan kw)) with
  | inl e => inl e
  | inr tb =>
      match run (poly_flux_lazy (nchan kw) (poly_coeffs tb) time) [] with
      | inl e => inl e
      | inr poly_flux =>
          match run (ramp_flux_lazy (nchan kw) (ramp_coeffs tb) time) [] with
          | inl e => inl e
          | inr ramp_flux => inr (zip_with TMul poly_flux ramp_flux)
          end
      end
  end.

(** The numbers a lazy flux takes at the parameter point [theta]. *)
Definition flux_at (theta : string -> R) (flux : list tensor) : option (list R) :=
  mapM (teval theta) flux.

(* ===================================================================== *)
(** ** [StarryModel.physeval] and [StarryModel.eval] *)
(* ===================================================================== *)

Section Eval.

(** [sys.flux(t).eval()] of starry, for a system and an array of times. *)
Variable starry_flux : starry.System -> list R -> list R.

(** [physeval(eval=True)[0]], line 293, with [interp=False] as [eval]
    calls it: the flux of the fitted system at [time - fit.t0]. *)
Definition physeval_eval (fit : option (namespace pyvalue)) (time : list R)
  : exn + list R :=
  match fit with
  | None => inl (AttributeError "fit")
  | Some fit =>
      match sys fit with
      | None => inl (AttributeError "sys")
      | Some fit_sys =>
          match attrs fit !! "t0" with
          | None => inl (AttributeError "t0")
          | Some (VStr _) => inl TypeError
          | Some (VNum t0) => inr (starry_flux fit_sys (map (fun t => t - t0) time))
          end
      end
  end.

(** [eval(eval=True)], line 202. *)
Definition eval_eval (nchan : nat) (fit_dict : list (string * R))
    (fit : option (namespace pyvalue)) (time : list R) : exn + list R :=
  match physeval_eval fit time with
  | inl e => inl e
  | inr phys =>
      match syseval_eval nchan fit_dict time with
      | inl e => inl e
      | inr systematics => np_mul phys systematics
      end
  end.

End Eval.

(* ===================================================================== *)
(** ** Vocabulary of the properties *)
(* ===================================================================== *)

(** [raises_only P m]: every exception [m] can raise satisfies [P]. *)
Definition raises_only {S A} (P : exn -> Prop) (m : PyM S A) : Prop :=
  forall s s' e, m s = (s', inl e) -> P e.

(** [preserves f m]: [m] never changes the component [f] of the object,
    whether it returns or raises. *)
Definition preserves {S A X} (f : S -> X) (m : PyM S A) : Prop :=
  forall s s' r, m s = (s', r) -> f s' = f s.

(** A component of the object that does not depend on [attrs]. *)
Definition attr_free {V X} (f : namespace V -> X) : Prop :=
  forall a st u1 u2 yd pl sy,
    f (mkNamespace a st u1 u2 yd pl sy) = f (mkNamespace ∅ st u1 u2 yd pl sy).

(** The strings [__init__] accepts as [ptype]. *)
Definition recognized_ptypes : list string :=
  ["independent"; "fixed"; "free"; "shared"].

(** The strings [__init__] and the [fit_dict] setter accept as law. *)
Definition recognized_laws : list pyvalue :=
  [VStr "uniform"; VStr "linear"; VStr "quadratic"; VStr "kipping2013"].

(** An exception other than the [ValueError] about the limb-darkening law. *)
Definition not_limb_dark_error (e : exn) : Prop :=
  forall law, e <> ValueError (LimbDarkNotHandled law).

(** The prior kinds of the specification and the codes the parameter file
    uses for them. *)
Inductive prior_kind : Type := uniform | normal | log_uniform.

Definition prior_code (k : prior_kind) : string :=
  match k with
  | uniform => "U"
  | normal => "N"
  | log_uniform => "LU"
  end.

(** The prior construction table of the specification: the distribution
    sampled for a parameter, by prior kind and parameter name. [Bound (Some 0)
    None] is the normal truncated to positive values and [Bound None (Some
    90)] the normal truncated at 90 from above. *)
Definition prior_table (k : prior_kind) (parname : string) (par1 par2 : R) : tensor :=
  match k with
  | uniform => TVar parname (Uniform par1 par2)
  | normal =>
      if bool_decide (parname ∈ ["rp"; "per"; "ecc"; "scatter_mult"; "scatter_ppm"; "c0"])
      then TVar parname (Bound (Some 0) None par1 par2)
      else if bool_decide (parname = "inc")
           then TVar parname (Bound None (Some 90) par1 par2)
           else TVar parname (Normal par1 par2)
  | log_uniform => TExp (TVar parname (Uniform par1 par2))
  end.

(** The entry of row [ch] and column [d] of a table. *)
Definition cell {A} (tbl : list (list A)) (ch d : nat) : option A :=
  row ← tbl !! ch; row !! d.

(** The tables after [poly_coeffs[ch, d] = v] and [ramp_coeffs[ch, d] = v]. *)
Definition record_poly {A} (ch d : nat) (v : A) (tb : tables A) : tables A :=
  mkTables (alter (fun row => <[d := v]> row) ch (poly_coeffs tb)) (ramp_coeffs tb).

Definition record_ramp {A} (ch d : nat) (v : A) (tb : tables A) : tables A :=
  mkTables (poly_coeffs tb) (alter (fun row => <[d := v]> row) ch (ramp_coeffs tb)).

(** Tables of [nchan] rows, ten polynomial and six ramp columns. *)
Definition shaped {A} (nchan : nat) (tb : tables A) : Prop :=
  length (poly_coeffs tb) = nchan /\
  Forall (fun row => length row = 10%nat) (poly_coeffs tb) /\
  length (ramp_coeffs tb) = nchan /\
  Forall (fun row => length row = 6%nat) (ramp_coeffs tb).

(** The first letter of a name of the polynomial family and of the ramp
    family, in either case. *)
Definition poly_letter (a : ascii) : Prop := a = "c"%char \/ a = "C"%char.

Definition ramp_letter (a : ascii) : Prop := a = "r"%char \/ a = "R"%char.

(** A name of neither family: empty, or starting with none of c, C, r, R. *)
Definition other_family (k : string) : Prop :=
  match k with
  | EmptyString => True
  | String a _ => a <> "c"%char /\ a <> "C"%char /\ a <> "r"%char /\ a <> "R"%char
  end.

(* ===================================================================== *)
(** ** Example inputs *)
(* ===================================================================== *)

(** A row [name value 'fixed'] of a parameter file. *)
Definition fixed_param (n : string) (x : R) : Param :=
  mkParam n (VNum x) "fixed" 0 0 "".

(** A row [name value ptype priorpar1 priorpar2 prior]. *)
Definition sampled_param (n : string) (x : R) (pt : string) (p1 p2 : R)
    (pr : string) : Param :=
  mkParam n (VNum x) pt p1 p2 pr.

(** The row [limb_dark law 'independent']. *)
Definition limb_dark_param (law : string) : Param :=
  mkParam "limb_dark" (VStr law) "independent" 0 0 "".

(** The [Parameters] object and the [paramtitles] of a list of rows. *)
Definition table_of (rows : list Param) : gmap string Param :=
  list_to_map (map (fun p => (name p, p)) rows).

Definition kwargs_of (n : nat) (rows : list Param) : kwargs :=
  mkKwargs (table_of rows) [] n (map name rows).

(** A transit with quadratic limb darkening, every parameter fixed. *)
Definition transit_rows : list Param :=
  [fixed_param "Ms" 1; fixed_param "Mp" 1; fixed_param "Rs" 1;
   fixed_param "per" 3; fixed_param "rp" 1; fixed_param "a" 10;
   fixed_param "inc" 90; fixed_param "ecc" 0; fixed_param "w" 90;
   fixed_param "t0" 0; fixed_param "fp" 0;
   fixed_param "u1" 1; fixed_param "u2" 1].

(** The transit without a planet flux. *)
Definition transit_rows_no_fp : list Param :=
  [fixed_param "Ms" 1; fixed_param "Mp" 1; fixed_param "Rs" 1;
   fixed_param "per" 3; fixed_param "rp" 1; fixed_param "a" 10;
   fixed_param "inc" 90; fixed_param "ecc" 0; fixed_param "w" 90;
   fixed_param "t0" 0; fixed_param "u1" 1; fixed_param "u2" 1].

(** The transit table without the stellar mass. *)
Definition kw_missing_Ms : kwargs :=
  kwargs_of 1 (limb_dark_param "quadratic" :: List.tail transit_rows).

(** The transit with a radius ratio whose [ptype] is misspelt. *)
Definition kw_bad_ptype : kwargs :=
  kwargs_of 1 (transit_rows ++
               [sampled_param "rprs" 1 "fitted" 0 1 "U";
                limb_dark_param "quadratic"]).

(** The transit with a law neither builder knows. *)
Definition kw_bad_law : kwargs :=
  kwargs_of 1 (transit_rows ++ [limb_dark_param "nonlinear"]).

(** A free planet flux whose prior kind is spelt out instead of coded. *)
Definition kw_bad_prior : kwargs :=
  kwargs_of 1 (transit_rows_no_fp ++
               [sampled_param "fp" 0 "free" 0 1 "Normal";
                limb_dark_param "quadratic"]).

(** Free parameters with a prior of each kind. *)
Definition kw_priors : kwargs :=
  kwargs_of 1 ([fixed_param "Ms" 1; fixed_param "Mp" 1; fixed_param "Rs" 1;
                sampled_param "per" 3 "shared" 3 1 "N";
                sampled_param "rp" 1 "free" 0 1 "U";
                sampled_param "a" 10 "free" 0 3 "LU";
                sampled_param "inc" 90 "free" 88 2 "N";
                sampled_param "t0" 0 "free" 0 1 "N";
                fixed_param "ecc" 0; fixed_param "w" 90;
                limb_dark_param "uniform"]).


(** The end-to-end scenario of the specification, with the parameters it
    lists. *)
Definition scenario_rows : list Param :=
  [fixed_param "Ms" 1; fixed_param "Mp" 1; fixed_param "Rs" 1;
   fixed_param "per" 3.5; fixed_param "rp" 0.1; fixed_param "inc" 90;
   fixed_param "ecc" 0; fixed_param "w" 90;
   fixed_param "u1" 0.3; fixed_param "u2" 0.2].

Definition kw_scenario : kwargs :=
  kwargs_of 1 (scenario_rows ++ [limb_dark_param "quadratic"]).

(** The scenario with the parameters the builders and [physeval] read
    besides: the semi-major axis, the transit time and the planet flux. *)
Definition kw_scenario_complete : kwargs :=
  kwargs_of 1 (scenario_rows ++
               [fixed_param "a" 10; fixed_param "t0" 0; fixed_param "fp" 0;
                limb_dark_param "quadratic"]).

(** The complete scenario with a free quadratic trend coefficient. *)
Definition kw_quadratic_trend : kwargs :=
  kwargs_of 1 (scenario_rows ++
               [fixed_param "a" 10; fixed_param "t0" 0; fixed_param "fp" 0;
                sampled_param "c2" 0 "free" (-10) 10 "U";
                limb_dark_param "quadratic"]).

(** A stand-in for starry: the flux of a star out of transit. *)
Definition flat_flux (system : starry.System) (t : list R) : list R :=
  map (fun _ => 1) t.

(* ===================================================================== *)
(** ** Vocabulary of the build properties *)
(* ===================================================================== *)

(** The random variable [__init__] assigns for a sampled row, if any: that
    of the prior table for a prior code U, N or LU, and nothing for
    another prior code. *)
Definition sampled_tensor (parname : string) (p : Param) : option tensor :=
  if String.eqb (prior p) "U" then Some (prior_table uniform parname (priorpar1 p) (priorpar2 p))
  else if String.eqb (prior p) "N" then Some (prior_table normal parname (priorpar1 p) (priorpar2 p))
  else if String.eqb (prior p) "LU" then Some (prior_table log_uniform parname (priorpar1 p) (priorpar2 p))
  else None.

(** The tensor [__init__] assigns for a parameter row, if any: nothing for
    an independent row, the constant of a fixed row, and the random
    variable of any other row. *)
Definition row_tensor (parname : string) (p : Param) : option tensor :=
  if String.eqb (ptype p) "independent" then None
  else if String.eqb (ptype p) "fixed" then Some (TConst (value p))
  else sampled_tensor parname p.

(** The attribute [__init__] leaves under a name: that of its row when the
    name is listed in [paramtitles], none otherwise. *)
Definition init_attribute (kw : kwargs) (n : string) : option tensor :=
  if bool_decide (n ∈ paramtitles kw) then
    p ← parameters kw !! n; row_tensor n p
  else None.

(** Every listed name has a row, and the row a recognized [ptype]. *)
Definition titles_well_formed (kw : kwargs) : Prop :=
  forall n, n ∈ paramtitles kw ->
    exists p, parameters kw !! n = Some p /\ ptype p ∈ recognized_ptypes.

(** The attributes the star and the planet of [__init__] read. *)
Definition init_reads : list string :=
  ["Ms"; "Rs"; "Mp"; "rp"; "a"; "inc"; "ecc"; "w"; "per"].

(** The law is one of the four and the coefficients it reads are among
    the attributes [has]. *)
Definition law_served {V} (kw : kwargs) (has : string -> option V) : Prop :=
  exists limb_dark,
    parameters kw !! "limb_dark" = Some limb_dark /\
    (value limb_dark = VStr "uniform" \/
     (value limb_dark = VStr "linear" /\ is_Some (has "u1")) \/
     ((value limb_dark = VStr "quadratic" \/ value limb_dark = VStr "kipping2013") /\
      is_Some (has "u1") /\ is_Some (has "u2"))).

(** The degree of the star map: 2 with an attribute u2, else 1 with an
    attribute u1, else 0. *)
Definition star_udeg {V} (a : gmap string V) : nat :=
  if bool_decide (is_Some (a !! "u2")) then 2
  else if bool_decide (is_Some (a !! "u1")) then 1 else 0.

(** The degree of the planet map: 2 with a second-order amplitude, else 1
    with a first-order amplitude, else 0. *)
Definition planet_ydeg {V} (a : gmap string V) : nat :=
  if bool_decide (is_Some (a !! "AmpCos2")) || bool_decide (is_Some (a !! "AmpSin2"))
  then 2
  else if bool_decide (is_Some (a !! "AmpCos1")) || bool_decide (is_Some (a !! "AmpSin1"))
       then 1 else 0.

(** The first of [names] that is not an attribute. *)
Fixpoint first_missing {V} (has : string -> option V) (names : list string)
  : option string :=
  match names with
  | [] => None
  | n :: names' =>
      match has n with
      | Some _ => first_missing has names'
      | None => Some n
      end
  end.

(** The attributes the planet of [__init__] reads, in reading order, and
    those the planet of the [fit_dict] setter reads. *)
Definition init_planet_reads : list string :=
  ["Mp"; "rp"; "Rs"; "a"; "inc"; "ecc"; "w"; "per"].

Definition fit_planet_reads : list string :=
  ["fp"; "Mp"; "rp"; "Rs"; "per"; "inc"; "ecc"; "w"].

(** The attributes a law reads, in reading order. *)
Definition law_reads (law : pyvalue) : list string :=
  if is_str law "kipping2013" then ["u1"; "u2"]
  else if is_str law "quadratic" then ["u1"; "u2"]
  else if is_str law "linear" then ["u1"]
  else [].

(** The limb-darkening coefficients [__init__] gives the star map under a
    law, from the attributes u1 and u2. *)
Definition init_limb_coefficients (law : pyvalue) (u1 u2 : tensor)
  : gmap nat tensor :=
  if is_str law "kipping2013" then
    <[2%nat := TMul (TSqrt u1) (TSub (tnum 1) (TMul (tnum 2) u2))]>
      (<[1%nat := TMul (TMul (tnum 2) (TSqrt u1)) u2]> ∅)
  else if is_str law "quadratic" then <[2%nat := u2]> (<[1%nat := u1]> ∅)
  else if is_str law "linear" then <[1%nat := u1]> ∅
  else ∅.

(** The law is one of the four the builders know. *)
Definition is_recognized_law (law : pyvalue) : bool :=
  is_str law "kipping2013" || is_str law "quadratic" || is_str law "linear"
  || is_str law "uniform".

(** [if hasattr(obj, attr): planet.map[l, m] = obj.attr] on the planet. *)
Definition set_harmonic {V} (lift : V -> tensor) (a : gmap string V)
    (attr : string) (l m : nat) (pl : starry.Secondary) : starry.Secondary :=
  match a !! attr with
  | Some x => starry.set_map_y l m (lift x) pl
  | None => pl
  end.

(** The planet after the amplitude assignments of lines 124-132 (and
    365-373), for attributes [a] and planet degree [yd]. *)
Definition apply_harmonics {V} (lift : V -> tensor) (a : gmap string V)
    (yd : nat) (pl : starry.Secondary) : starry.Secondary :=
  let pl := set_harmonic lift a "AmpCos1" 1 0 pl in
  let pl := set_harmonic lift a "AmpSin1" 1 1 pl in
  if Nat.eqb yd 2 then
    set_harmonic lift a "AmpSin2" 2 1 (set_harmonic lift a "AmpCos2" 2 0 pl)
  else pl.

(** The star [__init__] builds from the attributes [a] under the law. *)
Definition init_star_of (a : gmap string tensor) (law : pyvalue) : starry.Primary :=
  let get n := default (tnum 0) (a !! n) in
  starry.mkPrimary
    (starry.mkMap 0 (star_udeg a) (tnum 1) None None
       (init_limb_coefficients law (get "u1") (get "u2")) ∅)
    (get "Ms") (get "Rs") 1.

Section BuiltObjects.

Variables (M_jup M_sun : R).

(** The planet [__init__] builds from the attributes [a]. *)
Definition init_planet_of (a : gmap string tensor) : starry.Secondary :=
  let get n := default (tnum 0) (a !! n) in
  starry.set_tref 0
    (starry.set_theta0 180
       (apply_harmonics (fun x => x) a (planet_ydeg a)
          (starry.mkSecondary
             (starry.new_Map (planet_ydeg a) 0 (get "fp") (Some 90) (Some 0))
             (TDiv (TMul (get "Mp") (tnum M_jup)) (tnum M_sun))
             (TMul (get "rp") (get "Rs"))
             (a !! "a") (a !! "per") (a !! "per")
             (get "inc") (get "ecc") (get "w") None None))).

(** The object a complete run of [__init__] leaves, up to the two
    Deterministic variables of the kipping2013 law. *)
Definition is_init_model (kw : kwargs) (law : pyvalue) (self : namespace tensor)
  : Prop :=
  (forall n, attrs self !! n = init_attribute kw n) /\
  star self = Some (init_star_of (attrs self) law) /\
  ydeg self = Some (planet_ydeg (attrs self)) /\
  planet self = Some (init_planet_of (attrs self)) /\
  sys self = Some (starry.mkSystem (init_star_of (attrs self) law)
                     (init_planet_of (attrs self))).

End BuiltObjects.

(** The names the class binds itself: its properties, its methods, and the
    attributes that [__init__], [setup], the setters and [plot] assign or
    read under a fixed name. [setattr] on a property goes through its
    setter, and the builders assign [star], [planet] and the like after the
    loop over the parameters. *)
Definition own_names : list string :=
  ["flux"; "parameters"; "time"; "fit_dict";
   "setup"; "eval"; "syseval"; "physeval"; "plot";
   "modeltype"; "longparamlist"; "nchan"; "paramtitles"; "components";
   "star"; "u1_quadratic"; "u2_quadratic"; "ydeg"; "planet"; "sys";
   "lc_unc"; "time_units"; "fit"; "fitter"; "name"].

(** The public names of the base class [pm.Model]: its properties, which
    [setattr] cannot assign, and its methods. *)
Definition base_names : list string :=
  ["name"; "coords"; "RV_dims"; "add_coords"; "check_bounds"; "theano_config";
   "named_vars"; "free_RVs"; "observed_RVs"; "deterministics"; "potentials";
   "missing_values"; "parent"; "root"; "isroot"; "model"; "vars";
   "basic_RVs"; "unobserved_RVs"; "test_point"; "disc_vars"; "cont_vars";
   "size"; "ndim"; "bijection"; "dict_to_array"; "logp_array"; "dlogp_array";
   "logp_dlogp_function"; "logpt"; "logp_nojact"; "logp_elemwiset";
   "varlogpt"; "datalogpt";
   "logp"; "logp_elemwise"; "dlogp"; "d2logp"; "logp_nojac"; "dlogp_nojac";
   "d2logp_nojac"; "fastlogp"; "fastdlogp"; "fastd2logp"; "fastlogp_nojac";
   "fastdlogp_nojac"; "fastd2logp_nojac";
   "Var"; "shape_from_dims"; "add_random_variable"; "prefix"; "name_for";
   "name_of"; "makefn"; "fn"; "fastfn"; "profile"; "flatten";
   "check_test_point"; "contexts"; "get_context"; "get_contexts"].

(** A parameter name of a run: it does not start with an underscore, as
    the fields behind the properties and the names of [object] do; it does
    not end with two underscores, as the names PyMC3 gives the transformed
    variables of bounded priors do; and it is not a name of the class or
    of its base class. *)
Definition is_parameter_name (n : string) : bool :=
  negb (Py.startswith n "_") && negb (Py.endswith n "__")
  && negb (Py.contains own_names n) && negb (Py.contains base_names n).

(** The listed names are parameter names, each listed once: PyMC3 gives
    every random variable the name of its parameter. *)
Definition titles_are_parameters (kw : kwargs) : Prop :=
  NoDup (paramtitles kw) /\
  Forall (fun n => is_parameter_name n = true) (paramtitles kw).

(** The listed names and the keys of [fit_dict] are parameter names. *)
Definition fit_names_are_parameters (kw : kwargs)
    (input_fit_dict : list (string * R)) : Prop :=
  Forall (fun n => is_parameter_name n = true) (paramtitles kw) /\
  Forall (fun kv => is_parameter_name (fst kv) = true) input_fit_dict.

(** The law of the table is not kipping2013, the one branch in which the
    setter calls [pm.Deterministic] (lines 327-328); the setter runs
    outside the model context that call needs. *)
Definition law_is_direct (kw : kwargs) : Prop :=
  forall limb_dark, parameters kw !! "limb_dark" = Some limb_dark ->
    value limb_dark <> VStr "kipping2013".

(** [titles_well_formed], as a test to run on a table. *)
Definition titles_checked (kw : kwargs) : bool :=
  forallb
    (fun n =>
       match parameters kw !! n with
       | Some p => bool_decide (ptype p ∈ recognized_ptypes)
       | None => false
       end)
    (paramtitles kw).

(** The required names are listed, as a test to run on a table. *)
Definition required_checked (kw : kwargs) : bool :=
  forallb (fun n => bool_decide (n ∈ paramtitles kw)) required.

(** [d[n]] for a dictionary given by its items: the last item under the
    key [n], if any. *)
Fixpoint dict_get (items : list (string * R)) (n : string) : option R :=
  match items with
  | [] => None
  | (k, v) :: items' =>
      match dict_get items' n with
      | Some x => Some x
      | None => if String.eqb k n then Some v else None
      end
  end.

(** The attribute the setter leaves under a name on [fit]: the value of
    the row when the name is listed and its row is fixed, and the fitted
    value otherwise. *)
Definition fit_attribute (kw : kwargs) (input_fit_dict : list (string * R))
    (n : string) : option pyvalue :=
  match (if bool_decide (n ∈ paramtitles kw) then parameters kw !! n else None) with
  | Some p =>
      if String.eqb (ptype p) "fixed" then Some (value p)
      else VNum <$> dict_get input_fit_dict n
  | None => VNum <$> dict_get input_fit_dict n
  end.

(** Every listed name has a row. *)
Definition titles_have_rows (kw : kwargs) : Prop :=
  forall n, n ∈ paramtitles kw -> is_Some (parameters kw !! n).

(** The attributes the star and the planet of the setter read. *)
Definition fit_reads : list string :=
  ["Ms"; "Rs"; "fp"; "Mp"; "rp"; "per"; "inc"; "ecc"; "w"].

(** The limb-darkening coefficients the setter gives the star map under a
    law, from the values u1 and u2. *)
Definition fit_limb_coefficients (law : pyvalue) (u1 u2 : pyvalue)
  : gmap nat tensor :=
  if is_str law "kipping2013" then
    <[2%nat := TMul (TSqrt (TConst u1)) (TSub (tnum 1) (TMul (tnum 2) (TConst u2)))]>
      (<[1%nat := TMul (TMul (tnum 2) (TSqrt (TConst u1))) (TConst u2)]> ∅)
  else if is_str law "linear" then <[1%nat := TConst u1]> ∅
  else if is_str law "quadratic" then <[2%nat := TConst u2]> (<[1%nat := TConst u1]> ∅)
  else ∅.

(** The star the setter builds from the attributes [a] under the law. *)
Definition fit_star_of (a : gmap string pyvalue) (law : pyvalue) : starry.Primary :=
  let get n := default (VNum 0) (a !! n) in
  starry.mkPrimary
    (starry.mkMap 0 (star_udeg a) (tnum 1) None None
       (fit_limb_coefficients law (get "u1") (get "u2")) ∅)
    (TConst (get "Ms")) (TConst (get "Rs")) 1.

Section FitObjects.

Variables (M_jup M_sun : R).

(** The planet the setter builds from the attributes [a]. *)
Definition fit_planet_of (a : gmap string pyvalue) : starry.Secondary :=
  let get n := TConst (default (VNum 0) (a !! n)) in
  starry.set_tref 0
    (starry.set_theta0 180
       (apply_harmonics TConst a (planet_ydeg a)
          (starry.mkSecondary
             (starry.new_Map (planet_ydeg a) 0 (get "fp") (Some 90) (Some 0))
             (TDiv (TMul (get "Mp") (tnum M_jup)) (tnum M_sun))
             (TMul (get "rp") (get "Rs"))
             None (Some (get "per")) (Some (get "per"))
             (get "inc") (get "ecc") (get "w") None None))).

(** The object a complete run of the setter leaves, up to the two
    Deterministic variables of the kipping2013 law. *)
Definition is_fit_model (kw : kwargs) (input_fit_dict : list (string * R))
    (law : pyvalue) (fit : namespace pyvalue) : Prop :=
  (forall n, attrs fit !! n = fit_attribute kw input_fit_dict n) /\
  star fit = Some (fit_star_of (attrs fit) law) /\
  ydeg fit = Some (planet_ydeg (attrs fit)) /\
  planet fit = Some (fit_planet_of (attrs fit)) /\
  sys fit = Some (starry.mkSystem (fit_star_of (attrs fit) law)
                    (fit_planet_of (attrs fit))).

End FitObjects.

(** The random variables a tensor depends on. *)
Fixpoint tensor_vars (t : tensor) : list string :=
  match t with
  | TConst _ => []
  | TVar name _ => [name]
  | TAdd a b | TSub a b | TMul a b | TDiv a b =>
      (tensor_vars a ++ tensor_vars b)%list
  | TNeg a | TExp a | TSqrt a => tensor_vars a
  end.

(** The tensors a map, a body and a system hold. *)
Definition map_tensors (mp : starry.Map) : list tensor :=
  (starry.Map_amp mp :: (map_to_list (starry.Map_u mp)).*2
   ++ (map_to_list (starry.Map_y mp)).*2)%list.

Definition option_tensor (o : option tensor) : list tensor :=
  match o with
  | Some t => [t]
  | None => []
  end.

Definition system_tensors (sy : starry.System) : list tensor :=
  let st := starry.System_primary sy in
  let pl := starry.System_secondary sy in
  (map_tensors (starry.Primary_map st)
   ++ [starry.Primary_m st; starry.Primary_r st]
   ++ map_tensors (starry.Secondary_map pl)
   ++ [starry.Secondary_m pl; starry.Secondary_r pl; starry.Secondary_inc pl;
       starry.Secondary_ecc pl; starry.Secondary_w pl]
   ++ option_tensor (starry.Secondary_a pl)
   ++ option_tensor (starry.Secondary_porb pl)
   ++ option_tensor (starry.Secondary_prot pl))%list.

(** Every variable of [t] satisfies [allowed]. *)
Definition vars_in (allowed : string -> Prop) (t : tensor) : Prop :=
  forall v, v ∈ tensor_vars t -> allowed v.

(** A name that [__init__] samples: listed, with a free or shared row and
    a prior code of the table. *)
Definition sampled_name (kw : kwargs) (v : string) : Prop :=
  v ∈ paramtitles kw /\
  exists p, parameters kw !! v = Some p /\
            (ptype p = "free" \/ ptype p = "shared") /\
            (prior p = "U" \/ prior p = "N" \/ prior p = "LU").

(** The attributes the two builders put into the star and the planet. *)
Definition system_reads : list string :=
  ["Ms"; "Rs"; "u1"; "u2"; "fp"; "Mp"; "rp"; "per"; "inc"; "ecc"; "w";
   "AmpCos1"; "AmpSin1"; "AmpCos2"; "AmpSin2"].

(** An attribute of the model and the attribute of [fit] of the same name
    agree at the point [theta]: both are missing, or the tensor takes the
    value that [fit] holds. *)
Definition agree_at (theta : string -> R) (x : option tensor) (v : option pyvalue)
  : Prop :=
  match x, v with
  | Some x, Some v => teval theta x = teval theta (TConst v)
  | None, None => True
  | _, _ => False
  end.

(** A map, a star and a planet at the point [theta]; of the planet, what
    both builders pass to starry (the semi-major axis is left out). *)
Definition map_at (theta : string -> R) (mp : starry.Map) :=
  (starry.Map_ydeg mp, starry.Map_udeg mp, teval theta (starry.Map_amp mp),
   starry.Map_inc mp, starry.Map_obl mp,
   teval theta <$> starry.Map_u mp, teval theta <$> starry.Map_y mp).

Definition primary_at (theta : string -> R) (st : starry.Primary) :=
  (map_at theta (starry.Primary_map st), teval theta (starry.Primary_m st),
   teval theta (starry.Primary_r st), starry.Primary_prot st).

Definition secondary_at (theta : string -> R) (pl : starry.Secondary) :=
  (map_at theta (starry.Secondary_map pl), teval theta (starry.Secondary_m pl),
   teval theta (starry.Secondary_r pl),
   teval theta <$> starry.Secondary_porb pl,
   teval theta <$> starry.Secondary_prot pl,
   teval theta (starry.Secondary_inc pl), teval theta (starry.Secondary_ecc pl),
   teval theta (starry.Secondary_w pl),
   starry.Secondary_theta0 pl, starry.Secondary_tref pl).

(** The parameter point of a fit of the planet flux. *)
Definition fp_point (n : string) : R :=
  if String.eqb n "fp" then 0.001 else 0.

(* ===================================================================== *)
(** ** The time grid and the lazy path of [StarryModel.physeval] *)
(* ===================================================================== *)

(** The exceptions of the time grid of [physeval(interp=True)]: [time[1]]
    out of range, [int()] of an infinite or an undefined quotient, and a
    negative number of samples. *)
Inductive grid_error : Type :=
| GridIndexError
| GridOverflowError
| GridNotANumber
| GridNegativeSamples.

(** [int(np.round(x))]: the nearest integer, the even one half-way. *)
Definition np_round (x : R) : Z :=
  let lo := (up x - 1)%Z in
  let frac := x - IZR lo in
  if Rlt_dec frac (1 / 2) then lo
  else if Rlt_dec (1 / 2) frac then (lo + 1)%Z
  else if Z.even lo then lo else (lo + 1)%Z.

(** [np.linspace(start, stop, num, endpoint=True)] *)
Definition np_linspace (start stop : R) (num : Z) : grid_error + list R :=
  if (num <? 0)%Z then inl GridNegativeSamples
  else
    let n := Z.to_nat num in
    inr (map (fun i =>
                if (1 <? n)%nat && (i =? n - 1)%nat then stop
                else start + INR i * ((stop - start) / INR (n - 1)))
             (seq 0 n)).

(** Lines 285-290: the times at which [physeval] evaluates the flux, for a
    time axis that is a numpy array (a zero step gives an infinite or an
    undefined quotient, not a [ZeroDivisionError]). *)
Definition physeval_new_time (interp : bool) (time : list R)
  : grid_error + list R :=
  if interp then
    match time !! 1%nat, time !! 0%nat with
    | Some t1, Some t0 =>
        let dt := t1 - t0 in
        let span := List.last time 0 - t0 in
        if Req_dec_T dt 0 then
          if Req_dec_T span 0 then inl GridNotANumber else inl GridOverflowError
        else np_linspace t0 (List.last time 0) (np_round (span / dt + 1))
    | _, _ => inl GridIndexError
    end
  else inr time.

(** [n] times from [t0] on, [dt] apart. *)
Definition even_grid (t0 dt : R) (n : nat) : list R :=
  map (fun i => t0 + INR i * dt) (seq 0 n).

Section LazyFlux.

(** [sys.flux(t)] of starry on a system and an array of symbolic times:
    the tensors of the flux, not yet evaluated. *)
Variable starry_flux_lazy : starry.System -> list tensor -> list tensor.

(** [physeval(eval=False)[0]], line 295, with [interp=False]: the flux of
    the system of the model at [time - self.t0]. *)
Definition physeval_lazy (self : namespace tensor) (time : list R)
  : exn + list tensor :=
  match sys self with
  | None => inl (AttributeError "sys")
  | Some system =>
      match attrs self !! "t0" with
      | None => inl (AttributeError "t0")
      | Some t0 =>
          inr (starry_flux_lazy system (map (fun t => TSub (tnum t) t0) time))
      end
  end.

End LazyFlux.

(** A stand-in for the symbolic flux of starry: the times themselves. *)
Definition symbolic_times (system : starry.System) (t : list tensor)
  : list tensor := t.

(* ===================================================================== *)
(** ** Vocabulary of the evaluation properties *)
(* ===================================================================== *)

(** What the [time] setter stores (lines 450-457): the object it is
    given, a numpy array, or a Python list or tuple, which it does not
    convert. *)
Inductive time_axis : Type :=
| TimeArray (a : list R)
| TimeSequence (l : list R).

(** [syseval(eval=True)] on the stored time axis: after the names are
    decoded, line 231 calls [self.time.mean()], a method that a list and a
    tuple do not have. *)
Definition syseval_stored (nchan : nat) (fit_dict : list (string * R))
    (time : time_axis) : exn + list R :=
  match time with
  | TimeArray a => syseval_eval nchan fit_dict a
  | TimeSequence _ =>
      match run (for_each fit_dict (decode_fit_item nchan)) (zero_tables 0 nchan) with
      | inl e => inl e
      | inr _ => inl (AttributeError "mean")
      end
  end.

(** The ramp of one channel at the time [t] since the first sample. *)
Definition ramp_value (row : list R) (t : R) : R :=
  match row with
  | [r0; r1; r2; r3; r4; r5] => r0 * exp (- r1 * t + r2) + r3 * exp (- r4 * t + r5) + 1
  | _ => 0
  end.

(** The systematics of one channel: its polynomial at the centred times
    times its ramp at the times since the first sample. *)
Definition channel_flux (poly_row ramp_row : list R) (time : list R) : list R :=
  zip_with Rmult
    (map (fun t => np_polyval (np_poly1d poly_row) (t - np_mean time)) time)
    (map (fun t => ramp_value ramp_row (t - List.hd 0 time)) time).

(** [flux[chan*len(time):(chan+1)*len(time)]], the slice [plot] takes with
    [share=True]. *)
Definition share_slice (chan : nat) (time : list R) (flux : list R) : list R :=
  take ((chan + 1) * length time - chan * length time)
       (drop (chan * length time) flux).

(** The polynomial with coefficients [c], lowest degree first, at [x]. *)
Fixpoint power_sum (c : list R) (x : R) : R :=
  match c with
  | [] => 0
  | a :: c' => a + x * power_sum c' x
  end.

(** The columns [poly_coeffs[:, ~np.all(poly_coeffs==0, axis=0)]] keeps. *)
Definition kept_columns (poly : list (list R)) : list bool :=
  map negb (np_all_zero_axis0 10 poly).

(** The columns that are zero in every channel are the last ones: no
    degree below a coefficient that is used is unused in every channel. *)
Definition zero_columns_last (poly : list (list R)) : Prop :=
  exists k, (k <= 10)%nat /\
            kept_columns poly = (replicate k true ++ replicate (10 - k) false)%list.

(** The numbers a table of tensors holds at the parameter point [theta]. *)
Definition table_at (theta : string -> R) (tbl : list (list tensor))
  : option (list (list R)) :=
  mapM (mapM (teval theta)) tbl.

(** The tensor [syseval(eval=False)] builds for the polynomial of a row
    at the centred time [t]: zero plus one term per power. *)
Definition lazy_polynomial (row : list tensor) (t : R) : tensor :=
  fold_left (fun acc power => TAdd acc (TMul (nth power row (tnum 0)) (tnum (t ^ power))))
            (seq 0 (length row)) (tnum 0).

(** The tensor it builds for the ramp of a row at the time [t] since the
    first sample. *)
Definition lazy_ramp (row : list tensor) (t : R) : tensor :=
  match row with
  | [r0; r1; r2; r3; r4; r5] =>
      TAdd (TAdd (TMul r0 (TExp (TAdd (TMul (TNeg r1) (tnum t)) r2)))
                 (TMul r3 (TExp (TAdd (TMul (TNeg r4) (tnum t)) r5))))
           (tnum 1)
  | _ => tnum 0
  end.

(* ===================================================================== *)
(** ** More example inputs *)
(* ===================================================================== *)

(** A phase curve: the transit with first- and second-order amplitudes
    and the linear law. *)
Definition kw_phase_curve : kwargs :=
  kwargs_of 1 (transit_rows ++
               [fixed_param "AmpCos1" 0.4; fixed_param "AmpSin2" 0.1;
                limb_dark_param "linear"]).

(** The transit with the stellar mass listed, but as an independent
    variable. *)
Definition kw_independent_Ms : kwargs :=
  kwargs_of 1 (mkParam "Ms" (VNum 1) "independent" 0 0 "" ::
               List.tail transit_rows ++ [limb_dark_param "quadratic"]).

(** The complete scenario with the planet flux as a free parameter. *)
Definition kw_fitted_fp : kwargs :=
  kwargs_of 1 (scenario_rows ++
               [fixed_param "a" 10; fixed_param "t0" 0;
                sampled_param "fp" 0 "free" 0 1 "U";
                limb_dark_param "quadratic"]).

(** The transit without a planet flux, under the quadratic law. *)
Definition kw_no_fp : kwargs :=
  kwargs_of 1 (transit_rows_no_fp ++ [limb_dark_param "quadratic"]).

(** A table with the constant and the linear coefficient of the trend, a
    model that holds them as uniform variables, and the parameter point of
    a fit that found c0 = 1 and c1 = 2. *)
Definition kw_trend : kwargs :=
  kwargs_of 1 [sampled_param "c0" 1 "free" 0 2 "U";
               sampled_param "c1" 0 "free" (-3) 3 "U"].

Definition trend_model : namespace tensor :=
  mkNamespace {[ "c0" := pm_Uniform "c0" 0 2; "c1" := pm_Uniform "c1" (-3) 3 ]}
              None None None None None None.

Definition trend_point (n : string) : R :=
  if String.eqb n "c0" then 1 else if String.eqb n "c1" then 2 else 0.

(** The complete scenario without a transit time. *)
Definition kw_no_t0 : kwargs :=
  kwargs_of 1 (scenario_rows ++
               [fixed_param "a" 10; fixed_param "fp" 0;
                limb_dark_param "quadratic"]).

(* ===================================================================== *)
(** ** Reasoning about computations *)
(* ===================================================================== *)

Lemma bind_inr {S A B} (m : PyM S A) (k : A -> PyM S B) s s' b :
  bind m k s = (s', inr b) ->
  exists s1 a, m s = (s1, inr a) /\ k a s1 = (s', inr b).
Proof.
  unfold bind. destruct (m s) as [s1 [e|a]]; [discriminate|]. eauto.
Qed.

Lemma bind_inl {S A B} (m : PyM S A) (k : A -> PyM S B) s s' e :
  bind m k s = (s', inl e) ->
  m s = (s', inl e) \/ exists s1 a, m s = (s1, inr a) /\ k a s1 = (s', inl e).
Proof.
  unfold bind. destruct (m s) as [s1 [e1|a]]; intros H.
  - left. injection H as -> ->. reflexivity.
  - right. eauto.
Qed.

Lemma bind_ok {S A B} (m : PyM S A) (k : A -> PyM S B) s s1 a :
  m s = (s1, inr a) -> bind m k s = k a s1.
Proof. unfold bind. intros ->. reflexivity. Qed.

Lemma bind_raise {S A B} (m : PyM S A) (k : A -> PyM S B) s s1 e :
  m s = (s1, inl e) -> bind m k s = (s1, inl e).
Proof. unfold bind. intros ->. reflexivity. Qed.

Lemma raises_only_bind {S A B} P (m : PyM S A) (k : A -> PyM S B) :
  raises_only P m -> (forall a, raises_only P (k a)) -> raises_only P (bind m k).
Proof.
  intros Hm Hk s s' e H. apply bind_inl in H as [H|(s1 & a & _ & H)].
  - exact (Hm _ _ _ H).
  - exact (Hk _ _ _ _ H).
Qed.

Lemma raises_only_ret {S A} P (a : A) : raises_only (S := S) P (ret a).
Proof. intros s s' e H. discriminate. Qed.

Lemma raises_only_raise {S A} (P : exn -> Prop) e :
  P e -> raises_only (S := S) (A := A) P (raise e).
Proof. intros HP s s' e' H. injection H as _ <-. exact HP. Qed.

Lemma raises_only_gets {S A} P (f : S -> A) : raises_only P (gets f).
Proof. intros s s' e H. discriminate. Qed.

Lemma raises_only_modify {S} P (f : S -> S) : raises_only P (modify f).
Proof. intros s s' e H. discriminate. Qed.

Lemma raises_only_for_each {S A} P (l : list A) (body : A -> PyM S unit) :
  (forall x, raises_only P (body x)) -> raises_only P (for_each l body).
Proof.
  intros Hb. induction l as [|x l IH]; simpl.
  - apply raises_only_ret.
  - apply raises_only_bind; auto.
Qed.

Lemma preserves_bind {S A B X} (f : S -> X) (m : PyM S A) (k : A -> PyM S B) :
  preserves f m -> (forall a, preserves f (k a)) -> preserves f (bind m k).
Proof.
  intros Hm Hk s s' r H. unfold bind in H.
  destruct (m s) as [s1 [e|a]] eqn:E.
  - injection H as <- _. exact (Hm _ _ _ E).
  - rewrite (Hk _ _ _ _ H). exact (Hm _ _ _ E).
Qed.

Lemma preserves_ret {S A X} (f : S -> X) (a : A) : preserves f (ret a).
Proof. intros s s' r H. injection H as <- _. reflexivity. Qed.

Lemma preserves_raise {S A X} (f : S -> X) e : preserves f (raise (A := A) e).
Proof. intros s s' r H. injection H as <- _. reflexivity. Qed.

Lemma preserves_gets {S A X} (f : S -> X) (g : S -> A) : preserves f (gets g).
Proof. intros s s' r H. injection H as <- _. reflexivity. Qed.

Lemma preserves_for_each {S A X} (f : S -> X) (l : list A) (body : A -> PyM S unit) :
  (forall x, preserves f (body x)) -> preserves f (for_each l body).
Proof.
  intros Hb. induction l as [|x l IH]; simpl.
  - apply preserves_ret.
  - apply preserves_bind; auto.
Qed.

Lemma for_each_app {S A} (l1 l2 : list A) (body : A -> PyM S unit) s :
  for_each (l1 ++ l2)%list body s =
  bind (for_each l1 body) (fun _ => for_each l2 body) s.
Proof.
  revert s. induction l1 as [|x l1 IH]; intros s; simpl.
  - reflexivity.
  - unfold bind. destruct (body x s) as [s1 [e|[]]]; [reflexivity|].
    rewrite IH. reflexivity.
Qed.

Lemma preserves_modify {S X} (f : S -> X) (g : S -> S) :
  (forall s, f (g s) = f s) -> preserves f (modify g).
Proof. intros Hg s s' r H. injection H as <- _. apply Hg. Qed.

Lemma preserves_getattr {V X} (f : namespace V -> X) attr : preserves f (getattr attr).
Proof.
  intros s s' r H. unfold getattr in H.
  destruct (attrs s !! attr); injection H as <- _; reflexivity.
Qed.

Lemma preserves_get_parameter {S X} (f : S -> X) kw parname :
  preserves f (get_parameter kw parname).
Proof.
  intros s s' r H. unfold get_parameter in H.
  destruct (parameters kw !! parname); injection H as <- _; reflexivity.
Qed.

Lemma preserves_get_field {V A X} (f : namespace V -> X)
    (field : namespace V -> option A) fname :
  preserves f (get_field field fname).
Proof.
  intros s s' r H. unfold get_field in H.
  destruct (field s); injection H as <- _; reflexivity.
Qed.

(* ===================================================================== *)
(** ** Required parameters *)
(* ===================================================================== *)

Lemma mask_select_negb {A} (f : A -> bool) (l : list A) :
  mask_select l (map (fun x => negb (f x)) l) = List.filter (fun x => negb (f x)) l.
Proof.
  induction l as [|x l IH]; simpl; [reflexivity|].
  destruct (f x); simpl; rewrite IH; reflexivity.
Qed.

Lemma np_any_map {A} (g : A -> bool) (l : list A) :
  np_any (map g l) = true <-> exists x, In x l /\ g x = true.
Proof.
  unfold np_any. rewrite existsb_exists. split.
  - intros (b & Hb & ->). apply in_map_iff in Hb as (x & Hx & Hin). eauto.
  - intros (x & Hin & Hx). exists true. split; [|reflexivity].
    apply in_map_iff. eauto.
Qed.

Lemma contains_false l name : Py.contains l name = false <-> name ∉ l.
Proof. unfold Py.contains. apply bool_decide_eq_false. Qed.

Lemma check_required_present {S} (kw : kwargs) (s : S) :
  (forall name, name ∈ required -> name ∈ paramtitles kw) ->
  check_required kw s = (s, inr tt).
Proof.
  intros Hall. unfold check_required.
  destruct (np_any _) eqn:E; [|reflexivity].
  apply np_any_map in E as (x & Hin & Hx).
  apply negb_true_iff, contains_false in Hx.
  exfalso. apply Hx, Hall, list_elem_of_In, Hin.
Qed.

Lemma check_required_missing {S} (kw : kwargs) (s : S) :
  (exists name, name ∈ required /\ name ∉ paramtitles kw) ->
  check_required kw s =
    (s, inl (AssertionError
               (List.filter (fun name => negb (Py.contains (paramtitles kw) name))
                            required))).
Proof.
  intros (name & Hreq & Hmiss). unfold check_required.
  rewrite mask_select_negb.
  destruct (np_any _) eqn:E; [reflexivity|].
  assert (np_any (map (fun name => negb (Py.contains (paramtitles kw) name)) required)
          = true) as E'.
  { apply np_any_map. exists name. split; [apply list_elem_of_In, Hreq|].
    apply negb_true_iff, contains_false, Hmiss. }
  congruence.
Qed.

Lemma raises_only_check_required {S} (kw : kwargs) :
  raises_only (S := S) (fun e => exists missing, e = AssertionError missing)
              (check_required kw).
Proof.
  intros s s' e H. unfold check_required in H.
  destruct (np_any _); [|discriminate]. injection H as _ <-. eauto.
Qed.

Lemma preserves_check_required {S X} (f : S -> X) (kw : kwargs) :
  preserves f (check_required kw).
Proof.
  unfold check_required. destruct (np_any _);
    [apply preserves_raise | apply preserves_ret].
Qed.

(* ===================================================================== *)
(** ** The loop over [paramtitles] *)
(* ===================================================================== *)

Lemma preserves_setattr {V X} (f : namespace V -> X) attr (v : V) :
  attr_free f -> preserves f (setattr attr v).
Proof.
  intros Hf. apply preserves_modify. intros [a st u1 u2 yd pl sy]. simpl.
  rewrite Hf. symmetry. apply Hf.
Qed.

Lemma recognized_ptypes_iff p :
  p ∈ recognized_ptypes <->
  p = "independent" \/ p = "fixed" \/ p = "free" \/ p = "shared".
Proof. unfold recognized_ptypes. rewrite !elem_of_cons, elem_of_nil. tauto. Qed.

Lemma attr_free_star {V} : attr_free (@star V).
Proof. intros a st u1 u2 yd pl sy. reflexivity. Qed.

Lemma attr_free_planet {V} : attr_free (@planet V).
Proof. intros a st u1 u2 yd pl sy. reflexivity. Qed.

Lemma attr_free_sys {V} : attr_free (@sys V).
Proof. intros a st u1 u2 yd pl sy. reflexivity. Qed.

Lemma preserves_shape_of {S X} (f : S -> X) kw param : preserves f (shape_of kw param).
Proof.
  unfold shape_of.
  repeat match goal with |- context [if ?b then _ else _] => destruct b end;
    first [apply preserves_ret | apply preserves_raise].
Qed.

Lemma preserves_set_prior {X} (f : namespace tensor -> X) parname param :
  attr_free f -> preserves f (set_prior parname param).
Proof.
  intros Hf. unfold set_prior.
  repeat match goal with |- context [if ?b then _ else _] => destruct b end;
    first [apply preserves_ret | apply preserves_setattr, Hf].
Qed.

Lemma preserves_init_parameter {X} (f : namespace tensor -> X) kw parname :
  attr_free f -> preserves f (init_parameter kw parname).
Proof.
  intros Hf. unfold init_parameter.
  apply preserves_bind; [apply preserves_get_parameter|]. intros param.
  destruct (String.eqb _ _); [apply preserves_ret|].
  destruct (String.eqb _ _); [apply preserves_setattr, Hf|].
  apply preserves_bind; [apply preserves_shape_of|]. intros _.
  apply preserves_set_prior, Hf.
Qed.

Lemma init_parameter_unrecognized kw parname param s :
  parameters kw !! parname = Some param ->
  ptype param ∉ recognized_ptypes ->
  init_parameter kw parname s
  = (s, inl (ValueError (PtypeNotRecognized (ptype param) (name param)))).
Proof.
  intros Hp Hbad. rewrite recognized_ptypes_iff in Hbad.
  unfold init_parameter, bind, get_parameter. rewrite Hp.
  destruct (String.eqb_spec (ptype param) "independent") as [E|_]; [tauto|].
  destruct (String.eqb_spec (ptype param) "fixed") as [E|_]; [tauto|].
  unfold shape_of.
  destruct (String.eqb_spec (ptype param) "free") as [E|_]; [tauto|].
  destruct (String.eqb_spec (ptype param) "shared") as [E|_]; [tauto|].
  reflexivity.
Qed.

Lemma set_prior_returns parname param s :
  exists s', set_prior parname param s = (s', inr tt).
Proof.
  unfold set_prior.
  repeat match goal with |- context [if ?b then _ else _] => destruct b end;
    eauto.
Qed.

Lemma init_parameter_recognized kw parname param s :
  parameters kw !! parname = Some param ->
  ptype param ∈ recognized_ptypes ->
  exists s', init_parameter kw parname s = (s', inr tt).
Proof.
  intros Hp Hok. rewrite recognized_ptypes_iff in Hok.
  unfold init_parameter, bind, get_parameter. rewrite Hp.
  destruct (String.eqb_spec (ptype param) "independent") as [E|N1]; [eauto|].
  destruct (String.eqb_spec (ptype param) "fixed") as [E|N2]; [eauto|].
  unfold shape_of.
  destruct (String.eqb_spec (ptype param) "free") as [E|N3].
  - destruct (Nat.eqb _ _); apply set_prior_returns.
  - destruct (String.eqb_spec (ptype param) "shared") as [E|N4]; [|tauto].
    apply set_prior_returns.
Qed.

(** The loop stops at a parameter of unrecognized [ptype], if not before. *)
Lemma loop_raises_on_unrecognized_ptype kw parname param l s :
  parname ∈ l ->
  parameters kw !! parname = Some param ->
  ptype param ∉ recognized_ptypes ->
  exists s' e, for_each l (init_parameter kw) s = (s', inl e).
Proof.
  intros Hin Hp Hbad. revert s. induction l as [|x l IH]; intros s.
  - inversion Hin.
  - simpl. destruct (init_parameter kw x s) as [s1 [e|[]]] eqn:E.
    + exists s1, e. apply bind_raise, E.
    + erewrite bind_ok by exact E.
      apply elem_of_cons in Hin as [->|Hin].
      * rewrite (init_parameter_unrecognized _ _ _ _ Hp Hbad) in E. discriminate.
      * apply IH, Hin.
Qed.

(** The loop runs through parameters of recognized [ptype]. *)
Lemma loop_runs_on_recognized_ptypes kw l s :
  (forall n, n ∈ l -> exists p, parameters kw !! n = Some p /\
                                ptype p ∈ recognized_ptypes) ->
  exists s', for_each l (init_parameter kw) s = (s', inr tt).
Proof.
  revert s. induction l as [|x l IH]; intros s Hall; simpl.
  - eauto.
  - destruct (Hall x) as (p & Hp & Hok); [left|].
    destruct (init_parameter_recognized kw x p s Hp Hok) as (s1 & E).
    erewrite bind_ok by exact E. apply IH.
    intros n Hn. apply Hall. right. exact Hn.
Qed.

(* ===================================================================== *)
(** ** Configuration errors of [__init__] *)
(* ===================================================================== *)

Section ConfigurationErrors.

Variables (M_jup M_sun : R).

(** C2. When one of the required names Ms, Mp, Rs is not among the
    parameter names, [__init__] raises the [AssertionError] that lists
    exactly the missing required names; at that point the object has no
    attribute, no star, no planet and no system, and the caller of the
    constructor receives the exception and no object. *)
Theorem missing_required_raises (kw : kwargs) :
  (exists name, name ∈ required /\ name ∉ paramtitles kw) ->
  exists missing self,
    StarryModel_init M_jup M_sun kw empty_namespace
      = (self, inl (AssertionError missing)) /\
    StarryModel M_jup M_sun kw = inl (AssertionError missing) /\
    missing <> [] /\
    (forall name, name ∈ missing <-> name ∈ required /\ name ∉ paramtitles kw) /\
    attrs self = ∅ /\ star self = None /\ planet self = None /\ sys self = None.
Proof.
  intros Hmiss.
  pose proof (check_required_missing kw (@empty_namespace tensor) Hmiss) as Hc.
  set (missing := List.filter _ required) in Hc.
  assert (forall name, name ∈ missing <-> name ∈ required /\ name ∉ paramtitles kw)
    as Hchar.
  { intros name. unfold missing. rewrite list_elem_of_In, filter_In.
    rewrite negb_true_iff, contains_false, <- list_elem_of_In. reflexivity. }
  assert (StarryModel_init M_jup M_sun kw empty_namespace
          = (empty_namespace, inl (AssertionError missing))) as Hinit.
  { unfold StarryModel_init. apply bind_raise, Hc. }
  exists missing, empty_namespace.
  split; [exact Hinit|].
  split; [unfold StarryModel; rewrite Hinit; reflexivity|].
  split.
  { destruct Hmiss as (name & Hname). apply Hchar in Hname.
    intros E. rewrite E in Hname. inversion Hname. }
  split; [exact Hchar|].
  repeat split.
Qed.

(** C10. A parameter of [paramtitles] whose [ptype] is none of independent,
    fixed, free, shared stops [__init__] with an exception while the object
    still has no star, planet or system; when the required names are present
    and every earlier entry of [paramtitles] is a parameter of recognized
    [ptype], that exception is the [ValueError] naming the [ptype] and the
    parameter. *)
Theorem unrecognized_ptype_raises (kw : kwargs) (parname : string) (param : Param) :
  parname ∈ paramtitles kw ->
  parameters kw !! parname = Some param ->
  ptype param ∉ recognized_ptypes ->
  exists self e,
    StarryModel_init M_jup M_sun kw empty_namespace = (self, inl e) /\
    StarryModel M_jup M_sun kw = inl e /\
    star self = None /\ planet self = None /\ sys self = None /\
    (forall pre post,
        paramtitles kw = (pre ++ parname :: post)%list ->
        (forall n, n ∈ required -> n ∈ paramtitles kw) ->
        (forall n, n ∈ pre -> exists p, parameters kw !! n = Some p /\
                                        ptype p ∈ recognized_ptypes) ->
        e = ValueError (PtypeNotRecognized (ptype param) (name param))).
Proof.
  intros Hin Hp Hbad.
  assert (exists self e,
             (check_required kw ;;;
              for_each (paramtitles kw) (init_parameter kw))%py empty_namespace
             = (self, inl e) /\
             star self = None /\ planet self = None /\ sys self = None /\
             (forall pre post,
                 paramtitles kw = (pre ++ parname :: post)%list ->
                 (forall n, n ∈ required -> n ∈ paramtitles kw) ->
                 (forall n, n ∈ pre -> exists p, parameters kw !! n = Some p /\
                                                 ptype p ∈ recognized_ptypes) ->
                 e = ValueError (PtypeNotRecognized (ptype param) (name param))))
    as (self & e & Hrun & Hstar & Hplanet & Hsys & Hexn).
  { destruct (check_required kw (@empty_namespace tensor)) as [s0 [e0|[]]] eqn:Ec.
    - exists s0, e0.
      pose proof (preserves_check_required star kw _ _ _ Ec) as H1.
      pose proof (preserves_check_required planet kw _ _ _ Ec) as H2.
      pose proof (preserves_check_required sys kw _ _ _ Ec) as H3.
      split; [apply bind_raise, Ec|].
      do 3 (split; [assumption|]).
      intros pre post _ Hreq _.
        rewrite (check_required_present kw _ Hreq) in Ec. discriminate.
    - destruct (loop_raises_on_unrecognized_ptype kw parname param
                  (paramtitles kw) s0 Hin Hp Hbad) as (s1 & e1 & El).
      exists s1, e1.
      pose proof (preserves_check_required star kw _ _ _ Ec) as H1.
      pose proof (preserves_check_required planet kw _ _ _ Ec) as H2.
      pose proof (preserves_check_required sys kw _ _ _ Ec) as H3.
      pose proof (preserves_for_each star _ _
                    (fun x => preserves_init_parameter star kw x attr_free_star)
                    _ _ _ El) as L1.
      pose proof (preserves_for_each planet _ _
                    (fun x => preserves_init_parameter planet kw x attr_free_planet)
                    _ _ _ El) as L2.
      pose proof (preserves_for_each sys _ _
                    (fun x => preserves_init_parameter sys kw x attr_free_sys)
                    _ _ _ El) as L3.
      split; [erewrite bind_ok by exact Ec; exact El|].
      simpl in H1, H2, H3. do 3 (split; [congruence|]).
      intros pre post Hsplit _ Hpre.
      rewrite Hsplit, for_each_app in El.
      destruct (loop_runs_on_recognized_ptypes kw pre s0 Hpre) as (s2 & E2).
      erewrite bind_ok in El by exact E2. simpl in El.
      erewrite bind_raise in El
        by (apply init_parameter_unrecognized; eassumption).
      congruence. }
  exists self, e.
  assert (StarryModel_init M_jup M_sun kw empty_namespace = (self, inl e)) as Hinit.
  { unfold StarryModel_init. unfold bind in Hrun |- *.
    destruct (check_required kw empty_namespace) as [s0 [e0|[]]]; [exact Hrun|].
    rewrite Hrun. reflexivity. }
  split; [exact Hinit|].
  split; [unfold StarryModel; rewrite Hinit; reflexivity|].
  do 3 (split; [assumption|]). exact Hexn.
Qed.

End ConfigurationErrors.

(** C2 at a table that lacks [Ms]. *)
Lemma missing_required_raises_witness :
  exists missing self,
    StarryModel_init 1 1047 kw_missing_Ms empty_namespace
      = (self, inl (AssertionError missing)) /\
    StarryModel 1 1047 kw_missing_Ms = inl (AssertionError missing) /\
    missing <> [] /\
    (forall name, name ∈ missing <->
                  name ∈ required /\ name ∉ paramtitles kw_missing_Ms) /\
    attrs self = ∅ /\ star self = None /\ planet self = None /\ sys self = None.
Proof.
  apply (missing_required_raises 1 1047 kw_missing_Ms).
  exists "Ms". split.
  - left.
  - apply (bool_decide_eq_false_1 _). vm_compute. reflexivity.
Defined.

(** C10 at a table whose parameter [rprs] has the [ptype] "fitted". *)
Lemma unrecognized_ptype_raises_witness :
  StarryModel 1 1047 kw_bad_ptype
  = inl (ValueError (PtypeNotRecognized "fitted" "rprs")).
Proof.
  destruct (unrecognized_ptype_raises 1 1047 kw_bad_ptype "rprs"
              (sampled_param "rprs" 1 "fitted" 0 1 "U"))
    as (self & e & _ & Hcall & _ & _ & _ & Hexn).
  - apply (bool_decide_eq_true_1 _). vm_compute. reflexivity.
  - vm_compute. reflexivity.
  - apply (bool_decide_eq_false_1 _). vm_compute. reflexivity.
  - rewrite Hcall. f_equal.
    apply (Hexn (map name transit_rows) [ "limb_dark" ]).
    + reflexivity.
    + intros n Hn. apply (bool_decide_eq_true_1 _).
      revert n Hn. apply Forall_forall. vm_compute.
      repeat constructor.
    + apply Forall_forall. cbv [map transit_rows name fixed_param].
      repeat (constructor;
              [eexists; split;
               [reflexivity | apply recognized_ptypes_iff; simpl; tauto]|]).
      constructor.
Defined.

(* ===================================================================== *)
(** ** The limb-darkening law *)
(* ===================================================================== *)

Lemma raises_only_getattr {V} (P : exn -> Prop) attr :
  P (AttributeError attr) -> raises_only P (getattr (V := V) attr).
Proof.
  intros HP s s' e H. unfold getattr in H.
  destruct (attrs s !! attr); [discriminate|]. injection H as _ <-. exact HP.
Qed.

Lemma raises_only_get_field {V A} (P : exn -> Prop)
    (field : namespace V -> option A) fname :
  P (AttributeError fname) -> raises_only P (get_field field fname).
Proof.
  intros HP s s' e H. unfold get_field in H.
  destruct (field s); [discriminate|]. injection H as _ <-. exact HP.
Qed.

Lemma raises_only_get_parameter {S} (P : exn -> Prop) kw parname :
  P (AttributeError parname) -> raises_only (S := S) P (get_parameter kw parname).
Proof.
  intros HP s s' e H. unfold get_parameter in H.
  destruct (parameters kw !! parname); [discriminate|]. injection H as _ <-.
  exact HP.
Qed.

(** Decompose a computation into its primitive steps. *)
Ltac raises_only_steps :=
  repeat first
    [ apply raises_only_ret
    | apply raises_only_gets
    | apply raises_only_modify
    | apply raises_only_getattr
    | apply raises_only_get_field
    | apply raises_only_get_parameter
    | apply raises_only_raise
    | apply raises_only_bind; [|intros ?]
    | apply raises_only_for_each; intros ?
    | match goal with
      | |- raises_only _ (if ?b then _ else _) => destruct b
      end ].

Ltac unfold_stages :=
  unfold init_parameter, shape_of, set_prior, init_star, init_planet,
    init_planet_map, planet_map_from_attr, init_ydeg, init_sys,
    fit_set_fitted, fit_parameter, fit_star, fit_planet,
    star_map_setitem, update_planet, hasattr, setattr, set_star,
    set_u1_quadratic, set_u2_quadratic, set_ydeg, set_planet, set_sys.

Lemma is_str_true v s : is_str v s = true <-> v = VStr s.
Proof.
  destruct v as [x|s']; simpl.
  - split; discriminate.
  - rewrite String.eqb_eq. split; congruence.
Qed.

Lemma recognized_laws_iff v :
  v ∈ recognized_laws <->
  v = VStr "uniform" \/ v = VStr "linear" \/ v = VStr "quadratic" \/
  v = VStr "kipping2013".
Proof. unfold recognized_laws. rewrite !elem_of_cons, elem_of_nil. tauto. Qed.

Lemma is_str_unrecognized v s :
  v ∉ recognized_laws -> VStr s ∈ recognized_laws -> is_str v s = false.
Proof.
  intros Hv Hs. destruct (is_str v s) eqn:E; [|reflexivity].
  apply is_str_true in E. subst v. contradiction.
Qed.

Lemma init_limb_dark_unrecognized kw limb_dark s :
  parameters kw !! "limb_dark" = Some limb_dark ->
  value limb_dark ∉ recognized_laws ->
  init_limb_dark kw s = (s, inl (ValueError (LimbDarkNotHandled (value limb_dark)))).
Proof.
  intros Hp Hbad. unfold init_limb_dark, bind, get_parameter. rewrite Hp.
  rewrite !(is_str_unrecognized _ _ Hbad)
    by (apply recognized_laws_iff; tauto).
  reflexivity.
Qed.

Lemma fit_limb_dark_unrecognized kw limb_dark s :
  parameters kw !! "limb_dark" = Some limb_dark ->
  value limb_dark ∉ recognized_laws ->
  fit_limb_dark kw s = (s, inl (ValueError (LimbDarkNotHandled (value limb_dark)))).
Proof.
  intros Hp Hbad. unfold fit_limb_dark, bind, get_parameter. rewrite Hp.
  rewrite !(is_str_unrecognized _ _ Hbad)
    by (apply recognized_laws_iff; tauto).
  reflexivity.
Qed.

Lemma not_limb_dark_attribute attr : not_limb_dark_error (AttributeError attr).
Proof. intros law. discriminate. Qed.

Lemma not_limb_dark_ptype pt n :
  not_limb_dark_error (ValueError (PtypeNotRecognized pt n)).
Proof. intros law. discriminate. Qed.

Lemma init_limb_dark_recognized kw limb_dark :
  parameters kw !! "limb_dark" = Some limb_dark ->
  value limb_dark ∈ recognized_laws ->
  raises_only not_limb_dark_error (init_limb_dark kw).
Proof.
  intros Hp Hok s s' e H. unfold init_limb_dark in H.
  unfold bind at 1 in H. unfold get_parameter in H. rewrite Hp in H.
  destruct (is_str _ "kipping2013") eqn:E1;
    [|destruct (is_str _ "quadratic") eqn:E2;
      [|destruct (is_str _ "linear") eqn:E3;
        [|destruct (is_str _ "uniform") eqn:E4]]].
  1-3: revert s s' e H; unfold_stages; raises_only_steps;
       apply not_limb_dark_attribute.
  - discriminate.
  - apply recognized_laws_iff in Hok.
    rewrite <- !is_str_true in Hok. rewrite E1, E2, E3, E4 in Hok.
    intuition discriminate.
Qed.

Lemma fit_limb_dark_recognized kw limb_dark :
  parameters kw !! "limb_dark" = Some limb_dark ->
  value limb_dark ∈ recognized_laws ->
  raises_only not_limb_dark_error (fit_limb_dark kw).
Proof.
  intros Hp Hok s s' e H. unfold fit_limb_dark in H.
  unfold bind at 1 in H. unfold get_parameter in H. rewrite Hp in H.
  destruct (is_str _ "kipping2013") eqn:E1;
    [|destruct (is_str _ "linear") eqn:E2;
      [|destruct (is_str _ "quadratic") eqn:E3;
        [|destruct (is_str _ "uniform") eqn:E4]]].
  1-3: revert s s' e H; unfold_stages; raises_only_steps;
       apply not_limb_dark_attribute.
  - discriminate.
  - apply recognized_laws_iff in Hok.
    rewrite <- !is_str_true in Hok. rewrite E1, E2, E3, E4 in Hok.
    intuition discriminate.
Qed.

Section LimbDarkening.

Variables (M_jup M_sun : R).

Lemma StarryModel_inr kw self :
  StarryModel M_jup M_sun kw = inr self <->
  StarryModel_init M_jup M_sun kw empty_namespace = (self, inr tt).
Proof.
  unfold StarryModel.
  destruct (StarryModel_init _ _ _ _) as [s [e|[]]]; split; congruence.
Qed.

Lemma StarryModel_inl kw e :
  StarryModel M_jup M_sun kw = inl e <->
  exists self, StarryModel_init M_jup M_sun kw empty_namespace = (self, inl e).
Proof.
  unfold StarryModel.
  destruct (StarryModel_init _ _ _ _) as [s [e'|[]]]; split.
  - intros [= ->]. eauto.
  - intros (self & [= _ ->]). reflexivity.
  - discriminate.
  - intros (self & [=]).
Qed.

Lemma fit_dict_setter_inr kw fit_dict fit :
  fit_dict_setter M_jup M_sun kw fit_dict = inr fit <->
  fit_dict_build M_jup M_sun kw fit_dict empty_namespace = (fit, inr tt).
Proof.
  unfold fit_dict_setter.
  destruct (fit_dict_build _ _ _ _ _) as [s [e|[]]]; split; congruence.
Qed.

Lemma fit_dict_setter_inl kw fit_dict e :
  fit_dict_setter M_jup M_sun kw fit_dict = inl e <->
  exists fit, fit_dict_build M_jup M_sun kw fit_dict empty_namespace = (fit, inl e).
Proof.
  unfold fit_dict_setter.
  destruct (fit_dict_build _ _ _ _ _) as [s [e'|[]]]; split.
  - intros [= ->]. eauto.
  - intros (self & [= _ ->]). reflexivity.
  - discriminate.
  - intros (self & [=]).
Qed.

Lemma StarryModel_init_recognized kw limb_dark :
  parameters kw !! "limb_dark" = Some limb_dark ->
  value limb_dark ∈ recognized_laws ->
  raises_only not_limb_dark_error (StarryModel_init M_jup M_sun kw).
Proof.
  intros Hp Hok. unfold StarryModel_init.
  apply raises_only_bind; [|intros _].
  { intros s s' e H. apply raises_only_check_required in H as (missing & ->).
    intros law. discriminate. }
  apply raises_only_bind; [|intros _].
  { unfold_stages. raises_only_steps;
      first [apply not_limb_dark_attribute | apply not_limb_dark_ptype]. }
  apply raises_only_bind; [|intros _].
  { unfold_stages. raises_only_steps; apply not_limb_dark_attribute. }
  apply raises_only_bind; [|intros _].
  { eapply init_limb_dark_recognized; eassumption. }
  unfold_stages. raises_only_steps; apply not_limb_dark_attribute.
Qed.

Lemma fit_dict_build_recognized kw fit_dict limb_dark :
  parameters kw !! "limb_dark" = Some limb_dark ->
  value limb_dark ∈ recognized_laws ->
  raises_only not_limb_dark_error (fit_dict_build M_jup M_sun kw fit_dict).
Proof.
  intros Hp Hok. unfold fit_dict_build.
  apply raises_only_bind; [|intros _].
  { unfold_stages. raises_only_steps. }
  apply raises_only_bind; [|intros _].
  { unfold_stages. raises_only_steps; apply not_limb_dark_attribute. }
  apply raises_only_bind; [|intros _].
  { unfold_stages. raises_only_steps; apply not_limb_dark_attribute. }
  apply raises_only_bind; [|intros _].
  { eapply fit_limb_dark_recognized; eassumption. }
  unfold_stages. raises_only_steps; apply not_limb_dark_attribute.
Qed.

(** C9. With a law selector that is none of uniform, linear, quadratic,
    kipping2013, neither [__init__] nor the [fit_dict] setter ever returns a
    model, and as soon as the stages before the law (required names,
    parameter loop, star) have run, the exception is the [ValueError] that
    carries the selector; with one of the four laws that [ValueError] is
    never raised. *)
Theorem limb_dark_law_checked (kw : kwargs) (limb_dark : Param) :
  parameters kw !! "limb_dark" = Some limb_dark ->
  (value limb_dark ∉ recognized_laws ->
   (forall self, StarryModel M_jup M_sun kw <> inr self) /\
   (forall fit_dict fit, fit_dict_setter M_jup M_sun kw fit_dict <> inr fit) /\
   (forall s1 s2,
       (forall n, n ∈ required -> n ∈ paramtitles kw) ->
       for_each (paramtitles kw) (init_parameter kw) empty_namespace = (s1, inr tt) ->
       init_star s1 = (s2, inr tt) ->
       StarryModel M_jup M_sun kw
       = inl (ValueError (LimbDarkNotHandled (value limb_dark)))) /\
   (forall fit_dict s1 s2 s3,
       fit_set_fitted fit_dict empty_namespace = (s1, inr tt) ->
       for_each (paramtitles kw) (fit_parameter kw) s1 = (s2, inr tt) ->
       fit_star s2 = (s3, inr tt) ->
       fit_dict_setter M_jup M_sun kw fit_dict
       = inl (ValueError (LimbDarkNotHandled (value limb_dark))))) /\
  (value limb_dark ∈ recognized_laws ->
   forall law,
     StarryModel M_jup M_sun kw <> inl (ValueError (LimbDarkNotHandled law)) /\
     forall fit_dict,
       fit_dict_setter M_jup M_sun kw fit_dict
       <> inl (ValueError (LimbDarkNotHandled law))).
Proof.
  intros Hp. split.
  - intros Hbad. repeat split.
    + intros self H. apply StarryModel_inr in H. unfold StarryModel_init in H.
      apply bind_inr in H as (s0 & [] & _ & H).
      apply bind_inr in H as (s1 & [] & _ & H).
      apply bind_inr in H as (s2 & [] & _ & H).
      apply bind_inr in H as (s3 & [] & H & _).
      rewrite (init_limb_dark_unrecognized _ _ _ Hp Hbad) in H. discriminate.
    + intros fit_dict fit H. apply fit_dict_setter_inr in H.
      unfold fit_dict_build in H.
      apply bind_inr in H as (s0 & [] & _ & H).
      apply bind_inr in H as (s1 & [] & _ & H).
      apply bind_inr in H as (s2 & [] & _ & H).
      apply bind_inr in H as (s3 & [] & H & _).
      rewrite (fit_limb_dark_unrecognized _ _ _ Hp Hbad) in H. discriminate.
    + intros s1 s2 Hreq Hloop Hstar. apply StarryModel_inl. exists s2.
      unfold StarryModel_init.
      erewrite bind_ok by (apply check_required_present, Hreq).
      erewrite bind_ok by exact Hloop.
      erewrite bind_ok by exact Hstar.
      apply bind_raise, init_limb_dark_unrecognized; assumption.
    + intros fit_dict s1 s2 s3 Hfit Hloop Hstar. apply fit_dict_setter_inl.
      exists s3. unfold fit_dict_build.
      erewrite bind_ok by exact Hfit.
      erewrite bind_ok by exact Hloop.
      erewrite bind_ok by exact Hstar.
      apply bind_raise, fit_limb_dark_unrecognized; assumption.
  - intros Hok law. split.
    + intros H. apply StarryModel_inl in H as (self & H).
      apply (StarryModel_init_recognized kw limb_dark Hp Hok) in H.
      exact (H law eq_refl).
    + intros fit_dict H. apply fit_dict_setter_inl in H as (fit & H).
      apply (fit_dict_build_recognized kw fit_dict limb_dark Hp Hok) in H.
      exact (H law eq_refl).
Qed.

End LimbDarkening.

(** C9 at the transit table with the law "nonlinear": both builders raise
    the [ValueError] about the law. *)
Lemma limb_dark_law_checked_witness :
  StarryModel 1 1047 kw_bad_law
  = inl (ValueError (LimbDarkNotHandled (VStr "nonlinear"))) /\
  fit_dict_setter 1 1047 kw_bad_law []
  = inl (ValueError (LimbDarkNotHandled (VStr "nonlinear"))).
Proof.
  destruct (limb_dark_law_checked 1 1047 kw_bad_law (limb_dark_param "nonlinear"))
    as [Hbad _]; [reflexivity|].
  destruct Hbad as (_ & _ & Hinit & Hfit).
  { rewrite recognized_laws_iff. simpl. intuition discriminate. }
  split.
  - eapply Hinit.
    + intros n Hn. apply (bool_decide_eq_true_1 _).
      revert n Hn. apply Forall_forall. repeat constructor.
    + vm_compute. reflexivity.
    + vm_compute. reflexivity.
  - eapply Hfit.
    + vm_compute. reflexivity.
    + vm_compute. reflexivity.
    + vm_compute. reflexivity.
Defined.

(* ===================================================================== *)
(** ** Priors *)
(* ===================================================================== *)

Ltac preserves_steps :=
  repeat first
    [ apply preserves_ret
    | apply preserves_raise
    | apply preserves_gets
    | apply preserves_getattr
    | apply preserves_get_field
    | apply preserves_get_parameter
    | apply preserves_modify; intros []; reflexivity
    | apply preserves_bind; [|intros ?]
    | apply preserves_for_each; intros ?
    | match goal with
      | |- preserves _ (if ?b then _ else _) => destruct b
      end ].

Lemma preserves_lookup_setattr {V} (x y : string) (v : V) :
  x <> y -> preserves (fun s => attrs s !! x) (setattr y v).
Proof.
  intros Hne. apply preserves_modify. intros s. simpl.
  apply lookup_insert_ne. congruence.
Qed.

Lemma preserves_lookup_init_parameter kw (x y : string) :
  x <> y -> preserves (fun s => attrs s !! x) (init_parameter kw y).
Proof.
  intros Hne. unfold init_parameter, shape_of, set_prior.
  preserves_steps; apply preserves_lookup_setattr, Hne.
Qed.

Lemma preserves_lookup_loop kw (x : string) (l : list string) :
  x ∉ l -> preserves (fun s => attrs s !! x) (for_each l (init_parameter kw)).
Proof.
  induction l as [|y l IH]; intros Hx; simpl.
  - apply preserves_ret.
  - apply not_elem_of_cons in Hx as [Hne Hx].
    apply preserves_bind; [apply preserves_lookup_init_parameter, Hne|].
    intros _. apply IH, Hx.
Qed.

Lemma set_prior_table parname param k s s' :
  prior param = prior_code k ->
  set_prior parname param s = (s', inr tt) ->
  attrs s' !! parname
  = Some (prior_table k parname (priorpar1 param) (priorpar2 param)).
Proof.
  intros Hk. unfold set_prior, Py.contains. rewrite Hk.
  destruct k; simpl; unfold prior_table.
  - intros [= <-]. simpl. apply lookup_insert_eq.
  - destruct (bool_decide (parname ∈ _)).
    + intros [= <-]. simpl. apply lookup_insert_eq.
    + destruct (bool_decide (parname ∈ ["inc"])) eqn:E.
      * apply bool_decide_eq_true in E. rewrite list_elem_of_singleton in E.
        rewrite (bool_decide_eq_true_2 _ E).
        intros [= <-]. simpl. apply lookup_insert_eq.
      * apply bool_decide_eq_false in E. rewrite list_elem_of_singleton in E.
        rewrite (bool_decide_eq_false_2 _ E).
        intros [= <-]. simpl. apply lookup_insert_eq.
  - intros [= <-]. simpl. apply lookup_insert_eq.
Qed.

Lemma init_parameter_sampled kw parname param s s' :
  parameters kw !! parname = Some param ->
  ptype param = "free" \/ ptype param = "shared" ->
  init_parameter kw parname s = (s', inr tt) ->
  set_prior parname param s = (s', inr tt).
Proof.
  intros Hp Hpt. unfold init_parameter, bind, get_parameter, shape_of.
  rewrite Hp.
  destruct Hpt as [-> | ->]; simpl.
  - destruct (Nat.eqb _ _); simpl; auto.
  - auto.
Qed.

Lemma loop_priors kw l s s' parname param k :
  for_each l (init_parameter kw) s = (s', inr tt) ->
  parname ∈ l ->
  parameters kw !! parname = Some param ->
  ptype param = "free" \/ ptype param = "shared" ->
  prior param = prior_code k ->
  attrs s' !! parname
  = Some (prior_table k parname (priorpar1 param) (priorpar2 param)).
Proof.
  intros Hrun Hin Hp Hpt Hk. revert s Hrun.
  induction l as [|x l IH]; intros s Hrun; [inversion Hin|].
  simpl in Hrun. apply bind_inr in Hrun as (s1 & [] & Hx & Hrest).
  destruct (decide (parname ∈ l)) as [Hl|Hl].
  - exact (IH Hl _ Hrest).
  - apply elem_of_cons in Hin as [->|Hin]; [|contradiction].
    rewrite (preserves_lookup_loop kw x l Hl _ _ _ Hrest).
    eapply set_prior_table; [exact Hk|].
    eapply init_parameter_sampled; eassumption.
Qed.

Lemma preserves_attrs_init_star : preserves attrs init_star.
Proof. unfold_stages. preserves_steps. Qed.

Lemma preserves_attrs_init_limb_dark kw : preserves attrs (init_limb_dark kw).
Proof. unfold init_limb_dark. unfold_stages. preserves_steps. Qed.

Lemma preserves_attrs_init_planet M_jup M_sun :
  preserves attrs (init_planet M_jup M_sun).
Proof. unfold_stages. preserves_steps. Qed.

Lemma preserves_attrs_init_planet_map {V} (lift : V -> tensor) :
  preserves attrs (init_planet_map lift).
Proof. unfold_stages. preserves_steps. Qed.

Lemma preserves_attrs_init_sys {V} : preserves attrs (@init_sys V).
Proof. unfold_stages. preserves_steps. Qed.

Lemma preserves_star_init_planet M_jup M_sun :
  preserves star (init_planet M_jup M_sun).
Proof. unfold_stages. preserves_steps. Qed.

Lemma preserves_star_init_planet_map {V} (lift : V -> tensor) :
  preserves star (init_planet_map lift).
Proof. unfold_stages. preserves_steps. Qed.

Lemma preserves_star_init_sys {V} : preserves star (@init_sys V).
Proof. unfold_stages. preserves_steps. Qed.




Section Priors.

Variables (M_jup M_sun : R).

(** The stages of a successful [__init__]: the objects after the parameter
    loop, the star and the limb-darkening law. *)
Lemma StarryModel_stages kw self :
  StarryModel M_jup M_sun kw = inr self ->
  exists s1 s2 s3,
    for_each (paramtitles kw) (init_parameter kw) empty_namespace = (s1, inr tt) /\
    init_star s1 = (s2, inr tt) /\
    init_limb_dark kw s2 = (s3, inr tt) /\
    attrs s1 = attrs self /\ attrs s2 = attrs self /\ attrs s3 = attrs self /\
    star s3 = star self.
Proof.
  intros H. apply StarryModel_inr in H. unfold StarryModel_init in H.
  apply bind_inr in H as (s0 & [] & H0 & H).
  apply bind_inr in H as (s1 & [] & H1 & H).
  apply bind_inr in H as (s2 & [] & H2 & H).
  apply bind_inr in H as (s3 & [] & H3 & H).
  apply bind_inr in H as (s4 & [] & H4 & H).
  apply bind_inr in H as (s5 & [] & H5 & H6).
  pose proof (preserves_check_required (fun s => s) kw _ _ _ H0) as E0.
  simpl in E0. subst s0.
  pose proof (preserves_attrs_init_star _ _ _ H2) as A2.
  pose proof (preserves_attrs_init_limb_dark kw _ _ _ H3) as A3.
  pose proof (preserves_attrs_init_planet _ _ _ _ _ H4) as A4.
  pose proof (preserves_attrs_init_planet_map _ _ _ _ H5) as A5.
  pose proof (preserves_attrs_init_sys _ _ _ H6) as A6.
  pose proof (preserves_star_init_planet _ _ _ _ _ H4) as S4.
  pose proof (preserves_star_init_planet_map _ _ _ _ H5) as S5.
  pose proof (preserves_star_init_sys _ _ _ H6) as S6.
  exists s1, s2, s3. repeat split; congruence.
Qed.

(** C5. In a model that [__init__] built, every free or shared parameter of
    [paramtitles] is the random variable the prior table prescribes for its
    prior kind and name: uniform on the two prior parameters; normal,
    bounded below by 0 for rp, per, ecc, scatter_mult, scatter_ppm and c0,
    bounded above by 90 for inc, unbounded otherwise; or the exponential of
    a uniform variable. *)
Theorem priors_follow_table (kw : kwargs) (self : namespace tensor)
    (parname : string) (param : Param) (k : prior_kind) :
  StarryModel M_jup M_sun kw = inr self ->
  parname ∈ paramtitles kw ->
  parameters kw !! parname = Some param ->
  ptype param = "free" \/ ptype param = "shared" ->
  prior param = prior_code k ->
  attrs self !! parname
  = Some (prior_table k parname (priorpar1 param) (priorpar2 param)).
Proof.
  intros Hbuild Hin Hp Hpt Hk.
  destruct (StarryModel_stages kw self Hbuild)
    as (s1 & s2 & s3 & Hloop & _ & _ & <- & _).
  eapply loop_priors; eassumption.
Qed.

End Priors.

(** C5 at a table with a prior of every kind. *)
Lemma priors_follow_table_witness :
  exists self,
    StarryModel 1 1047 kw_priors = inr self /\
    attrs self !! "rp" = Some (TVar "rp" (Uniform 0 1)) /\
    attrs self !! "per" = Some (TVar "per" (Bound (Some 0) None 3 1)) /\
    attrs self !! "inc" = Some (TVar "inc" (Bound None (Some 90) 88 2)) /\
    attrs self !! "t0" = Some (TVar "t0" (Normal 0 1)) /\
    attrs self !! "a" = Some (TExp (TVar "a" (Uniform 0 3))).
Proof.
  assert (exists self, StarryModel 1 1047 kw_priors = inr self) as (self & Hbuild).
  { eexists. vm_compute. reflexivity. }
  exists self. split; [exact Hbuild|].
  assert (forall parname, parname ∈ ["rp"; "per"; "inc"; "t0"; "a"] ->
                          parname ∈ paramtitles kw_priors) as Hin.
  { apply Forall_forall.
    repeat (constructor; [apply (bool_decide_eq_true_1 _); reflexivity|]).
    constructor. }
  repeat split.
  - apply (priors_follow_table 1 1047 kw_priors self "rp"
             (sampled_param "rp" 1 "free" 0 1 "U") uniform Hbuild);
      [apply Hin; repeat constructor | reflexivity | left; reflexivity | reflexivity].
  - apply (priors_follow_table 1 1047 kw_priors self "per"
             (sampled_param "per" 3 "shared" 3 1 "N") normal Hbuild);
      [apply Hin; repeat constructor | reflexivity | right; reflexivity | reflexivity].
  - apply (priors_follow_table 1 1047 kw_priors self "inc"
             (sampled_param "inc" 90 "free" 88 2 "N") normal Hbuild);
      [apply Hin; repeat constructor | reflexivity | left; reflexivity | reflexivity].
  - apply (priors_follow_table 1 1047 kw_priors self "t0"
             (sampled_param "t0" 0 "free" 0 1 "N") normal Hbuild);
      [apply Hin; repeat constructor | reflexivity | left; reflexivity | reflexivity].
  - apply (priors_follow_table 1 1047 kw_priors self "a"
             (sampled_param "a" 10 "free" 0 3 "LU") log_uniform Hbuild);
      [apply Hin; repeat constructor | reflexivity | left; reflexivity | reflexivity].
Defined.

(** A prior code other than U, N and LU assigns nothing and raises
    nothing. *)
Lemma set_prior_unrecognized parname param s :
  prior param <> "U" -> prior param <> "N" -> prior param <> "LU" ->
  set_prior parname param s = (s, inr tt).
Proof.
  intros HU HN HLU. unfold set_prior.
  destruct (String.eqb_spec (prior param) "U"); [contradiction|].
  destruct (String.eqb_spec (prior param) "N"); [contradiction|].
  destruct (String.eqb_spec (prior param) "LU"); [contradiction|].
  reflexivity.
Qed.

(** C8. With the free parameter [fp] given the unrecognized prior code
    "Normal", [__init__] raises nothing: it returns a model that has no
    attribute [fp] and whose planet map has the default amplitude 0. *)
Theorem unrecognized_prior_is_skipped :
  exists self pl,
    StarryModel 1 1047 kw_bad_prior = inr self /\
    attrs self !! "fp" = None /\
    planet self = Some pl /\
    starry.Map_amp (starry.Secondary_map pl) = tnum 0.
Proof.
  eexists. eexists.
  split; [vm_compute; reflexivity|].
  split; [vm_compute; reflexivity|].
  split; [vm_compute; reflexivity|].
  vm_compute. reflexivity.
Qed.

(* ===================================================================== *)
(** ** The kipping2013 reparameterization *)
(* ===================================================================== *)






Section Kipping.

Variables (M_jup M_sun : R).



End Kipping.


(* ===================================================================== *)
(** ** Decoding of coefficient names *)
(* ===================================================================== *)

Lemma all_digits_app_underscore d rest :
  Py.all_digits (d ++ String "_" rest) = false.
Proof.
  induction d as [|c d IH]; simpl.
  - reflexivity.
  - rewrite IH. apply andb_false_r.
Qed.

Lemma isdigit_all_digits s : Py.isdigit s = true -> Py.all_digits s = true.
Proof. destruct s; [discriminate|]. auto. Qed.

Lemma isdigit_app_underscore d rest :
  Py.isdigit (d ++ String "_" rest) = false.
Proof.
  destruct d as [|c d]; [reflexivity|].
  change (Py.all_digits (String c d ++ String "_" rest) = false).
  apply all_digits_app_underscore.
Qed.

Lemma digit_not_underscore c :
  Py.is_digit_ascii c = true -> Ascii.eqb c "_" = false.
Proof.
  destruct c as [[] [] [] [] [] [] [] []]; vm_compute; congruence.
Qed.

Lemma split_all_digits s : Py.all_digits s = true -> Py.split "_" s = [s].
Proof.
  induction s as [|c s IH]; simpl; [reflexivity|].
  intros H. apply andb_true_iff in H as [Hc Hs].
  rewrite (digit_not_underscore c Hc), (IH Hs). reflexivity.
Qed.

Lemma split_digits_underscore d rest :
  Py.all_digits d = true ->
  Py.split "_" (d ++ String "_" rest) = d :: Py.split "_" rest.
Proof.
  induction d as [|c d IH]; simpl; [reflexivity|].
  intros H. apply andb_true_iff in H as [Hc Hd].
  rewrite (digit_not_underscore c Hc), (IH Hd). reflexivity.
Qed.

(** The names of one family: those whose first character, lowered, is
    the family letter. *)
Lemma startswith_lower a rest x :
  Py.startswith (Py.lower (String a rest)) (String x "")
  = Ascii.eqb (Py.lower_ascii a) x.
Proof.
  unfold Py.startswith. simpl.
  destruct (ascii_dec x (Py.lower_ascii a)) as [->|Hne].
  - rewrite Ascii.eqb_refl. destruct (Py.lower rest); reflexivity.
  - symmetry. apply Ascii.eqb_neq. congruence.
Qed.

Lemma setitem2_in_range {A} (tbl : list (list A)) i j v ncols :
  (i < length tbl)%nat -> Forall (fun row => length row = ncols) tbl ->
  (j < ncols)%nat ->
  setitem2 i j v tbl = inr (alter (fun row => <[j := v]> row) i tbl).
Proof.
  intros Hi Hrows Hj. unfold setitem2.
  destruct (lookup_lt_is_Some_2 tbl i Hi) as (row & Hrow). rewrite Hrow.
  assert (length row = ncols) as Hlen.
  { rewrite Forall_forall in Hrows. apply Hrows.
    eapply list_elem_of_lookup_2, Hrow. }
  rewrite Hlen. destruct (Nat.ltb_spec j ncols); [|lia].
  f_equal. apply list_eq. intros n.
  destruct (decide (n = i)) as [->|Hne].
  - rewrite list_lookup_insert_eq by exact Hi.
    rewrite list_lookup_alter_eq, Hrow. reflexivity.
  - rewrite list_lookup_insert_ne by congruence.
    rewrite list_lookup_alter_ne by congruence. reflexivity.
Qed.

Lemma setitem2_bad_column {A} (tbl : list (list A)) i j v ncols :
  Forall (fun row => length row = ncols) tbl -> (ncols <= j)%nat ->
  setitem2 i j v tbl = inl IndexError.
Proof.
  intros Hrows Hj. unfold setitem2.
  destruct (tbl !! i) as [row|] eqn:Hrow; [|reflexivity].
  assert (length row = ncols) as Hlen.
  { rewrite Forall_forall in Hrows. apply Hrows.
    eapply list_elem_of_lookup_2, Hrow. }
  rewrite Hlen. destruct (Nat.ltb_spec j ncols); [lia|reflexivity].
Qed.

Lemma setitem2_bad_row {A} (tbl : list (list A)) i j v :
  (length tbl <= i)%nat -> setitem2 i j v tbl = inl IndexError.
Proof.
  intros Hi. unfold setitem2. rewrite lookup_ge_None_2 by exact Hi. reflexivity.
Qed.

Lemma setitem2_raises {A} (tbl : list (list A)) i j v e :
  setitem2 i j v tbl = inl e -> e = IndexError.
Proof.
  unfold setitem2. destruct (tbl !! i) as [row|]; [|congruence].
  destruct (Nat.ltb _ _); congruence.
Qed.

Lemma cell_alter {A} (tbl : list (list A)) ch d v ncols :
  (ch < length tbl)%nat -> Forall (fun row => length row = ncols) tbl ->
  (d < ncols)%nat ->
  cell (alter (fun row => <[d := v]> row) ch tbl) ch d = Some v /\
  forall ch' d', (ch', d') <> (ch, d) ->
    cell (alter (fun row => <[d := v]> row) ch tbl) ch' d' = cell tbl ch' d'.
Proof.
  intros Hch Hrows Hd.
  destruct (lookup_lt_is_Some_2 tbl ch Hch) as (row & Hrow).
  assert (length row = ncols) as Hlen.
  { rewrite Forall_forall in Hrows. apply Hrows.
    eapply list_elem_of_lookup_2, Hrow. }
  unfold cell. split.
  - rewrite list_lookup_alter_eq, Hrow. simpl.
    apply list_lookup_insert_eq. lia.
  - intros ch' d' Hne. destruct (decide (ch' = ch)) as [->|Hc].
    + rewrite list_lookup_alter_eq, Hrow. simpl.
      apply list_lookup_insert_ne. congruence.
    + rewrite list_lookup_alter_ne by congruence. reflexivity.
Qed.

Lemma poly_setitem_in_range {A} nchan (tb : tables A) ch d v :
  shaped nchan tb -> (ch < nchan)%nat -> (d < 10)%nat ->
  poly_setitem ch d v tb = (record_poly ch d v tb, inr tt).
Proof.
  intros (Hlen & Hrows & _) Hch Hd. unfold poly_setitem, record_poly.
  erewrite setitem2_in_range by (try exact Hrows; lia). reflexivity.
Qed.

Lemma ramp_setitem_in_range {A} nchan (tb : tables A) ch d v :
  shaped nchan tb -> (ch < nchan)%nat -> (d < 6)%nat ->
  ramp_setitem ch d v tb = (record_ramp ch d v tb, inr tt).
Proof.
  intros (_ & _ & Hlen & Hrows) Hch Hd. unfold ramp_setitem, record_ramp.
  erewrite setitem2_in_range by (try exact Hrows; lia). reflexivity.
Qed.

Lemma poly_setitem_out_of_range {A} nchan (tb : tables A) ch d v :
  shaped nchan tb -> (nchan <= ch \/ 10 <= d)%nat ->
  poly_setitem ch d v tb = (tb, inl IndexError).
Proof.
  intros (Hlen & Hrows & _) [Hch|Hd]; unfold poly_setitem.
  - rewrite setitem2_bad_row by lia. reflexivity.
  - erewrite setitem2_bad_column by (try exact Hrows; lia). reflexivity.
Qed.

Lemma ramp_setitem_out_of_range {A} nchan (tb : tables A) ch d v :
  shaped nchan tb -> (nchan <= ch \/ 6 <= d)%nat ->
  ramp_setitem ch d v tb = (tb, inl IndexError).
Proof.
  intros (_ & _ & Hlen & Hrows) [Hch|Hd]; unfold ramp_setitem.
  - rewrite setitem2_bad_row by lia. reflexivity.
  - erewrite setitem2_bad_column by (try exact Hrows; lia). reflexivity.
Qed.

Lemma raises_only_poly_setitem {A} ch d (v : A) :
  raises_only (fun e => e = IndexError) (poly_setitem ch d v).
Proof.
  intros tb tb' e H. unfold poly_setitem in H.
  destruct (setitem2 _ _ _ _) eqn:E; [|discriminate].
  injection H as _ <-. eapply setitem2_raises, E.
Qed.

Lemma raises_only_ramp_setitem {A} ch d (v : A) :
  raises_only (fun e => e = IndexError) (ramp_setitem ch d v).
Proof.
  intros tb tb' e H. unfold ramp_setitem in H.
  destruct (setitem2 _ _ _ _) eqn:E; [|discriminate].
  injection H as _ <-. eapply setitem2_raises, E.
Qed.

Lemma shaped_zero_tables {A} (zero : A) nchan : shaped nchan (zero_tables zero nchan).
Proof.
  unfold shaped, zero_tables. simpl. rewrite !length_replicate.
  repeat split; apply Forall_replicate; reflexivity.
Qed.

Lemma shaped_record_poly {A} nchan (tb : tables A) ch d v :
  shaped nchan tb -> shaped nchan (record_poly ch d v tb).
Proof.
  intros (H1 & H2 & H3 & H4). unfold shaped, record_poly. simpl.
  rewrite length_alter. repeat split; try assumption.
  apply Forall_alter; [exact H2|]. intros row _ Hrow. rewrite length_insert. exact Hrow.
Qed.

Lemma shaped_record_ramp {A} nchan (tb : tables A) ch d v :
  shaped nchan tb -> shaped nchan (record_ramp ch d v tb).
Proof.
  intros (H1 & H2 & H3 & H4). unfold shaped, record_ramp. simpl.
  rewrite length_alter. repeat split; try assumption.
  apply Forall_alter; [exact H4|]. intros row _ Hrow. rewrite length_insert. exact Hrow.
Qed.

(** The body of [decode_fit_item] for a name of the polynomial family. *)
Lemma decode_fit_item_c nchan a k v :
  Py.lower_ascii a = "c"%char ->
  decode_fit_item nchan (String a k, v) =
    let remvisnum := Py.split "_" k in
    if Py.isdigit k then poly_setitem 0 (Py.int k) v
    else if (1 <? length remvisnum)%nat && (1 <? nchan)%nat then
      if Py.isdigit (Py.item remvisnum 0) && Py.isdigit (Py.item remvisnum 1) then
        poly_setitem (Py.int (Py.item remvisnum 1)) (Py.int (Py.item remvisnum 0)) v
      else ret tt
    else ret tt.
Proof.
  intros Ha. unfold decode_fit_item. cbn [fst snd].
  rewrite startswith_lower, Ha. reflexivity.
Qed.

(** The body of [decode_fit_item] for a name of the ramp family. *)
Lemma decode_fit_item_r nchan a k v :
  Py.lower_ascii a = "r"%char ->
  decode_fit_item nchan (String a k, v) =
    let remvisnum := Py.split "_" (Py.tail k) in
    if Py.isdigit k then ramp_setitem 0 (Py.int k) v
    else if (1 <? length remvisnum)%nat && (1 <? nchan)%nat then
      if Py.isdigit (Py.item remvisnum 0) && Py.isdigit (Py.item remvisnum 1) then
        ramp_setitem (Py.int (Py.item remvisnum 1)) (Py.int (Py.item remvisnum 0)) v
      else ret tt
    else ret tt.
Proof.
  intros Ha. unfold decode_fit_item. cbn [fst snd].
  rewrite !startswith_lower, Ha. reflexivity.
Qed.

Lemma other_family_lower a :
  a <> "c"%char -> a <> "C"%char -> a <> "r"%char -> a <> "R"%char ->
  Ascii.eqb (Py.lower_ascii a) "c" = false /\
  Ascii.eqb (Py.lower_ascii a) "r" = false.
Proof.
  destruct a as [[] [] [] [] [] [] [] []]; intros H1 H2 H3 H4;
    first [ split; reflexivity | congruence ].
Qed.

Lemma decode_fit_item_other nchan k v tb :
  other_family k -> decode_fit_item nchan (k, v) tb = (tb, inr tt).
Proof.
  intros Hk. destruct k as [|a k].
  - reflexivity.
  - destruct Hk as (H1 & H2 & H3 & H4).
    destruct (other_family_lower a H1 H2 H3 H4) as [Ec Er].
    unfold decode_fit_item. cbn [fst snd].
    rewrite !startswith_lower, Ec, Er. reflexivity.
Qed.

Lemma raises_only_decode_fit_item nchan kv :
  raises_only (fun e => e = IndexError) (decode_fit_item nchan kv).
Proof.
  unfold decode_fit_item.
  repeat match goal with
         | |- raises_only _ (let x := _ in _) => cbv zeta
         | |- raises_only _ (if ?b then _ else _) => destruct b
         end;
    first [ apply raises_only_ret
          | apply raises_only_poly_setitem
          | apply raises_only_ramp_setitem ].
Qed.

Lemma decode_paramtitle_c nchan self a k :
  Py.lower_ascii a = "c"%char ->
  decode_paramtitle nchan self (String a k) =
    let remvisnum := Py.split "_" k in
    if Py.isdigit k then
      (v <- self_getattr self ("c" ++ k) ;; poly_setitem 0 (Py.int k) v)%py
    else if (1 <? length remvisnum)%nat && (1 <? nchan)%nat then
      if Py.isdigit (Py.item remvisnum 0) && Py.isdigit (Py.item remvisnum 1) then
        (v <- self_getattr self ("c" ++ k) ;;
         poly_setitem (Py.int (Py.item remvisnum 1)) (Py.int (Py.item remvisnum 0)) v)%py
      else ret tt
    else ret tt.
Proof.
  intros Ha. unfold decode_paramtitle.
  rewrite startswith_lower, Ha. reflexivity.
Qed.

Lemma decode_paramtitle_r nchan self a k :
  Py.lower_ascii a = "r"%char ->
  decode_paramtitle nchan self (String a k) =
    let remvisnum := Py.split "_" (Py.tail k) in
    if Py.isdigit k then
      (v <- self_getattr self ("r" ++ k) ;; ramp_setitem 0 (Py.int k) v)%py
    else if (1 <? length remvisnum)%nat && (1 <? nchan)%nat then
      if Py.isdigit (Py.item remvisnum 0) && Py.isdigit (Py.item remvisnum 1) then
        (v <- self_getattr self ("r" ++ k) ;;
         ramp_setitem (Py.int (Py.item remvisnum 1)) (Py.int (Py.item remvisnum 0)) v)%py
      else ret tt
    else ret tt.
Proof.
  intros Ha. unfold decode_paramtitle.
  rewrite !startswith_lower, Ha. reflexivity.
Qed.

Lemma decode_paramtitle_other nchan self k tb :
  other_family k -> decode_paramtitle nchan self k tb = (tb, inr tt).
Proof.
  intros Hk. destruct k as [|a k].
  - reflexivity.
  - destruct Hk as (H1 & H2 & H3 & H4).
    destruct (other_family_lower a H1 H2 H3 H4) as [Ec Er].
    unfold decode_paramtitle.
    rewrite !startswith_lower, Ec, Er. reflexivity.
Qed.

Lemma self_getattr_Some {S} self attr t (s : S) :
  attrs self !! attr = Some t -> self_getattr self attr s = (s, inr t).
Proof. intros H. unfold self_getattr, getattr. rewrite H. reflexivity. Qed.

Lemma raises_only_self_getattr {S} (P : exn -> Prop) self attr :
  P (AttributeError attr) -> raises_only (S := S) P (self_getattr self attr).
Proof.
  intros HP s s' e H. unfold self_getattr, getattr in H.
  destruct (attrs self !! attr); simpl in H; [discriminate|].
  injection H as _ <-. exact HP.
Qed.

Lemma raises_only_weaken {S A} (P Q : exn -> Prop) (m : PyM S A) :
  (forall e, P e -> Q e) -> raises_only P m -> raises_only Q m.
Proof. intros HPQ Hm s s' e H. apply HPQ. exact (Hm _ _ _ H). Qed.

Lemma raises_only_decode_paramtitle nchan self k :
  raises_only (fun e => e = IndexError \/ exists attr, e = AttributeError attr)
              (decode_paramtitle nchan self k).
Proof.
  unfold decode_paramtitle.
  repeat match goal with
         | |- raises_only _ (let x := _ in _) => cbv zeta
         | |- raises_only _ (if ?b then _ else _) => destruct b
         end;
    first [ apply raises_only_ret
          | apply raises_only_bind;
            [ apply raises_only_self_getattr; eauto
            | intros v; eapply raises_only_weaken;
              [ intros e He; left; exact He
              | first [ apply raises_only_poly_setitem
                      | apply raises_only_ramp_setitem ] ] ] ].
Qed.

(** The split and digit tests on a remainder [<d>_<ch>]. *)
Lemma remainder_two_halves d ch :
  Py.isdigit d = true -> Py.isdigit ch = true ->
  Py.isdigit (d ++ String "_" ch) = false /\
  Py.split "_" (d ++ String "_" ch) = [d; ch].
Proof.
  intros Hd Hch. split; [apply isdigit_app_underscore|].
  rewrite split_digits_underscore by (apply isdigit_all_digits, Hd).
  rewrite split_all_digits by (apply isdigit_all_digits, Hch). reflexivity.
Qed.

Lemma poly_letter_lower a : poly_letter a -> Py.lower_ascii a = "c"%char.
Proof. intros [->| ->]; reflexivity. Qed.

Lemma ramp_letter_lower a : ramp_letter a -> Py.lower_ascii a = "r"%char.
Proof. intros [->| ->]; reflexivity. Qed.

(** C6, amended. For names of ASCII characters and tables of [nchan] rows,
    [syseval(eval=True)] decodes a name as follows, the first letter in
    either case: c<d> or C<d> with at least one channel and d below 10
    writes the polynomial entry (channel 0, degree d); c<d>_<ch> with both
    halves numeric, more than one channel, d below 10 and ch below nchan
    writes (channel ch, degree d); r<d> or R<d> with at least one channel
    and d below 6 writes ramp term d of channel 0; a name that starts with
    none of c, C, r, R is ignored, and so is any name with a non-numeric
    remainder when there is at most one channel; a degree, term or channel
    outside the table raises IndexError, the only exception decoding
    raises. A written entry reads back as the value. [syseval(eval=False)]
    decodes the same names the same way with the attribute c<d>, c<d>_<ch>
    or r<d> of the model as value, the letter of the attribute in lower
    case whatever the case of the name; it raises AttributeError when that
    attribute is missing, IndexError outside the table, and nothing else. *)
Theorem coefficient_names_decoded (nchan : nat) :
  (forall (tb : tables R) (v : R),
      shaped nchan tb ->
      (forall a d, poly_letter a -> Py.isdigit d = true ->
         (0 < nchan)%nat -> (Py.int d < 10)%nat ->
         decode_fit_item nchan (String a d, v) tb
         = (record_poly 0 (Py.int d) v tb, inr tt) /\
         cell (poly_coeffs (record_poly 0 (Py.int d) v tb)) 0 (Py.int d) = Some v) /\
      (forall a d ch, poly_letter a ->
         Py.isdigit d = true -> Py.isdigit ch = true ->
         (1 < nchan)%nat -> (Py.int d < 10)%nat -> (Py.int ch < nchan)%nat ->
         decode_fit_item nchan (String a (d ++ "_" ++ ch), v) tb
         = (record_poly (Py.int ch) (Py.int d) v tb, inr tt) /\
         cell (poly_coeffs (record_poly (Py.int ch) (Py.int d) v tb))
              (Py.int ch) (Py.int d) = Some v) /\
      (forall a d, ramp_letter a -> Py.isdigit d = true ->
         (0 < nchan)%nat -> (Py.int d < 6)%nat ->
         decode_fit_item nchan (String a d, v) tb
         = (record_ramp 0 (Py.int d) v tb, inr tt) /\
         cell (ramp_coeffs (record_ramp 0 (Py.int d) v tb)) 0 (Py.int d) = Some v) /\
      (forall k, Py.isascii k = true -> other_family k ->
         decode_fit_item nchan (k, v) tb = (tb, inr tt)) /\
      (forall a k, Py.isascii (String a k) = true ->
         Py.isdigit k = false -> (nchan <= 1)%nat ->
         decode_fit_item nchan (String a k, v) tb = (tb, inr tt)) /\
      (forall a d, poly_letter a -> Py.isdigit d = true ->
         (nchan = 0 \/ 10 <= Py.int d)%nat ->
         decode_fit_item nchan (String a d, v) tb = (tb, inl IndexError)) /\
      (forall a d, ramp_letter a -> Py.isdigit d = true ->
         (nchan = 0 \/ 6 <= Py.int d)%nat ->
         decode_fit_item nchan (String a d, v) tb = (tb, inl IndexError)) /\
      (forall a d ch, poly_letter a ->
         Py.isdigit d = true -> Py.isdigit ch = true ->
         (1 < nchan)%nat -> (nchan <= Py.int ch \/ 10 <= Py.int d)%nat ->
         decode_fit_item nchan (String a (d ++ "_" ++ ch), v) tb
         = (tb, inl IndexError)) /\
      (forall k tb' e, Py.isascii k = true ->
         decode_fit_item nchan (k, v) tb = (tb', inl e) -> e = IndexError)) /\
  (forall (self : namespace tensor) (tb : tables tensor) (v : tensor),
      shaped nchan tb ->
      (forall a d, poly_letter a -> Py.isdigit d = true ->
         attrs self !! ("c" ++ d) = Some v ->
         (0 < nchan)%nat -> (Py.int d < 10)%nat ->
         decode_paramtitle nchan self (String a d) tb
         = (record_poly 0 (Py.int d) v tb, inr tt)) /\
      (forall a d ch, poly_letter a ->
         Py.isdigit d = true -> Py.isdigit ch = true ->
         attrs self !! ("c" ++ d ++ "_" ++ ch) = Some v ->
         (1 < nchan)%nat -> (Py.int d < 10)%nat -> (Py.int ch < nchan)%nat ->
         decode_paramtitle nchan self (String a (d ++ "_" ++ ch)) tb
         = (record_poly (Py.int ch) (Py.int d) v tb, inr tt)) /\
      (forall a d, ramp_letter a -> Py.isdigit d = true ->
         attrs self !! ("r" ++ d) = Some v ->
         (0 < nchan)%nat -> (Py.int d < 6)%nat ->
         decode_paramtitle nchan self (String a d) tb
         = (record_ramp 0 (Py.int d) v tb, inr tt)) /\
      (forall k, Py.isascii k = true -> other_family k ->
         decode_paramtitle nchan self k tb = (tb, inr tt)) /\
      (forall a k, Py.isascii (String a k) = true ->
         Py.isdigit k = false -> (nchan <= 1)%nat ->
         decode_paramtitle nchan self (String a k) tb = (tb, inr tt)) /\
      (forall a d, poly_letter a -> Py.isdigit d = true ->
         attrs self !! ("c" ++ d) = None ->
         decode_paramtitle nchan self (String a d) tb
         = (tb, inl (AttributeError ("c" ++ d)))) /\
      (forall a d ch, poly_letter a ->
         Py.isdigit d = true -> Py.isdigit ch = true -> (1 < nchan)%nat ->
         attrs self !! ("c" ++ d ++ "_" ++ ch) = None ->
         decode_paramtitle nchan self (String a (d ++ "_" ++ ch)) tb
         = (tb, inl (AttributeError ("c" ++ d ++ "_" ++ ch)))) /\
      (forall a d, ramp_letter a -> Py.isdigit d = true ->
         attrs self !! ("r" ++ d) = None ->
         decode_paramtitle nchan self (String a d) tb
         = (tb, inl (AttributeError ("r" ++ d)))) /\
      (forall a d, poly_letter a -> Py.isdigit d = true ->
         attrs self !! ("c" ++ d) = Some v ->
         (nchan = 0 \/ 10 <= Py.int d)%nat ->
         decode_paramtitle nchan self (String a d) tb = (tb, inl IndexError)) /\
      (forall a d, ramp_letter a -> Py.isdigit d = true ->
         attrs self !! ("r" ++ d) = Some v ->
         (nchan = 0 \/ 6 <= Py.int d)%nat ->
         decode_paramtitle nchan self (String a d) tb = (tb, inl IndexError)) /\
      (forall k tb' e, Py.isascii k = true ->
         decode_paramtitle nchan self k tb = (tb', inl e) ->
         e = IndexError \/ exists attr, e = AttributeError attr)).
Proof.
  split.
  - intros tb v Hshape.
    pose proof Hshape as (Hp1 & Hp2 & Hr1 & Hr2).
    split; [|split; [|split; [|split; [|split; [|split; [|split; [|split]]]]]]].
    + intros a d Ha Hd Hn Hlt. split.
      * rewrite decode_fit_item_c by (apply poly_letter_lower, Ha).
        cbv zeta. rewrite Hd.
        eapply poly_setitem_in_range; eassumption.
      * apply (cell_alter (poly_coeffs tb) 0 (Py.int d) v 10); [lia|exact Hp2|lia].
    + intros a d ch Ha Hd Hch Hn Hlt Hc.
      destruct (remainder_two_halves d ch Hd Hch) as [Hnd Hsplit]. split.
      * change (d ++ "_" ++ ch) with (d ++ String "_" ch).
        rewrite decode_fit_item_c by (apply poly_letter_lower, Ha). cbv zeta.
        rewrite Hnd, Hsplit. cbn [length Py.item nth].
        destruct (Nat.ltb_spec 1 nchan); [|lia]. cbn [Nat.ltb Nat.leb andb].
        rewrite Hd, Hch. cbn [andb].
        eapply poly_setitem_in_range; eassumption.
      * apply (cell_alter (poly_coeffs tb) _ _ v 10); [lia|exact Hp2|lia].
    + intros a d Ha Hd Hn Hlt. split.
      * rewrite decode_fit_item_r by (apply ramp_letter_lower, Ha).
        cbv zeta. rewrite Hd.
        eapply ramp_setitem_in_range; eassumption.
      * apply (cell_alter (ramp_coeffs tb) 0 (Py.int d) v 6); [lia|exact Hr2|lia].
    + intros k _ Hk. apply decode_fit_item_other, Hk.
    + intros a k _ Hk Hn. unfold decode_fit_item. cbn [fst snd Py.tail].
      rewrite Hk. destruct (Nat.ltb_spec 1 nchan); [lia|].
      rewrite !andb_false_r.
      repeat match goal with |- context [if ?b then _ else _] => destruct b end;
        reflexivity.
    + intros a d Ha Hd Hge.
      rewrite decode_fit_item_c by (apply poly_letter_lower, Ha).
      cbv zeta. rewrite Hd.
      eapply poly_setitem_out_of_range; [eassumption|]. lia.
    + intros a d Ha Hd Hge.
      rewrite decode_fit_item_r by (apply ramp_letter_lower, Ha).
      cbv zeta. rewrite Hd.
      eapply ramp_setitem_out_of_range; [eassumption|]. lia.
    + intros a d ch Ha Hd Hch Hn Hout.
      destruct (remainder_two_halves d ch Hd Hch) as [Hnd Hsplit].
      change (d ++ "_" ++ ch) with (d ++ String "_" ch).
      rewrite decode_fit_item_c by (apply poly_letter_lower, Ha). cbv zeta.
      rewrite Hnd, Hsplit. cbn [length Py.item nth].
      destruct (Nat.ltb_spec 1 nchan); [|lia]. cbn [Nat.ltb Nat.leb andb].
      rewrite Hd, Hch. cbn [andb].
      eapply poly_setitem_out_of_range; eassumption.
    + intros k tb' e _ H. exact (raises_only_decode_fit_item nchan (k, v) _ _ _ H).
  - intros self tb v Hshape.
    split; [|split; [|split; [|split; [|split; [|split; [|split; [|split;
      [|split; [|split]]]]]]]]].
    + intros a d Ha Hd Hv Hn Hlt.
      rewrite decode_paramtitle_c by (apply poly_letter_lower, Ha).
      cbv zeta. rewrite Hd.
      erewrite bind_ok by (apply self_getattr_Some, Hv).
      eapply poly_setitem_in_range; eassumption.
    + intros a d ch Ha Hd Hch Hv Hn Hlt Hc.
      destruct (remainder_two_halves d ch Hd Hch) as [Hnd Hsplit].
      change (d ++ "_" ++ ch) with (d ++ String "_" ch) in *.
      rewrite decode_paramtitle_c by (apply poly_letter_lower, Ha). cbv zeta.
      rewrite Hnd, Hsplit. cbn [length Py.item nth].
      destruct (Nat.ltb_spec 1 nchan); [|lia]. cbn [Nat.ltb Nat.leb andb].
      rewrite Hd, Hch. cbn [andb].
      erewrite bind_ok by (apply self_getattr_Some, Hv).
      eapply poly_setitem_in_range; eassumption.
    + intros a d Ha Hd Hv Hn Hlt.
      rewrite decode_paramtitle_r by (apply ramp_letter_lower, Ha).
      cbv zeta. rewrite Hd.
      erewrite bind_ok by (apply self_getattr_Some, Hv).
      eapply ramp_setitem_in_range; eassumption.
    + intros k _ Hk. apply decode_paramtitle_other, Hk.
    + intros a k _ Hk Hn. unfold decode_paramtitle. cbn [Py.tail].
      rewrite Hk. destruct (Nat.ltb_spec 1 nchan); [lia|].
      rewrite !andb_false_r.
      repeat match goal with |- context [if ?b then _ else _] => destruct b end;
        reflexivity.
    + intros a d Ha Hd Hv.
      rewrite decode_paramtitle_c by (apply poly_letter_lower, Ha).
      cbv zeta. rewrite Hd.
      apply bind_raise. unfold self_getattr, getattr. rewrite Hv. reflexivity.
    + intros a d ch Ha Hd Hch Hn Hv.
      destruct (remainder_two_halves d ch Hd Hch) as [Hnd Hsplit].
      change (d ++ "_" ++ ch) with (d ++ String "_" ch) in *.
      rewrite decode_paramtitle_c by (apply poly_letter_lower, Ha). cbv zeta.
      rewrite Hnd, Hsplit. cbn [length Py.item nth].
      destruct (Nat.ltb_spec 1 nchan); [|lia]. cbn [Nat.ltb Nat.leb andb].
      rewrite Hd, Hch. cbn [andb].
      apply bind_raise. unfold self_getattr, getattr. rewrite Hv. reflexivity.
    + intros a d Ha Hd Hv.
      rewrite decode_paramtitle_r by (apply ramp_letter_lower, Ha).
      cbv zeta. rewrite Hd.
      apply bind_raise. unfold self_getattr, getattr. rewrite Hv. reflexivity.
    + intros a d Ha Hd Hv Hge.
      rewrite decode_paramtitle_c by (apply poly_letter_lower, Ha).
      cbv zeta. rewrite Hd.
      erewrite bind_ok by (apply self_getattr_Some, Hv).
      eapply poly_setitem_out_of_range; [eassumption|]. lia.
    + intros a d Ha Hd Hv Hge.
      rewrite decode_paramtitle_r by (apply ramp_letter_lower, Ha).
      cbv zeta. rewrite Hd.
      erewrite bind_ok by (apply self_getattr_Some, Hv).
      eapply ramp_setitem_out_of_range; [eassumption|]. lia.
    + intros k tb' e _ H. exact (raises_only_decode_paramtitle nchan self k _ _ _ H).
Qed.

(** C6 at the name c1_1 with two channels, where the value lands in row 1,
    column 1 of the polynomial table, and at the name C3 in upper case,
    which is decoded as c3. *)
Lemma coefficient_names_decoded_witness :
  (decode_fit_item 2 ("c1_1", 3) (zero_tables 0 2)
   = (record_poly 1 1 3 (zero_tables 0 2), inr tt) /\
   cell (poly_coeffs (record_poly 1 1 3 (zero_tables 0 2))) 1 1 = Some 3) /\
  (decode_fit_item 1 ("C3", 5) (zero_tables 0 1)
   = (record_poly 0 3 5 (zero_tables 0 1), inr tt) /\
   cell (poly_coeffs (record_poly 0 3 5 (zero_tables 0 1))) 0 3 = Some 5).
Proof.
  split.
  - destruct (coefficient_names_decoded 2) as [Heval _].
    destruct (Heval (zero_tables 0 2) 3 (shaped_zero_tables 0 2)) as (_ & H & _).
    apply (H "c"%char "1" "1");
      [left; reflexivity | reflexivity | reflexivity | lia
       | vm_compute; lia | vm_compute; lia].
  - destruct (coefficient_names_decoded 1) as [Heval _].
    destruct (Heval (zero_tables 0 1) 5 (shaped_zero_tables 0 1)) as (H & _).
    apply (H "C"%char "3");
      [right; reflexivity | reflexivity | lia | vm_compute; lia].
Defined.

(** C6 as stated fails at the name c10: decoding raises [IndexError]
    instead of recording degree 10 or ignoring the name. *)
Lemma decoding_raises_on_c10 :
  syseval_eval 1 [("c10", 1)] [0; 1] = inl IndexError /\
  decode_fit_item 1 ("c10", 1) (zero_tables 0 1)
  = (zero_tables 0 1, inl IndexError).
Proof. split; vm_compute; reflexivity. Qed.

(** The ramp branch splits the remainder after dropping one more character
    (line 221): r1_1 is ignored and r12_1 lands in term 2 of channel 1. *)
Example ramp_channel_name_ignored :
  decode_fit_item 2 ("r1_1", 7) (zero_tables 0 2) = (zero_tables 0 2, inr tt).
Proof. vm_compute. reflexivity. Qed.

Example ramp_channel_name_shifted :
  decode_fit_item 2 ("r12_1", 7) (zero_tables 0 2)
  = (record_ramp 1 2 7 (zero_tables 0 2), inr tt).
Proof. vm_compute. reflexivity. Qed.

(* ===================================================================== *)
(** ** The systematics factor *)
(* ===================================================================== *)

Lemma Rzerob_0 : Rzerob 0 = true.
Proof. unfold Rzerob. destruct (Req_dec_T 0 0); [reflexivity|contradiction]. Qed.

Lemma Rzerob_nonzero x : x <> 0 -> Rzerob x = false.
Proof.
  intros H. unfold Rzerob. destruct (Req_dec_T x 0); [contradiction|reflexivity].
Qed.

(** The polynomial trend of a single channel. *)
Lemma poly_flux_eval_one row time :
  run (poly_flux_eval 1 [row] time) []
  = inr (map (np_polyval (np_poly1d row)) (map (fun t => t - np_mean time) time)).
Proof. reflexivity. Qed.

(** The ramp trend of a single channel. *)
Lemma ramp_flux_eval_one r0 r1 r2 r3 r4 r5 t0 time :
  run (ramp_flux_eval 1 [[r0; r1; r2; r3; r4; r5]] (t0 :: time)) []
  = inr (map (fun t => r0 * exp (- r1 * t + r2) + r3 * exp (- r4 * t + r5) + 1)
             (map (fun t => t - t0) (t0 :: time))).
Proof. reflexivity. Qed.

Lemma map_constant {A B} (f : A -> B) (c : B) (l : list A) :
  (forall x, f x = c) -> map f l = replicate (length l) c.
Proof.
  intros Hf. induction l as [|x l IH]; simpl; [reflexivity|].
  rewrite Hf, IH. reflexivity.
Qed.

Lemma zip_with_Rmult_replicate n a b :
  zip_with Rmult (replicate n a) (replicate n b) = replicate n (a * b).
Proof. induction n as [|n IH]; simpl; [reflexivity|]. rewrite IH. reflexivity. Qed.

Lemma zip_with_Rmult_ones (l : list R) :
  zip_with Rmult l (replicate (length l) 1) = l.
Proof.
  induction l as [|x l IH]; simpl; [reflexivity|].
  rewrite IH. f_equal. lra.
Qed.

Lemma zip_with_Rmult_zeros (l : list R) :
  zip_with Rmult l (replicate (length l) 0) = replicate (length l) 0.
Proof.
  induction l as [|x l IH]; simpl; [reflexivity|].
  rewrite IH. f_equal. lra.
Qed.

(** A row whose only non-zero entry is the constant term 1. *)
Lemma trim_and_flip_unit_baseline :
  trim_and_flip [[1; 0; 0; 0; 0; 0; 0; 0; 0; 0]] = [[1]].
Proof.
  unfold trim_and_flip, np_all_zero_axis0. cbn [map seq forallb nth andb].
  rewrite Rzerob_0, (Rzerob_nonzero 1) by lra. reflexivity.
Qed.

(** A row of zeros loses every column. *)
Lemma trim_and_flip_zero_row :
  trim_and_flip [[0; 0; 0; 0; 0; 0; 0; 0; 0; 0]] = [[]].
Proof.
  unfold trim_and_flip, np_all_zero_axis0. cbn [map seq forallb nth andb].
  rewrite Rzerob_0. reflexivity.
Qed.

(** The ramp with all six terms zero is the constant 1. *)
Lemma ramp_flux_zero_terms time :
  time <> [] ->
  run (ramp_flux_eval 1 [[0; 0; 0; 0; 0; 0]] time) []
  = inr (replicate (length time) 1).
Proof.
  destruct time as [|t0 time]; [contradiction|]. intros _.
  rewrite ramp_flux_eval_one. f_equal.
  rewrite (map_constant _ 1) by (intros x; lra).
  rewrite length_map. reflexivity.
Qed.

(** With the constant term 1 as only coefficient the systematics factor is
    1 at every sample. *)
Lemma syseval_unit_baseline fit_dict time :
  time <> [] ->
  run (for_each fit_dict (decode_fit_item 1)) (zero_tables 0 1)
  = inr (mkTables [[1; 0; 0; 0; 0; 0; 0; 0; 0; 0]] [[0; 0; 0; 0; 0; 0]]) ->
  syseval_eval 1 fit_dict time = inr (replicate (length time) 1).
Proof.
  intros Htime Hdec. unfold syseval_eval. rewrite Hdec.
  cbn [poly_coeffs ramp_coeffs].
  rewrite trim_and_flip_unit_baseline, poly_flux_eval_one.
  rewrite (ramp_flux_zero_terms time Htime).
  f_equal. unfold np_poly1d. cbn [trim_zeros_front].
  rewrite (Rzerob_nonzero 1) by lra.
  rewrite (map_constant _ 1) by (intros x; unfold np_polyval; simpl; lra).
  rewrite !length_map, zip_with_Rmult_replicate. f_equal. lra.
Qed.

(** With every coefficient zero the systematics factor is 0 at every
    sample. *)
Lemma syseval_zero_coefficients fit_dict time :
  time <> [] ->
  run (for_each fit_dict (decode_fit_item 1)) (zero_tables 0 1)
  = inr (zero_tables 0 1) ->
  syseval_eval 1 fit_dict time = inr (replicate (length time) 0).
Proof.
  intros Htime Hdec. unfold syseval_eval. rewrite Hdec.
  unfold zero_tables. cbn [poly_coeffs ramp_coeffs replicate].
  rewrite trim_and_flip_zero_row, poly_flux_eval_one.
  rewrite (ramp_flux_zero_terms time Htime).
  f_equal. unfold np_poly1d. cbn [trim_zeros_front].
  rewrite (map_constant _ 0) by (intros x; unfold np_polyval; simpl; lra).
  rewrite !length_map, zip_with_Rmult_replicate. f_equal. lra.
Qed.

Section TotalFlux.

Variable starry_flux : starry.System -> list R -> list R.

(** C7, amended. In the single-channel scenario, when the decoded
    coefficients are the constant term c0 = 1 and zero everywhere else, the
    systematics factor is 1 at every time sample and the total flux
    [eval(eval=True)] is the astrophysical flux of the fitted system. *)
Theorem unit_baseline_systematics (fit_dict : list (string * R))
    (fit : option (namespace pyvalue)) (time phys : list R) :
  time <> [] ->
  run (for_each fit_dict (decode_fit_item 1)) (zero_tables 0 1)
  = inr (mkTables [[1; 0; 0; 0; 0; 0; 0; 0; 0; 0]] [[0; 0; 0; 0; 0; 0]]) ->
  physeval_eval starry_flux fit time = inr phys ->
  length phys = length time ->
  syseval_eval 1 fit_dict time = inr (replicate (length time) 1) /\
  eval_eval starry_flux 1 fit_dict fit time = inr phys.
Proof.
  intros Htime Hdec Hphys Hlen.
  pose proof (syseval_unit_baseline fit_dict time Htime Hdec) as Hsys.
  split; [exact Hsys|].
  unfold eval_eval. rewrite Hphys, Hsys. unfold np_mul.
  rewrite length_replicate, Hlen, Nat.eqb_refl, <- Hlen.
  f_equal. apply zip_with_Rmult_ones.
Qed.

(** With every decoded coefficient zero the total flux is 0 at every
    sample, whatever the astrophysical flux. *)
Lemma zero_coefficients_total_flux (fit_dict : list (string * R))
    (fit : option (namespace pyvalue)) (time phys : list R) :
  time <> [] ->
  run (for_each fit_dict (decode_fit_item 1)) (zero_tables 0 1)
  = inr (zero_tables 0 1) ->
  physeval_eval starry_flux fit time = inr phys ->
  length phys = length time ->
  syseval_eval 1 fit_dict time = inr (replicate (length time) 0) /\
  eval_eval starry_flux 1 fit_dict fit time = inr (replicate (length time) 0).
Proof.
  intros Htime Hdec Hphys Hlen.
  pose proof (syseval_zero_coefficients fit_dict time Htime Hdec) as Hsys.
  split; [exact Hsys|].
  unfold eval_eval. rewrite Hphys, Hsys. unfold np_mul.
  rewrite length_replicate, Hlen, Nat.eqb_refl, <- Hlen.
  f_equal. apply zip_with_Rmult_zeros.
Qed.

End TotalFlux.

(** The scenario as listed names no semi-major axis and no planet flux:
    neither builder gets as far as a system. *)
Lemma scenario_as_listed_does_not_build :
  StarryModel 1 1047 kw_scenario = inl (AttributeError "a") /\
  fit_dict_setter 1 1047 kw_scenario [] = inl (AttributeError "fp").
Proof. split; vm_compute; reflexivity. Qed.

(** C7 with the constant term c0 = 1 fitted. *)
Lemma unit_baseline_systematics_witness :
  exists fit,
    fit_dict_setter 1 1047 kw_scenario_complete [("c0", 1)] = inr fit /\
    syseval_eval 1 [("c0", 1)] [0; 1; 2] = inr [1; 1; 1] /\
    eval_eval flat_flux 1 [("c0", 1)] (Some fit) [0; 1; 2] = inr [1; 1; 1].
Proof.
  eexists. split; [vm_compute; reflexivity|].
  apply (unit_baseline_systematics flat_flux [("c0", 1)] _ [0; 1; 2] [1; 1; 1]).
  - discriminate.
  - vm_compute. reflexivity.
  - vm_compute. reflexivity.
  - reflexivity.
Defined.

(** C7 as stated fails: with no coefficient fitted, or with fitted
    coefficients that are all zero, the systematics factor is 0 at every
    sample, and the total flux is 0 where the astrophysical flux is 1. *)
Lemma zero_coefficients_factor_is_zero :
  syseval_eval 1 [] [0; 1; 2] = inr [0; 0; 0] /\
  syseval_eval 1 [("c0", 0); ("c1", 0); ("r0", 0)] [0; 1; 2] = inr [0; 0; 0] /\
  exists fit,
    fit_dict_setter 1 1047 kw_scenario_complete [] = inr fit /\
    physeval_eval flat_flux (Some fit) [0; 1; 2] = inr [1; 1; 1] /\
    eval_eval flat_flux 1 [] (Some fit) [0; 1; 2] = inr [0; 0; 0].
Proof.
  split; [|split].
  - apply (syseval_zero_coefficients [] [0; 1; 2]); [discriminate|reflexivity].
  - apply (syseval_zero_coefficients _ [0; 1; 2]);
      [discriminate | vm_compute; reflexivity].
  - eexists. split; [vm_compute; reflexivity|].
    split; [vm_compute; reflexivity|].
    apply (zero_coefficients_total_flux flat_flux [] _ [0; 1; 2] [1; 1; 1]).
    + discriminate.
    + reflexivity.
    + vm_compute. reflexivity.
    + reflexivity.
Qed.

(* ===================================================================== *)
(** ** Column trimming and the two evaluation paths *)
(* ===================================================================== *)

Lemma np_mean_012 : np_mean [0; 1; 2] = 1.
Proof. unfold np_mean. simpl. lra. Qed.

(** A lone quadratic coefficient is all that remains after trimming. *)
Lemma trim_and_flip_lone_quadratic c :
  c <> 0 -> trim_and_flip [[0; 0; c; 0; 0; 0; 0; 0; 0; 0]] = [[c]].
Proof.
  intros Hc. unfold trim_and_flip, np_all_zero_axis0.
  cbn [map seq forallb nth andb].
  rewrite Rzerob_0, (Rzerob_nonzero c Hc). reflexivity.
Qed.

(** It is then evaluated as the constant term, at any times. *)
Lemma lone_quadratic_is_constant fit_dict c time :
  c <> 0 -> time <> [] ->
  run (for_each fit_dict (decode_fit_item 1)) (zero_tables 0 1)
  = inr (mkTables [[0; 0; c; 0; 0; 0; 0; 0; 0; 0]] [[0; 0; 0; 0; 0; 0]]) ->
  syseval_eval 1 fit_dict time = inr (replicate (length time) c).
Proof.
  intros Hc Htime Hdec. unfold syseval_eval. rewrite Hdec.
  cbn [poly_coeffs ramp_coeffs].
  rewrite (trim_and_flip_lone_quadratic c Hc), poly_flux_eval_one.
  rewrite (ramp_flux_zero_terms time Htime).
  f_equal. unfold np_poly1d. cbn [trim_zeros_front].
  rewrite (Rzerob_nonzero c Hc).
  rewrite (map_constant _ c) by (intros x; unfold np_polyval; simpl; lra).
  rewrite !length_map, zip_with_Rmult_replicate. f_equal. lra.
Qed.

Lemma syseval_eval_lone_quadratic fit_dict :
  run (for_each fit_dict (decode_fit_item 1)) (zero_tables 0 1)
  = inr (mkTables [[0; 0; 5; 0; 0; 0; 0; 0; 0; 0]] [[0; 0; 0; 0; 0; 0]]) ->
  syseval_eval 1 fit_dict [0; 1; 2] = inr [5; 5; 5].
Proof.
  intros Hdec.
  apply (lone_quadratic_is_constant fit_dict 5 [0; 1; 2]);
    [lra | discriminate | exact Hdec].
Qed.

(** C4. The single-channel table c0 = 0, c1 = 0, c2 = 5 is evaluated by
    [syseval(eval=True)] as the constant 5, whereas the quadratic
    5*(t - mean(t))^2 takes the values 5, 0, 5 at the times 0, 1, 2:
    dropping the zero columns of c0 and c1 moved c2 to degree 0. *)
Theorem trimming_shifts_degrees :
  syseval_eval 1 [("c0", 0); ("c1", 0); ("c2", 5)] [0; 1; 2] = inr [5; 5; 5] /\
  map (fun t => 5 * (t - np_mean [0; 1; 2]) ^ 2) [0; 1; 2] = [5; 0; 5].
Proof.
  split.
  - apply syseval_eval_lone_quadratic. vm_compute. reflexivity.
  - rewrite np_mean_012. simpl. repeat (f_equal; try lra).
Qed.

(** C1. For the complete scenario with a free coefficient c2, evaluated
    at the parameter point c2 = 5 and at the times 0, 1, 2, the lazy build
    [syseval(eval=False)] gives the flux 5, 0, 5 and the concrete build
    [syseval(eval=True)], given the same value in [fit_dict], gives
    5, 5, 5. *)
Theorem syseval_builds_disagree :
  exists self flux,
    StarryModel 1 1047 kw_quadratic_trend = inr self /\
    syseval_lazy kw_quadratic_trend self [0; 1; 2] = inr flux /\
    (forall theta, theta "c2" = 5 -> flux_at theta flux = Some [5; 0; 5]) /\
    syseval_eval 1 [("c2", 5)] [0; 1; 2] = inr [5; 5; 5].
Proof.
  eexists. eexists. split; [vm_compute; reflexivity|].
  split; [vm_compute; reflexivity|].
  split.
  - intros theta Hc2. unfold flux_at. simpl. rewrite Hc2.
    f_equal. repeat (f_equal; try lra).
  - apply syseval_eval_lone_quadratic. vm_compute. reflexivity.
Qed.

(* ===================================================================== *)
(** ** The attributes of a built model *)
(* ===================================================================== *)

Lemma set_prior_sampled parname p s :
  set_prior parname p s
  = match sampled_tensor parname p with
    | Some t => setattr parname t s
    | None => (s, inr tt)
    end.
Proof.
  unfold set_prior, sampled_tensor, prior_table, Py.contains,
    BoundedNormal_0, BoundedNormal_90, pm_Normal, pm_Uniform.
  destruct (String.eqb (prior p) "U"); [reflexivity|].
  destruct (String.eqb (prior p) "N").
  - destruct (bool_decide (parname ∈ _)); [reflexivity|].
    destruct (bool_decide (parname ∈ ["inc"])) eqn:E.
    + apply bool_decide_eq_true in E. rewrite list_elem_of_singleton in E.
      rewrite (bool_decide_eq_true_2 _ E). reflexivity.
    + apply bool_decide_eq_false in E. rewrite list_elem_of_singleton in E.
      rewrite (bool_decide_eq_false_2 _ E). reflexivity.
  - destruct (String.eqb (prior p) "LU"); reflexivity.
Qed.

(** The loop body either raises or assigns the tensor of the row. *)
Lemma init_parameter_row kw parname s s' :
  init_parameter kw parname s = (s', inr tt) ->
  exists p, parameters kw !! parname = Some p /\
            ptype p ∈ recognized_ptypes /\
            attrs s' = match row_tensor parname p with
                       | Some t => <[parname := t]> (attrs s)
                       | None => attrs s
                       end.
Proof.
  unfold init_parameter, bind, get_parameter, row_tensor.
  destruct (parameters kw !! parname) as [p|]; [|discriminate].
  intros H. exists p. split; [reflexivity|].
  rewrite recognized_ptypes_iff.
  destruct (String.eqb_spec (ptype p) "independent") as [E1|N1].
  - injection H as <-. auto.
  - destruct (String.eqb_spec (ptype p) "fixed") as [E2|N2].
    + injection H as <-. auto.
    + unfold shape_of in H.
      destruct (String.eqb_spec (ptype p) "free") as [E3|N3].
      * split; [auto 6|].
        destruct (Nat.eqb _ _); cbv [ret] in H; rewrite set_prior_sampled in H;
          destruct (sampled_tensor parname p); injection H as <-; reflexivity.
      * destruct (String.eqb_spec (ptype p) "shared") as [E4|N4]; [|discriminate].
        split; [auto 6|].
        cbv [ret] in H. rewrite set_prior_sampled in H.
        destruct (sampled_tensor parname p); injection H as <-; reflexivity.
Qed.

(** After the loop, the attribute of every name is the one of its row. *)
Lemma loop_attributes kw l s s' :
  for_each l (init_parameter kw) s = (s', inr tt) ->
  forall n,
    attrs s' !! n
    = if bool_decide (n ∈ l) then
        match parameters kw !! n ≫= row_tensor n with
        | Some t => Some t
        | None => attrs s !! n
        end
      else attrs s !! n.
Proof.
  revert s. induction l as [|x l IH]; intros s Hrun n.
  - injection Hrun as <-. reflexivity.
  - simpl in Hrun. apply bind_inr in Hrun as (s1 & [] & Hx & Hrest).
    destruct (init_parameter_row kw x s s1 Hx) as (p & Hp & _ & Hattrs).
    rewrite (IH s1 Hrest n).
    destruct (decide (n = x)) as [->|Hne].
    + rewrite (bool_decide_eq_true_2 (x ∈ x :: l)) by left.
      rewrite Hp. simpl. rewrite Hattrs.
      destruct (row_tensor x p) as [t|].
      * rewrite lookup_insert_eq. destruct (bool_decide (x ∈ l)); reflexivity.
      * destruct (bool_decide (x ∈ l)); reflexivity.
    + assert (attrs s1 !! n = attrs s !! n) as E.
      { rewrite Hattrs. destruct (row_tensor x p); [|reflexivity].
        apply lookup_insert_ne. congruence. }
      rewrite E.
      destruct (decide (n ∈ l)) as [Hl|Hl].
      * rewrite (bool_decide_eq_true_2 _ Hl).
        rewrite (bool_decide_eq_true_2 (n ∈ x :: l)) by (right; exact Hl).
        reflexivity.
      * rewrite (bool_decide_eq_false_2 _ Hl).
        rewrite (bool_decide_eq_false_2 (n ∈ x :: l)); [reflexivity|].
        intros Hin. apply elem_of_cons in Hin as [?|?]; contradiction.
Qed.

Lemma loop_init_attribute kw s1 :
  for_each (paramtitles kw) (init_parameter kw) empty_namespace = (s1, inr tt) ->
  forall n, attrs s1 !! n = init_attribute kw n.
Proof.
  intros Hrun n. rewrite (loop_attributes kw _ _ _ Hrun n).
  unfold init_attribute. simpl. rewrite lookup_empty.
  destruct (bool_decide _); [|reflexivity].
  destruct (parameters kw !! n ≫= row_tensor n); reflexivity.
Qed.

(** The loop returns exactly on well-formed titles. *)
Lemma loop_returns_iff kw :
  (exists s1, for_each (paramtitles kw) (init_parameter kw) empty_namespace
              = (s1, inr tt))
  <-> titles_well_formed kw.
Proof.
  split.
  - intros (s1 & Hrun) n Hn.
    assert (forall l s s', for_each l (init_parameter kw) s = (s', inr tt) ->
                            n ∈ l ->
                            exists p, parameters kw !! n = Some p /\
                                      ptype p ∈ recognized_ptypes) as Hgen.
    { induction l as [|x l IH]; intros s s' H Hin; [inversion Hin|].
      simpl in H. apply bind_inr in H as (s2 & [] & Hx & Hrest).
      apply elem_of_cons in Hin as [->|Hin].
      - destruct (init_parameter_row kw x s s2 Hx) as (p & Hp & Hok & _). eauto.
      - eapply IH; eassumption. }
    eapply Hgen; eassumption.
  - intros Hwf. apply loop_runs_on_recognized_ptypes. exact Hwf.
Qed.

(* ===================================================================== *)
(** ** The stages of [__init__] *)
(* ===================================================================== *)

Lemma first_missing_None {V} (has : string -> option V) names :
  first_missing has names = None <-> forall n, n ∈ names -> is_Some (has n).
Proof.
  induction names as [|x names IH]; simpl.
  - split; [intros _ n Hn; inversion Hn | reflexivity].
  - destruct (has x) as [v|] eqn:E.
    + rewrite IH. split.
      * intros H n Hn. apply elem_of_cons in Hn as [->|Hn]; [rewrite E; eauto|auto].
      * intros H n Hn. apply H. right. exact Hn.
    + split; [discriminate|]. intros H.
      destruct (H x) as [v Hv]; [left|]. congruence.
Qed.

Lemma first_missing_Some {V} (has : string -> option V) names n :
  first_missing has names = Some n -> n ∈ names /\ has n = None.
Proof.
  induction names as [|x names IH]; simpl; [discriminate|].
  destruct (has x) as [v|] eqn:E.
  - intros H. destruct (IH H). split; [right|]; assumption.
  - intros [= <-]. split; [left|exact E].
Qed.

(** The star stage: it raises on the first of Ms and Rs that is missing,
    and otherwise sets the star. *)
Lemma init_star_outcome (s : namespace tensor) :
  match first_missing (fun n => attrs s !! n) ["Ms"; "Rs"] with
  | Some n => init_star s = (s, inl (AttributeError n))
  | None =>
      exists Ms Rs,
        attrs s !! "Ms" = Some Ms /\ attrs s !! "Rs" = Some Rs /\
        init_star s
        = (mkNamespace (attrs s)
             (Some (starry.mkPrimary
                      (starry.new_Map 0 (star_udeg (attrs s)) (tnum 1) None None)
                      Ms Rs 1))
             (u1_quadratic s) (u2_quadratic s) (ydeg s) (planet s) (sys s),
           inr tt)
  end.
Proof.
  unfold init_star, star_udeg, bind, hasattr, gets, getattr, set_star, modify, ret.
  simpl.
  destruct (attrs s !! "Ms") as [Ms|] eqn:EM; simpl.
  - destruct (attrs s !! "Rs") as [Rs|] eqn:ER; simpl.
    + exists Ms, Rs. do 2 (split; [reflexivity|]).
      destruct (bool_decide (is_Some (attrs s !! "u2"))); simpl;
        rewrite ?EM, ?ER; [reflexivity|].
      destruct (bool_decide (is_Some (attrs s !! "u1"))); simpl;
        rewrite ?EM, ?ER; reflexivity.
    + destruct (bool_decide (is_Some (attrs s !! "u2"))); simpl;
        rewrite ?EM, ?ER; [reflexivity|].
      destruct (bool_decide (is_Some (attrs s !! "u1"))); simpl;
        rewrite ?EM, ?ER; reflexivity.
  - destruct (bool_decide (is_Some (attrs s !! "u2"))); simpl;
      rewrite ?EM; [reflexivity|].
    destruct (bool_decide (is_Some (attrs s !! "u1"))); simpl;
      rewrite ?EM; reflexivity.
Qed.

Lemma is_recognized_law_iff law :
  is_recognized_law law = true <-> law ∈ recognized_laws.
Proof.
  unfold is_recognized_law. rewrite recognized_laws_iff, !orb_true_iff, !is_str_true.
  tauto.
Qed.

Ltac unfold_limb_dark :=
  unfold init_limb_dark, fit_limb_dark, star_map_setitem, get_field,
    set_u1_quadratic, set_u2_quadratic, set_star, modify, bind, get_parameter,
    getattr, ret, raise, pm_Deterministic.

(** The law stage of [__init__] on an object that has its star. *)
Lemma init_limb_dark_outcome kw (s : namespace tensor) st limb_dark :
  star s = Some st ->
  starry.Map_u (starry.Primary_map st) = ∅ ->
  parameters kw !! "limb_dark" = Some limb_dark ->
  match first_missing (fun n => attrs s !! n) (law_reads (value limb_dark)) with
  | Some n => exists s', init_limb_dark kw s = (s', inl (AttributeError n))
  | None =>
      if is_recognized_law (value limb_dark) then
        exists s' st',
          init_limb_dark kw s = (s', inr tt) /\
          attrs s' = attrs s /\ ydeg s' = ydeg s /\ planet s' = planet s /\
          sys s' = sys s /\ star s' = Some st' /\
          starry.Primary_m st' = starry.Primary_m st /\
          starry.Primary_r st' = starry.Primary_r st /\
          starry.Primary_prot st' = starry.Primary_prot st /\
          starry.Map_udeg (starry.Primary_map st')
          = starry.Map_udeg (starry.Primary_map st) /\
          starry.Map_ydeg (starry.Primary_map st')
          = starry.Map_ydeg (starry.Primary_map st) /\
          starry.Map_amp (starry.Primary_map st')
          = starry.Map_amp (starry.Primary_map st) /\
          starry.Map_inc (starry.Primary_map st')
          = starry.Map_inc (starry.Primary_map st) /\
          starry.Map_obl (starry.Primary_map st')
          = starry.Map_obl (starry.Primary_map st) /\
          starry.Map_y (starry.Primary_map st')
          = starry.Map_y (starry.Primary_map st) /\
          starry.Map_u (starry.Primary_map st')
          = init_limb_coefficients (value limb_dark)
              (default (tnum 0) (attrs s !! "u1"))
              (default (tnum 0) (attrs s !! "u2"))
      else init_limb_dark kw s
           = (s, inl (ValueError (LimbDarkNotHandled (value limb_dark))))
  end.
Proof.
  intros Hst Hu Hp. unfold law_reads, init_limb_coefficients.
  destruct (is_str (value limb_dark) "kipping2013") eqn:E1;
    [|destruct (is_str (value limb_dark) "quadratic") eqn:E2;
      [|destruct (is_str (value limb_dark) "linear") eqn:E3]].
  - pose proof (proj1 (is_str_true _ _) E1) as Hv.
    unfold is_recognized_law. rewrite ?E1, ?E2, ?E3. cbn [orb].
    simpl. unfold_limb_dark. rewrite Hp, E1.
    destruct (attrs s !! "u1") as [u1|] eqn:Hu1; [|eauto].
    destruct (attrs s !! "u2") as [u2|] eqn:Hu2; [|eauto].
    repeat (simpl; rewrite ?Hu1, ?Hu2, ?Hst).
    do 2 eexists. split; [reflexivity|]. simpl.
    do 14 (split; [reflexivity|]). simpl. rewrite Hu. reflexivity.
  - pose proof (proj1 (is_str_true _ _) E2) as Hv.
    unfold is_recognized_law. rewrite ?E1, ?E2, ?E3. cbn [orb].
    simpl. unfold_limb_dark. rewrite Hp, E1, E2.
    destruct (attrs s !! "u1") as [u1|] eqn:Hu1; [|eauto].
    destruct (attrs s !! "u2") as [u2|] eqn:Hu2.
    + repeat (simpl; rewrite ?Hu1, ?Hu2, ?Hst).
      do 2 eexists. split; [reflexivity|]. simpl.
      do 14 (split; [reflexivity|]). simpl. rewrite Hu. reflexivity.
    + repeat (simpl; rewrite ?Hu1, ?Hu2, ?Hst). eauto.
  - pose proof (proj1 (is_str_true _ _) E3) as Hv.
    unfold is_recognized_law. rewrite ?E1, ?E2, ?E3. cbn [orb].
    simpl. unfold_limb_dark. rewrite Hp, E1, E2, E3.
    destruct (attrs s !! "u1") as [u1|] eqn:Hu1; [|eauto].
    repeat (simpl; rewrite ?Hu1, ?Hst).
    do 2 eexists. split; [reflexivity|]. simpl.
    do 14 (split; [reflexivity|]). simpl. rewrite Hu. reflexivity.
  - simpl. unfold_limb_dark. rewrite Hp, E1, E2, E3.
    destruct (is_str (value limb_dark) "uniform") eqn:E4; simpl.
    + unfold is_recognized_law. rewrite E1, E2, E3, E4. cbn [orb].
      exists s, st. rewrite Hu. repeat split; (assumption || reflexivity).
    + unfold is_recognized_law. rewrite E1, E2, E3, E4. reflexivity.
Qed.

(* ===================================================================== *)
(** ** Running a stage step by step *)
(* ===================================================================== *)

Lemma getattr_Some {V} (s : namespace V) n v :
  attrs s !! n = Some v -> getattr n s = (s, inr v).
Proof. intros H. unfold getattr. rewrite H. reflexivity. Qed.

Lemma getattr_None {V} (s : namespace V) n :
  attrs s !! n = None -> getattr n s = (s, inl (AttributeError n)).
Proof. intros H. unfold getattr. rewrite H. reflexivity. Qed.

Lemma hasattr_eq {V} (s : namespace V) n :
  hasattr n s = (s, inr (bool_decide (is_Some (attrs s !! n)))).
Proof. reflexivity. Qed.

Lemma get_field_Some {V A} (field : namespace V -> option A) fname s x :
  field s = Some x -> get_field field fname s = (s, inr x).
Proof. intros H. unfold get_field. rewrite H. reflexivity. Qed.

Lemma has_Some {V} (a : gmap string V) n v :
  a !! n = Some v -> bool_decide (is_Some (a !! n)) = true.
Proof. intros H. apply bool_decide_eq_true. eauto. Qed.

Lemma has_None {V} (a : gmap string V) n :
  a !! n = None -> bool_decide (is_Some (a !! n)) = false.
Proof. intros H. apply bool_decide_eq_false. rewrite H. intros [? ?]. discriminate. Qed.

(** One step of a computation whose first action returns. *)
Ltac py_ok :=
  first
    [ erewrite bind_ok by (apply getattr_Some; simpl; eassumption)
    | erewrite bind_ok by (apply hasattr_eq)
    | erewrite bind_ok by (apply get_field_Some; simpl; reflexivity)
    | erewrite bind_ok by reflexivity ];
  cbv beta.

Ltac py_raise :=
  first
    [ apply bind_raise, getattr_None; simpl; eassumption
    | apply getattr_None; simpl; eassumption ].

(** The degree stage sets [ydeg] to the degree the attributes call for. *)
Lemma init_ydeg_eq {V} (s : namespace V) :
  init_ydeg s
  = (mkNamespace (attrs s) (star s) (u1_quadratic s) (u2_quadratic s)
       (Some (planet_ydeg (attrs s))) (planet s) (sys s), inr tt).
Proof.
  unfold init_ydeg, planet_ydeg. do 2 py_ok.
  destruct (_ || _); [reflexivity|]. do 2 py_ok.
  destruct (_ || _); reflexivity.
Qed.

Lemma amp_or_zero_eq (s : namespace tensor) :
  (has_fp <- hasattr "fp" ;;
   if has_fp then getattr "fp" else ret (tnum 0))%py s
  = (s, inr (default (tnum 0) (attrs s !! "fp"))).
Proof.
  destruct (attrs s !! "fp") as [fp|] eqn:E; py_ok.
  - rewrite (has_Some _ _ _ E). apply getattr_Some, E.
  - rewrite (has_None _ _ E). reflexivity.
Qed.

Section PlanetStage.

Variables (M_jup M_sun : R).

(** The planet stage of [__init__]: it raises on the first attribute it
    cannot read, and otherwise sets the degree and the planet. *)
Lemma init_planet_outcome (s : namespace tensor) :
  let get n := default (tnum 0) (attrs s !! n) in
  match first_missing (fun n => attrs s !! n) init_planet_reads with
  | Some n => exists s', init_planet M_jup M_sun s = (s', inl (AttributeError n))
  | None =>
      init_planet M_jup M_sun s
      = (mkNamespace (attrs s) (star s) (u1_quadratic s) (u2_quadratic s)
           (Some (planet_ydeg (attrs s)))
           (Some (starry.mkSecondary
                    (starry.new_Map (planet_ydeg (attrs s)) 0 (get "fp")
                       (Some 90) (Some 0))
                    (TDiv (TMul (get "Mp") (tnum M_jup)) (tnum M_sun))
                    (TMul (get "rp") (get "Rs"))
                    (attrs s !! "a") (attrs s !! "per") (attrs s !! "per")
                    (get "inc") (get "ecc") (get "w") None None))
           (sys s),
         inr tt)
  end.
Proof.
  intros get. subst get. unfold init_planet_reads, first_missing.
  unfold init_planet.
  erewrite bind_ok by (apply init_ydeg_eq). cbv beta.
  erewrite bind_ok by (apply amp_or_zero_eq). cbv beta.
  py_ok. simpl attrs.
  destruct (attrs s !! "Mp") as [Mp|] eqn:EMp; [py_ok|eexists; py_raise].
  destruct (attrs s !! "rp") as [rp|] eqn:Erp; [py_ok|eexists; py_raise].
  destruct (attrs s !! "Rs") as [Rs|] eqn:ERs; [py_ok|eexists; py_raise].
  destruct (attrs s !! "a") as [a|] eqn:Ea; [py_ok|eexists; py_raise].
  destruct (attrs s !! "inc") as [inc|] eqn:Einc; [py_ok|eexists; py_raise].
  destruct (attrs s !! "ecc") as [ecc|] eqn:Eecc; [py_ok|eexists; py_raise].
  destruct (attrs s !! "w") as [w|] eqn:Ew; [py_ok|eexists; py_raise].
  unfold set_planet at 1. py_ok.
  destruct (attrs s !! "per") as [per|] eqn:Eper; [py_ok|eexists; py_raise].
  unfold update_planet. py_ok. unfold set_planet at 1. py_ok. py_ok. py_ok.
  reflexivity.
Qed.

End PlanetStage.

Lemma update_planet_eq {V} (s : namespace V) f pl :
  planet s = Some pl ->
  update_planet f s
  = (mkNamespace (attrs s) (star s) (u1_quadratic s) (u2_quadratic s) (ydeg s)
       (Some (f pl)) (sys s), inr tt).
Proof.
  intros Hpl. unfold update_planet.
  erewrite bind_ok by (apply get_field_Some; exact Hpl). reflexivity.
Qed.

Lemma planet_map_from_attr_eq {V} (lift : V -> tensor) (s : namespace V)
    attr l m pl :
  planet s = Some pl ->
  planet_map_from_attr lift attr l m s
  = (mkNamespace (attrs s) (star s) (u1_quadratic s) (u2_quadratic s) (ydeg s)
       (Some (set_harmonic lift (attrs s) attr l m pl)) (sys s), inr tt).
Proof.
  intros Hpl. unfold planet_map_from_attr, set_harmonic, update_planet.
  destruct (attrs s !! attr) as [x|] eqn:E; py_ok.
  - rewrite (has_Some _ _ _ E). py_ok. apply update_planet_eq, Hpl.
  - rewrite (has_None _ _ E). destruct s. simpl in *. rewrite Hpl. reflexivity.
Qed.

(** The amplitude stage never raises on an object that has its planet and
    its degree. *)
Lemma init_planet_map_eq {V} (lift : V -> tensor) (s : namespace V) pl yd :
  planet s = Some pl -> ydeg s = Some yd ->
  init_planet_map lift s
  = (mkNamespace (attrs s) (star s) (u1_quadratic s) (u2_quadratic s) (ydeg s)
       (Some (starry.set_tref 0
                (starry.set_theta0 180 (apply_harmonics lift (attrs s) yd pl))))
       (sys s), inr tt).
Proof.
  intros Hpl Hyd. unfold init_planet_map, apply_harmonics.
  erewrite bind_ok by (apply planet_map_from_attr_eq; exact Hpl). cbv beta.
  erewrite bind_ok by (apply planet_map_from_attr_eq; reflexivity). cbv beta.
  erewrite bind_ok by (apply get_field_Some; simpl; exact Hyd). cbv beta.
  simpl attrs. destruct (Nat.eqb yd 2).
  - erewrite bind_ok.
    2:{ erewrite bind_ok by (apply planet_map_from_attr_eq; reflexivity).
        cbv beta. apply planet_map_from_attr_eq. reflexivity. }
    cbv beta. erewrite bind_ok by (apply update_planet_eq; reflexivity).
    cbv beta. erewrite update_planet_eq by reflexivity. reflexivity.
  - py_ok. erewrite bind_ok by (apply update_planet_eq; reflexivity).
    cbv beta. erewrite update_planet_eq by reflexivity. reflexivity.
Qed.

Lemma init_sys_eq {V} (s : namespace V) st pl :
  star s = Some st -> planet s = Some pl ->
  init_sys s
  = (mkNamespace (attrs s) (star s) (u1_quadratic s) (u2_quadratic s) (ydeg s)
       (planet s) (Some (starry.mkSystem st pl)), inr tt).
Proof.
  intros Hst Hpl. unfold init_sys.
  erewrite bind_ok by (apply get_field_Some; exact Hst). cbv beta.
  erewrite bind_ok by (apply get_field_Some; exact Hpl). reflexivity.
Qed.

Lemma init_sys_raises {V} (s s' : namespace V) e :
  init_sys s = (s', inl e) -> star s = None \/ planet s = None.
Proof.
  unfold init_sys, bind, get_field.
  destruct (star s); [|auto]. destruct (planet s); [discriminate|auto].
Qed.

(** The harmonic coefficients the amplitude stage leaves in the map. *)
Lemma apply_harmonics_map {V} (lift : V -> tensor) (a : gmap string V) pl :
  starry.Map_y (starry.Secondary_map pl) = ∅ ->
  let pl' := apply_harmonics lift a (planet_ydeg a) pl in
  let y := starry.Map_y (starry.Secondary_map pl') in
  y !! (1%nat, 0%nat) = lift <$> a !! "AmpCos1" /\
  y !! (1%nat, 1%nat) = lift <$> a !! "AmpSin1" /\
  y !! (2%nat, 0%nat) = lift <$> a !! "AmpCos2" /\
  y !! (2%nat, 1%nat) = lift <$> a !! "AmpSin2" /\
  (forall l m, (1 <= l <= 2)%nat /\ (m <= 1)%nat \/ y !! (l, m) = None).
Proof.
  intros Hy. unfold apply_harmonics, planet_ydeg, set_harmonic.
  destruct (a !! "AmpCos1") as [c1|] eqn:E1;
    destruct (a !! "AmpSin1") as [s1|] eqn:E2;
    destruct (a !! "AmpCos2") as [c2|] eqn:E3;
    destruct (a !! "AmpSin2") as [s2|] eqn:E4;
    rewrite ?(bool_decide_eq_true_2 (is_Some (Some _))) by eauto;
    rewrite ?(bool_decide_eq_false_2 (is_Some None))
      by (intros [? ?]; discriminate);
    simpl; rewrite ?Hy;
    (split; [|split; [|split; [|split]]]);
    try (repeat first [rewrite lookup_insert_eq
                      | rewrite lookup_insert_ne by congruence];
         rewrite ?lookup_empty; reflexivity);
    (intros l m;
     destruct (decide ((1 <= l <= 2)%nat /\ (m <= 1)%nat)) as [Hin|Hout];
     [left; exact Hin | right];
     rewrite ?lookup_insert_ne by (intros [= <- <-]; apply Hout; lia);
     apply lookup_empty).
Qed.

Lemma law_served_iff {V} kw (has : string -> option V) :
  law_served kw has <->
  exists limb_dark,
    parameters kw !! "limb_dark" = Some limb_dark /\
    is_recognized_law (value limb_dark) = true /\
    first_missing has (law_reads (value limb_dark)) = None.
Proof.
  unfold law_served. split.
  - intros (ld & Hp & Hlaw). exists ld. split; [exact Hp|].
    unfold is_recognized_law, law_reads.
    destruct Hlaw as [Hv | [[Hv H1] | [[Hv|Hv] [H1 H2]]]]; rewrite Hv; simpl;
      destruct H1 as [x1 E1] || idtac; try destruct H2 as [x2 E2];
      rewrite ?E1, ?E2; auto.
  - intros (ld & Hp & Hrec & Hmiss). exists ld. split; [exact Hp|].
    unfold is_recognized_law, law_reads in *.
    rewrite first_missing_None in Hmiss.
    destruct (is_str (value ld) "kipping2013") eqn:E1;
      [|destruct (is_str (value ld) "quadratic") eqn:E2;
        [|destruct (is_str (value ld) "linear") eqn:E3]].
    + apply is_str_true in E1. right. right.
      split; [auto|]. split; apply Hmiss; [left | right; left].
    + apply is_str_true in E2. right. right.
      split; [auto|]. split; apply Hmiss; [left | right; left].
    + apply is_str_true in E3. right. left.
      split; [auto|]. apply Hmiss. left.
    + simpl in Hrec. apply is_str_true in Hrec. left. exact Hrec.
Qed.

Section BuiltModel.

Variables (M_jup M_sun : R).

(** The model [__init__] returns, from the attributes the loop assigned. *)
Lemma StarryModel_init_after_loop kw s1 limb_dark :
  (forall n, n ∈ required -> n ∈ paramtitles kw) ->
  for_each (paramtitles kw) (init_parameter kw) empty_namespace = (s1, inr tt) ->
  first_missing (fun n => attrs s1 !! n) ["Ms"; "Rs"] = None ->
  parameters kw !! "limb_dark" = Some limb_dark ->
  is_recognized_law (value limb_dark) = true ->
  first_missing (fun n => attrs s1 !! n) (law_reads (value limb_dark)) = None ->
  first_missing (fun n => attrs s1 !! n) init_planet_reads = None ->
  let a := attrs s1 in
  let get n := default (tnum 0) (a !! n) in
  exists st pl u1q u2q,
    st = starry.mkPrimary
           (starry.mkMap 0 (star_udeg a) (tnum 1) None None
              (init_limb_coefficients (value limb_dark) (get "u1") (get "u2")) ∅)
           (get "Ms") (get "Rs") 1 /\
    pl = starry.set_tref 0
           (starry.set_theta0 180
              (apply_harmonics (fun x => x) a (planet_ydeg a)
                 (starry.mkSecondary
                    (starry.new_Map (planet_ydeg a) 0 (get "fp") (Some 90) (Some 0))
                    (TDiv (TMul (get "Mp") (tnum M_jup)) (tnum M_sun))
                    (TMul (get "rp") (get "Rs"))
                    (a !! "a") (a !! "per") (a !! "per")
                    (get "inc") (get "ecc") (get "w") None None))) /\
    StarryModel M_jup M_sun kw
    = inr (mkNamespace a (Some st) u1q u2q (Some (planet_ydeg a)) (Some pl)
             (Some (starry.mkSystem st pl))).
Proof.
  intros Hreq Hloop Hstar Hp Hrec Hlaw Hplanet a get.
  pose proof (init_star_outcome s1) as Ostar. rewrite Hstar in Ostar.
  destruct Ostar as (Ms & Rs & EMs & ERs & Estar).
  set (s2 := mkNamespace (attrs s1) _ _ _ _ _ _) in Estar.
  pose proof (init_limb_dark_outcome kw s2 _ limb_dark eq_refl eq_refl Hp) as Olaw.
  simpl attrs in Olaw. rewrite Hlaw, Hrec in Olaw.
  destruct Olaw as (s3 & st & Elaw & A3 & Y3 & P3 & S3 & St3 & Hm & Hr & Hprot &
                    Hud & Hyd & Hamp & Hinc & Hobl & Hy & Hu).
  pose proof (init_planet_outcome M_jup M_sun s3) as Oplanet. cbv zeta in Oplanet.
  rewrite A3 in Oplanet. simpl attrs in Oplanet. rewrite Hplanet in Oplanet.
  set (s4 := mkNamespace (attrs s1) _ _ _ _ _ _) in Oplanet.
  pose proof (init_planet_map_eq (fun x : tensor => x) s4 _ _ eq_refl eq_refl)
    as Omap.
  set (s5 := mkNamespace (attrs s4) _ _ _ _ _ _) in Omap.
  assert (star s5 = Some st) as Hst5 by exact St3.
  pose proof (init_sys_eq s5 st _ Hst5 eq_refl) as Osys.
  exists st. eexists. exists (u1_quadratic s3), (u2_quadratic s3).
  split.
  { unfold get, a. rewrite EMs, ERs. simpl default.
    destruct st as [[yd ud amp inc obl u y] m r prot]. simpl in *.
    congruence. }
  split; [reflexivity|].
  unfold StarryModel, StarryModel_init.
  erewrite bind_ok by (apply check_required_present, Hreq).
  erewrite bind_ok by exact Hloop.
  erewrite bind_ok by exact Estar.
  erewrite bind_ok by exact Elaw.
  erewrite bind_ok by exact Oplanet.
  erewrite bind_ok by exact Omap.
  rewrite Osys. subst s5 s4. simpl. rewrite St3. reflexivity.
Qed.

End BuiltModel.

Lemma first_missing_ext {V} (has has' : string -> option V) names :
  (forall n, has n = has' n) ->
  first_missing has names = first_missing has' names.
Proof.
  intros E. induction names as [|x names IH]; simpl; [reflexivity|].
  rewrite E, IH. reflexivity.
Qed.

Lemma check_required_returns {S} (kw : kwargs) (s s' : S) :
  check_required kw s = (s', inr tt) ->
  s' = s /\ forall n, n ∈ required -> n ∈ paramtitles kw.
Proof.
  intros H. split.
  - unfold check_required in H. destruct (np_any _); [discriminate|].
    injection H as <-. reflexivity.
  - intros n Hn. destruct (decide (n ∈ paramtitles kw)) as [Hin|Hout]; [exact Hin|].
    rewrite check_required_missing in H by eauto. discriminate.
Qed.

Lemma init_limb_dark_no_row kw (s : namespace tensor) :
  parameters kw !! "limb_dark" = None ->
  init_limb_dark kw s = (s, inl (AttributeError "limb_dark")).
Proof.
  intros H. unfold init_limb_dark. apply bind_raise.
  unfold get_parameter. rewrite H. reflexivity.
Qed.

Section BuildOutcome.

Variables (M_jup M_sun : R).

Lemma StarryModel_raises kw s e :
  StarryModel_init M_jup M_sun kw empty_namespace = (s, inl e) ->
  StarryModel M_jup M_sun kw = inl e.
Proof. intros H. apply StarryModel_inl. eauto. Qed.

(** What [__init__] does, stage by stage, once the required names are
    listed and the loop over the names can run. *)
Lemma StarryModel_outcome kw :
  (forall n, n ∈ required -> n ∈ paramtitles kw) ->
  titles_well_formed kw ->
  match first_missing (init_attribute kw) ["Ms"; "Rs"] with
  | Some n => StarryModel M_jup M_sun kw = inl (AttributeError n)
  | None =>
      match parameters kw !! "limb_dark" with
      | None => StarryModel M_jup M_sun kw = inl (AttributeError "limb_dark")
      | Some limb_dark =>
          match first_missing (init_attribute kw) (law_reads (value limb_dark)) with
          | Some n => StarryModel M_jup M_sun kw = inl (AttributeError n)
          | None =>
              if is_recognized_law (value limb_dark) then
                match first_missing (init_attribute kw) init_planet_reads with
                | Some n => StarryModel M_jup M_sun kw = inl (AttributeError n)
                | None =>
                    exists self,
                      StarryModel M_jup M_sun kw = inr self /\
                      is_init_model M_jup M_sun kw (value limb_dark) self
                end
              else StarryModel M_jup M_sun kw
                   = inl (ValueError (LimbDarkNotHandled (value limb_dark)))
          end
      end
  end.
Proof.
  intros Hreq Hwf.
  destruct (proj2 (loop_returns_iff kw) Hwf) as (s1 & Hloop).
  pose proof (loop_init_attribute kw s1 Hloop) as Hattrs.
  assert (forall names, first_missing (init_attribute kw) names
                        = first_missing (fun n => attrs s1 !! n) names) as Hfm.
  { intros names. apply first_missing_ext. intros n. symmetry. apply Hattrs. }
  assert (StarryModel_init M_jup M_sun kw empty_namespace
          = (init_star ;;; init_limb_dark kw ;;; init_planet M_jup M_sun ;;;
             init_planet_map (fun x => x) ;;; init_sys)%py s1) as Hrun.
  { unfold StarryModel_init.
    erewrite bind_ok by (apply check_required_present, Hreq).
    erewrite bind_ok by exact Hloop. reflexivity. }
  rewrite !Hfm.
  pose proof (init_star_outcome s1) as Ostar.
  destruct (first_missing _ ["Ms"; "Rs"]) as [n|] eqn:Hstar.
  { eapply StarryModel_raises. rewrite Hrun. apply bind_raise. exact Ostar. }
  destruct Ostar as (Ms & Rs & EMs & ERs & Estar).
  set (s2 := mkNamespace (attrs s1) _ _ _ _ _ _) in Estar.
  erewrite bind_ok in Hrun by exact Estar.
  destruct (parameters kw !! "limb_dark") as [limb_dark|] eqn:Hp.
  2:{ eapply StarryModel_raises. rewrite Hrun. apply bind_raise.
      apply init_limb_dark_no_row. exact Hp. }
  rewrite !Hfm.
  pose proof (init_limb_dark_outcome kw s2 _ limb_dark eq_refl eq_refl Hp) as Olaw.
  simpl attrs in Olaw.
  destruct (first_missing _ (law_reads _)) as [n|] eqn:Hlaw.
  { destruct Olaw as (s' & Olaw).
    eapply StarryModel_raises. rewrite Hrun. apply bind_raise. exact Olaw. }
  destruct (is_recognized_law (value limb_dark)) eqn:Hrec.
  2:{ eapply StarryModel_raises. rewrite Hrun. apply bind_raise. exact Olaw. }
  destruct (first_missing _ init_planet_reads) as [n|] eqn:Hplanet.
  { destruct Olaw as (s3 & st & Elaw & A3 & _).
    erewrite bind_ok in Hrun by exact Elaw.
    pose proof (init_planet_outcome M_jup M_sun s3) as Oplanet. cbv zeta in Oplanet.
    rewrite A3 in Oplanet. simpl attrs in Oplanet. rewrite Hplanet in Oplanet.
    destruct Oplanet as (s' & Oplanet).
    eapply StarryModel_raises. rewrite Hrun. apply bind_raise. exact Oplanet. }
  destruct (StarryModel_init_after_loop M_jup M_sun kw s1 limb_dark
              Hreq Hloop Hstar Hp Hrec Hlaw Hplanet)
    as (st & pl & u1q & u2q & Est & Epl & Hbuilt).
  eexists. split; [exact Hbuilt|].
  unfold is_init_model, init_star_of, init_planet_of. simpl.
  split; [exact Hattrs|]. subst st pl. repeat split; reflexivity.
Qed.

(** A run of [__init__] that returns has passed the two checks. *)
Lemma StarryModel_returns kw self :
  StarryModel M_jup M_sun kw = inr self ->
  (forall n, n ∈ required -> n ∈ paramtitles kw) /\ titles_well_formed kw.
Proof.
  intros H. apply StarryModel_inr in H. unfold StarryModel_init in H.
  apply bind_inr in H as (s0 & [] & H0 & H).
  apply bind_inr in H as (s1 & [] & H1 & H).
  apply check_required_returns in H0 as [-> Hreq].
  split; [exact Hreq|]. apply loop_returns_iff. eauto.
Qed.

(** The object of a run that returns, and the conditions it has met. *)
Lemma StarryModel_built kw self :
  StarryModel M_jup M_sun kw = inr self ->
  exists limb_dark,
    parameters kw !! "limb_dark" = Some limb_dark /\
    is_recognized_law (value limb_dark) = true /\
    first_missing (init_attribute kw) ["Ms"; "Rs"] = None /\
    first_missing (init_attribute kw) (law_reads (value limb_dark)) = None /\
    first_missing (init_attribute kw) init_planet_reads = None /\
    is_init_model M_jup M_sun kw (value limb_dark) self.
Proof.
  intros H. destruct (StarryModel_returns kw self H) as [Hreq Hwf].
  pose proof (StarryModel_outcome kw Hreq Hwf) as O.
  destruct (first_missing _ ["Ms"; "Rs"]) eqn:E1; [congruence|].
  destruct (parameters kw !! "limb_dark") as [limb_dark|]; [|congruence].
  destruct (first_missing _ (law_reads _)) eqn:E2; [congruence|].
  destruct (is_recognized_law _) eqn:E3; [|congruence].
  destruct (first_missing _ init_planet_reads) eqn:E4; [congruence|].
  destruct O as (self' & E & Hmodel).
  exists limb_dark. do 5 (split; [reflexivity || assumption|]).
  replace self with self' by congruence. exact Hmodel.
Qed.

End BuildOutcome.

(* ===================================================================== *)
(** ** Properties of [StarryModel.__init__] *)
(* ===================================================================== *)

Lemma init_attribute_listed kw n :
  is_Some (init_attribute kw n) -> n ∈ paramtitles kw.
Proof.
  unfold init_attribute. destruct (decide (n ∈ paramtitles kw)) as [H|H].
  - intros _. exact H.
  - rewrite (bool_decide_eq_false_2 _ H). intros [? ?]. discriminate.
Qed.

Lemma init_reads_split {V} (has : string -> option V) :
  (forall n, n ∈ init_reads -> is_Some (has n)) <->
  first_missing has ["Ms"; "Rs"] = None /\
  first_missing has init_planet_reads = None.
Proof.
  rewrite !first_missing_None. unfold init_reads, init_planet_reads.
  split.
  - intros H. split; intros n Hn; apply H;
      rewrite !elem_of_cons, elem_of_nil in *; tauto.
  - intros [H1 H2] n Hn.
    destruct (decide (n = "Ms")) as [->|Hne]; [apply H1; left|].
    apply H2. rewrite !elem_of_cons, elem_of_nil in *. tauto.
Qed.

Section BuildTheorems.

Variables (M_jup M_sun : R).

(** X1. On a table whose listed names are parameter names, each listed
    once, so that no [setattr] of the loop meets a property of the class,
    [__init__] returns a model exactly when every listed name has a row of
    a recognized [ptype], the nine attributes the star and the planet read
    (Ms, Rs, Mp, rp, a, inc, ecc, w, per) have been assigned by the loop,
    and the law is one of the four with the coefficients it reads assigned
    as well. *)
Theorem init_returns_iff kw :
  titles_are_parameters kw ->
  ((exists self, StarryModel M_jup M_sun kw = inr self) <->
   titles_well_formed kw /\
   (forall n, n ∈ init_reads -> is_Some (init_attribute kw n)) /\
   law_served kw (init_attribute kw)).
Proof.
  intros _.
  rewrite init_reads_split, law_served_iff. split.
  - intros (self & H).
    destruct (StarryModel_returns M_jup M_sun kw self H) as [_ Hwf].
    destruct (StarryModel_built M_jup M_sun kw self H)
      as (ld & Hp & Hrec & H1 & H2 & H3 & _).
    split; [exact Hwf|]. split; [split; assumption|]. eauto.
  - intros (Hwf & [H1 H3] & ld & Hp & Hrec & H2).
    assert (forall n, n ∈ required -> n ∈ paramtitles kw) as Hreq.
    { intros n Hn. apply init_attribute_listed.
      pose proof (proj1 (first_missing_None _ _) H1) as A1.
      pose proof (proj1 (first_missing_None _ _) H3) as A3.
      unfold required in Hn. rewrite !elem_of_cons, elem_of_nil in Hn.
      destruct Hn as [->|[->|[->|[]]]].
      - apply A1. left.
      - apply A3. left.
      - apply A1. right. left. }
    pose proof (StarryModel_outcome M_jup M_sun kw Hreq Hwf) as O.
    rewrite H1, Hp, H2, Hrec, H3 in O.
    destruct O as (self & E & _). eauto.
Qed.

(** X2. The exception of a failing [__init__], once the required names are
    listed and the loop can run: the [AttributeError] of the first
    attribute that a stage cannot read, in the order star (Ms, Rs), law
    (the row limb_dark, then u1, u2), planet (Mp, rp, Rs, a, inc, ecc, w,
    per); the [ValueError] of the law comes after the coefficients of the
    law and before the planet. *)
Theorem init_first_failure kw :
  (forall n, n ∈ required -> n ∈ paramtitles kw) ->
  titles_well_formed kw ->
  match first_missing (init_attribute kw) ["Ms"; "Rs"] with
  | Some n => StarryModel M_jup M_sun kw = inl (AttributeError n)
  | None =>
      match parameters kw !! "limb_dark" with
      | None => StarryModel M_jup M_sun kw = inl (AttributeError "limb_dark")
      | Some limb_dark =>
          match first_missing (init_attribute kw) (law_reads (value limb_dark)) with
          | Some n => StarryModel M_jup M_sun kw = inl (AttributeError n)
          | None =>
              if is_recognized_law (value limb_dark) then
                match first_missing (init_attribute kw) init_planet_reads with
                | Some n => StarryModel M_jup M_sun kw = inl (AttributeError n)
                | None => exists self, StarryModel M_jup M_sun kw = inr self
                end
              else StarryModel M_jup M_sun kw
                   = inl (ValueError (LimbDarkNotHandled (value limb_dark)))
          end
      end
  end.
Proof.
  intros Hreq Hwf.
  pose proof (StarryModel_outcome M_jup M_sun kw Hreq Hwf) as O.
  destruct (first_missing _ ["Ms"; "Rs"]); [exact O|].
  destruct (parameters kw !! "limb_dark") as [limb_dark|]; [|exact O].
  destruct (first_missing _ (law_reads _)); [exact O|].
  destruct (is_recognized_law _); [|exact O].
  destruct (first_missing _ init_planet_reads); [exact O|].
  destruct O as (self & E & _). eauto.
Qed.

(** X3. The attributes a built model holds under the parameter names,
    the names that neither the class nor the builder binds, are those of
    the rows, name by name: the constant of a fixed row, the random
    variable of a free or shared row with a prior code U, N or LU, and no
    attribute for an independent row, for another prior code, and for a
    name that is not listed. *)
Theorem built_model_attributes kw self :
  StarryModel M_jup M_sun kw = inr self ->
  forall n,
    is_parameter_name n = true ->
    attrs self !! n
    = if bool_decide (n ∈ paramtitles kw) then
        p ← parameters kw !! n;
        if String.eqb (ptype p) "independent" then None
        else if String.eqb (ptype p) "fixed" then Some (TConst (value p))
        else if String.eqb (prior p) "U"
             then Some (prior_table uniform n (priorpar1 p) (priorpar2 p))
        else if String.eqb (prior p) "N"
             then Some (prior_table normal n (priorpar1 p) (priorpar2 p))
        else if String.eqb (prior p) "LU"
             then Some (prior_table log_uniform n (priorpar1 p) (priorpar2 p))
        else None
      else None.
Proof.
  intros H n _.
  destruct (StarryModel_built M_jup M_sun kw self H)
    as (ld & _ & _ & _ & _ & _ & Hattrs & _).
  rewrite Hattrs. reflexivity.
Qed.

(** X4. The star of a built model: mass Ms, radius Rs, rotation period 1,
    amplitude 1, and a map whose limb-darkening degree follows the
    attributes (2 with u2, else 1 with u1, else 0), whatever the law. *)
Theorem built_model_star kw self :
  StarryModel M_jup M_sun kw = inr self ->
  exists st,
    star self = Some st /\
    attrs self !! "Ms" = Some (starry.Primary_m st) /\
    attrs self !! "Rs" = Some (starry.Primary_r st) /\
    starry.Primary_prot st = 1 /\
    starry.Map_amp (starry.Primary_map st) = tnum 1 /\
    starry.Map_ydeg (starry.Primary_map st) = 0%nat /\
    starry.Map_y (starry.Primary_map st) = ∅ /\
    starry.Map_udeg (starry.Primary_map st)
    = if bool_decide (is_Some (attrs self !! "u2")) then 2%nat
      else if bool_decide (is_Some (attrs self !! "u1")) then 1%nat else 0%nat.
Proof.
  intros H.
  destruct (StarryModel_built M_jup M_sun kw self H)
    as (ld & _ & _ & H1 & _ & _ & Hattrs & Hst & _).
  eexists. split; [exact Hst|]. simpl.
  rewrite (first_missing_ext _ (fun n => attrs self !! n)) in H1
    by (intros n; symmetry; apply Hattrs).
  simpl in H1.
  destruct (attrs self !! "Ms") as [Ms|]; [|discriminate].
  destruct (attrs self !! "Rs") as [Rs|]; [|discriminate].
  repeat split; reflexivity.
Qed.

(** X5. The limb-darkening coefficients of the star of a built model, law
    by law: none under uniform, u1 at index 1 under linear, u1 and u2 at
    indices 1 and 2 under quadratic; and under every law the indices that
    are set lie between 1 and the degree of the map. *)
Theorem built_model_limb_coefficients kw self :
  StarryModel M_jup M_sun kw = inr self ->
  exists limb_dark st,
    parameters kw !! "limb_dark" = Some limb_dark /\
    star self = Some st /\
    let u := starry.Map_u (starry.Primary_map st) in
    (value limb_dark = VStr "uniform" -> u = ∅) /\
    (value limb_dark = VStr "linear" ->
     exists u1, attrs self !! "u1" = Some u1 /\ u = {[ 1%nat := u1 ]}) /\
    (value limb_dark = VStr "quadratic" ->
     exists u1 u2, attrs self !! "u1" = Some u1 /\ attrs self !! "u2" = Some u2 /\
                   u = <[ 2%nat := u2 ]> {[ 1%nat := u1 ]}) /\
    (forall l, is_Some (u !! l) ->
               (1 <= l <= starry.Map_udeg (starry.Primary_map st))%nat).
Proof.
  intros H.
  destruct (StarryModel_built M_jup M_sun kw self H)
    as (ld & Hp & Hrec & _ & H2 & _ & Hattrs & Hst & _).
  exists ld. eexists. split; [exact Hp|]. split; [exact Hst|]. simpl.
  rewrite (first_missing_ext _ (fun n => attrs self !! n)) in H2
    by (intros n; symmetry; apply Hattrs).
  unfold init_limb_coefficients, law_reads, star_udeg in *.
  split; [|split; [|split]].
  - intros ->. reflexivity.
  - intros E. rewrite E in *. simpl in *.
    destruct (attrs self !! "u1") as [u1|]; [|discriminate]. eauto.
  - intros E. rewrite E in *. simpl in *.
    destruct (attrs self !! "u1") as [u1|]; [|discriminate].
    destruct (attrs self !! "u2") as [u2|]; [|discriminate]. eauto.
  - intros l Hl.
    destruct (is_str (value ld) "kipping2013");
      [|destruct (is_str (value ld) "quadratic");
        [|destruct (is_str (value ld) "linear")]];
      simpl in H2;
      (destruct (attrs self !! "u1") as [u1|] eqn:E1; [|discriminate H2 || idtac]);
      (destruct (attrs self !! "u2") as [u2|] eqn:E2; [|discriminate H2 || idtac]);
      rewrite ?(bool_decide_eq_true_2 (is_Some (Some _))) by eauto;
      rewrite ?(bool_decide_eq_false_2 (is_Some None))
        by (intros [? ?]; discriminate);
      simpl in Hl;
      try (rewrite lookup_empty in Hl; destruct Hl; discriminate);
      destruct (decide (l = 1%nat)) as [->|N1]; try lia;
      destruct (decide (l = 2%nat)) as [->|N2]; try lia;
      rewrite ?lookup_insert_ne in Hl by congruence;
      rewrite ?lookup_empty in Hl; destruct Hl; discriminate.
Qed.

End BuildTheorems.

(** The amplitude assignments leave every field but the harmonic
    coefficients as it was. *)
Lemma apply_harmonics_fields {V} (lift : V -> tensor) (a : gmap string V) yd pl :
  let pl' := apply_harmonics lift a yd pl in
  starry.Secondary_m pl' = starry.Secondary_m pl /\
  starry.Secondary_r pl' = starry.Secondary_r pl /\
  starry.Secondary_a pl' = starry.Secondary_a pl /\
  starry.Secondary_porb pl' = starry.Secondary_porb pl /\
  starry.Secondary_prot pl' = starry.Secondary_prot pl /\
  starry.Secondary_inc pl' = starry.Secondary_inc pl /\
  starry.Secondary_ecc pl' = starry.Secondary_ecc pl /\
  starry.Secondary_w pl' = starry.Secondary_w pl /\
  starry.Secondary_theta0 pl' = starry.Secondary_theta0 pl /\
  starry.Secondary_tref pl' = starry.Secondary_tref pl /\
  starry.Map_ydeg (starry.Secondary_map pl') = starry.Map_ydeg (starry.Secondary_map pl) /\
  starry.Map_udeg (starry.Secondary_map pl') = starry.Map_udeg (starry.Secondary_map pl) /\
  starry.Map_amp (starry.Secondary_map pl') = starry.Map_amp (starry.Secondary_map pl) /\
  starry.Map_inc (starry.Secondary_map pl') = starry.Map_inc (starry.Secondary_map pl) /\
  starry.Map_obl (starry.Secondary_map pl') = starry.Map_obl (starry.Secondary_map pl) /\
  starry.Map_u (starry.Secondary_map pl') = starry.Map_u (starry.Secondary_map pl).
Proof.
  unfold apply_harmonics, set_harmonic.
  destruct (a !! "AmpCos1"), (a !! "AmpSin1"), (Nat.eqb yd 2),
    (a !! "AmpCos2"), (a !! "AmpSin2"); simpl; repeat split; reflexivity.
Qed.

Section PlanetTheorems.

Variables (M_jup M_sun : R).

(** X6. The planet of a built model: mass Mp * M_jup / M_sun, radius
    rp * Rs, orbital and rotation period both per, the attributes inc, ecc
    and w, reference phase 180 at reference time 0, and a map of amplitude
    fp (0 without an attribute fp), inclination 90 and obliquity 0, without
    limb darkening. The semi-major axis a is read as well, so it is an
    attribute of every built model. *)
Theorem built_model_planet kw self :
  StarryModel M_jup M_sun kw = inr self ->
  exists pl Mp rp Rs a per inc ecc w,
    planet self = Some pl /\
    attrs self !! "Mp" = Some Mp /\ attrs self !! "rp" = Some rp /\
    attrs self !! "Rs" = Some Rs /\ attrs self !! "a" = Some a /\
    attrs self !! "per" = Some per /\ attrs self !! "inc" = Some inc /\
    attrs self !! "ecc" = Some ecc /\ attrs self !! "w" = Some w /\
    starry.Secondary_m pl = TDiv (TMul Mp (tnum M_jup)) (tnum M_sun) /\
    starry.Secondary_r pl = TMul rp Rs /\
    starry.Secondary_porb pl = Some per /\
    starry.Secondary_prot pl = Some per /\
    starry.Secondary_inc pl = inc /\
    starry.Secondary_ecc pl = ecc /\
    starry.Secondary_w pl = w /\
    starry.Secondary_theta0 pl = Some 180 /\
    starry.Secondary_tref pl = Some 0 /\
    starry.Map_amp (starry.Secondary_map pl)
    = default (tnum 0) (attrs self !! "fp") /\
    starry.Map_inc (starry.Secondary_map pl) = Some 90 /\
    starry.Map_obl (starry.Secondary_map pl) = Some 0 /\
    starry.Map_udeg (starry.Secondary_map pl) = 0%nat /\
    starry.Map_u (starry.Secondary_map pl) = ∅.
Proof.
  intros H.
  destruct (StarryModel_built M_jup M_sun kw self H)
    as (ld & _ & _ & _ & _ & H3 & Hattrs & _ & _ & Hpl & _).
  rewrite (first_missing_ext _ (fun n => attrs self !! n)) in H3
    by (intros n; symmetry; apply Hattrs).
  simpl in H3.
  destruct (attrs self !! "Mp") as [Mp|] eqn:EMp; [|discriminate].
  destruct (attrs self !! "rp") as [rp|] eqn:Erp; [|discriminate].
  destruct (attrs self !! "Rs") as [Rs|] eqn:ERs; [|discriminate].
  destruct (attrs self !! "a") as [a|] eqn:Ea; [|discriminate].
  destruct (attrs self !! "inc") as [inc|] eqn:Einc; [|discriminate].
  destruct (attrs self !! "ecc") as [ecc|] eqn:Eecc; [|discriminate].
  destruct (attrs self !! "w") as [w|] eqn:Ew; [|discriminate].
  destruct (attrs self !! "per") as [per|] eqn:Eper; [|discriminate].
  eexists. exists Mp, rp, Rs, a, per, inc, ecc, w.
  split; [exact Hpl|]. do 8 (split; [reflexivity|]).
  unfold init_planet_of.
  set (pl0 := starry.mkSecondary _ _ _ _ _ _ _ _ _ _ _).
  pose proof (apply_harmonics_fields (fun x : tensor => x) (attrs self)
                (planet_ydeg (attrs self)) pl0) as F.
  cbv zeta in F.
  destruct F as (F1 & F2 & F3 & F4 & F5 & F6 & F7 & F8 & F9 & F10 & F11 & F12 &
                 F13 & F14 & F15 & F16).
  simpl. rewrite F1, F2, F4, F5, F6, F7, F8, F13, F14, F15, F12, F16.
  subst pl0. simpl. rewrite EMp, Erp, ERs, Eper, Einc, Eecc, Ew.
  repeat split; reflexivity.
Qed.

(** X7. The harmonic coefficients of the planet map of a built model: the
    attributes AmpCos1, AmpSin1, AmpCos2 and AmpSin2 sit at (1,0), (1,1),
    (2,0) and (2,1), every other coefficient is unset, and no coefficient
    is set above the degree of the map, which is the highest order among
    the amplitudes that are attributes. *)
Theorem built_model_harmonics kw self :
  StarryModel M_jup M_sun kw = inr self ->
  exists pl,
    planet self = Some pl /\
    let y := starry.Map_y (starry.Secondary_map pl) in
    let yd := starry.Map_ydeg (starry.Secondary_map pl) in
    ydeg self = Some yd /\
    y !! (1%nat, 0%nat) = attrs self !! "AmpCos1" /\
    y !! (1%nat, 1%nat) = attrs self !! "AmpSin1" /\
    y !! (2%nat, 0%nat) = attrs self !! "AmpCos2" /\
    y !! (2%nat, 1%nat) = attrs self !! "AmpSin2" /\
    (forall l m, is_Some (y !! (l, m)) -> (1 <= l <= yd)%nat /\ (m <= 1)%nat) /\
    (yd <= 2)%nat /\
    ((0 < yd)%nat -> is_Some (y !! (yd, 0%nat)) \/ is_Some (y !! (yd, 1%nat))).
Proof.
  intros H.
  destruct (StarryModel_built M_jup M_sun kw self H)
    as (ld & _ & _ & _ & _ & _ & Hattrs & _ & Hyd & Hpl & _).
  eexists. split; [exact Hpl|]. cbv zeta.
  unfold init_planet_of.
  set (pl0 := starry.mkSecondary _ _ _ _ _ _ _ _ _ _ _).
  pose proof (apply_harmonics_fields (fun x : tensor => x) (attrs self)
                (planet_ydeg (attrs self)) pl0) as F.
  cbv zeta in F. destruct F as (_ & _ & _ & _ & _ & _ & _ & _ & _ & _ & F11 & _).
  pose proof (apply_harmonics_map (fun x : tensor => x) (attrs self) pl0 eq_refl)
    as M.
  cbv zeta in M. destruct M as (M1 & M2 & M3 & M4 & M5).
  simpl starry.Secondary_map. rewrite F11.
  set (y := starry.Map_y _) in *.
  rewrite M1, M2, M3, M4, !option_fmap_id.
  subst pl0. simpl starry.Map_ydeg.
  split; [exact Hyd|]. do 4 (split; [reflexivity|]).
  assert (forall n v, attrs self !! n = Some v ->
                      bool_decide (is_Some (attrs self !! n)) = true) as Hon.
  { intros n v E. apply bool_decide_eq_true. eauto. }
  assert (forall n, attrs self !! n = None ->
                    bool_decide (is_Some (attrs self !! n)) = false) as Hoff.
  { intros n E. apply bool_decide_eq_false. rewrite E. intros [? ?]. discriminate. }
  split; [|split].
  - intros l m Hlm. destruct (M5 l m) as [[Hl Hm]|Hnone];
      [|rewrite Hnone in Hlm; destruct Hlm; discriminate].
    split; [|exact Hm]. split; [lia|].
    assert (l = 1%nat \/ l = 2%nat) as [->| ->] by lia;
      assert (m = 0%nat \/ m = 1%nat) as [->| ->] by lia;
      rewrite ?M1, ?M2, ?M3, ?M4, ?option_fmap_id in Hlm;
      destruct Hlm as [v Hv]; unfold planet_ydeg;
      rewrite ?(Hon _ _ Hv), ?orb_true_r; simpl; try lia;
      repeat (destruct (bool_decide _); simpl; try lia).
  - unfold planet_ydeg. repeat (destruct (bool_decide _); simpl; try lia).
  - intros Hpos. unfold planet_ydeg in *.
    destruct (attrs self !! "AmpCos2") as [c2|] eqn:E3;
      destruct (attrs self !! "AmpSin2") as [s2|] eqn:E4;
      destruct (attrs self !! "AmpCos1") as [c1|] eqn:E1;
      destruct (attrs self !! "AmpSin1") as [s1|] eqn:E2;
      rewrite ?(bool_decide_eq_true_2 (is_Some (Some _))) in * by eauto;
      rewrite ?(bool_decide_eq_false_2 (is_Some None)) in *
        by (intros [? ?]; discriminate);
      simpl in Hpos |- *; try lia;
      rewrite ?M1, ?M2, ?M3, ?M4, ?option_fmap_id, ?E1, ?E2, ?E3, ?E4;
      eauto.
Qed.

(** X8. A built model holds its star, its planet, the degree of the planet
    map and the system, and the system is made of that star and that
    planet as [__init__] leaves them, limb darkening and amplitudes
    included. *)
Theorem built_model_system kw self :
  StarryModel M_jup M_sun kw = inr self ->
  exists st pl,
    star self = Some st /\ planet self = Some pl /\
    sys self = Some (starry.mkSystem st pl) /\
    ydeg self = Some (starry.Map_ydeg (starry.Secondary_map pl)).
Proof.
  intros H.
  destruct (StarryModel_built M_jup M_sun kw self H)
    as (ld & _ & _ & _ & _ & _ & _ & Hst & Hyd & Hpl & Hsys).
  do 2 eexists. split; [exact Hst|]. split; [exact Hpl|]. split; [exact Hsys|].
  rewrite Hyd. f_equal. unfold init_planet_of.
  set (pl0 := starry.mkSecondary _ _ _ _ _ _ _ _ _ _ _).
  pose proof (apply_harmonics_fields (fun x : tensor => x) (attrs self)
                (planet_ydeg (attrs self)) pl0) as F.
  cbv zeta in F. destruct F as (_ & _ & _ & _ & _ & _ & _ & _ & _ & _ & F11 & _).
  simpl starry.Secondary_map. rewrite F11. reflexivity.
Qed.

End PlanetTheorems.

Lemma titles_checked_true kw :
  titles_checked kw = true -> titles_well_formed kw.
Proof.
  unfold titles_checked. rewrite forallb_forall. intros H n Hn.
  specialize (H n (proj1 (list_elem_of_In _ _) Hn)).
  destruct (parameters kw !! n) as [p|]; [|discriminate].
  exists p. split; [reflexivity|]. apply bool_decide_eq_true in H. exact H.
Qed.

Lemma required_checked_true kw :
  required_checked kw = true -> forall n, n ∈ required -> n ∈ paramtitles kw.
Proof.
  unfold required_checked. rewrite forallb_forall. intros H n Hn.
  specialize (H n (proj1 (list_elem_of_In _ _) Hn)).
  apply bool_decide_eq_true in H. exact H.
Qed.

(** X2 at a table that lists the stellar mass as an independent variable:
    the required names are all listed, and the star stage cannot read
    Ms. *)
Lemma init_first_failure_witness :
  StarryModel 1 1047 kw_independent_Ms = inl (AttributeError "Ms").
Proof.
  assert (required_checked kw_independent_Ms = true) as Hreq
    by (vm_compute; reflexivity).
  assert (titles_checked kw_independent_Ms = true) as Hwf
    by (vm_compute; reflexivity).
  pose proof (init_first_failure 1 1047 kw_independent_Ms
                (required_checked_true _ Hreq)
                (titles_checked_true _ Hwf)) as H.
  set (r := StarryModel 1 1047 kw_independent_Ms) in *.
  vm_compute in H. exact H.
Defined.

(** The attributes of a model that was built. *)
Lemma built_attrs M_jup M_sun kw self :
  StarryModel M_jup M_sun kw = inr self ->
  forall n, attrs self !! n = init_attribute kw n.
Proof.
  intros E. destruct (StarryModel_built M_jup M_sun kw self E)
    as (ld & _ & _ & _ & _ & _ & Hattrs & _).
  exact Hattrs.
Qed.

(** X1 at the complete scenario: its thirteen names are parameter names,
    each has a fixed row but the independent limb_dark, and the quadratic
    law finds u1 and u2, so [__init__] returns a model. *)
Lemma init_returns_iff_witness :
  exists self, StarryModel 1 1047 kw_scenario_complete = inr self.
Proof.
  apply (init_returns_iff 1 1047 kw_scenario_complete).
  - split.
    + apply (bool_decide_unpack _). vm_compute. reflexivity.
    + apply (bool_decide_unpack _). vm_compute. reflexivity.
  - split; [apply titles_checked_true; vm_compute; reflexivity|]. split.
    + apply Forall_forall.
      repeat (apply Forall_cons; split; [vm_compute; eauto|]).
      apply Forall_nil. exact I.
    + exists (limb_dark_param "quadratic").
      split; [vm_compute; reflexivity|]. right. right.
      split; [left; reflexivity|]. split; vm_compute; eauto.
Defined.

(** X3 at the table with a prior of each kind: the semi-major axis is the
    exponential of a uniform variable, the stellar mass a constant, and the
    independent row limb_dark leaves no attribute. *)
Lemma built_model_attributes_witness :
  exists self,
    StarryModel 1 1047 kw_priors = inr self /\
    attrs self !! "a" = Some (TExp (pm_Uniform "a" 0 3)) /\
    attrs self !! "Ms" = Some (TConst (VNum 1)) /\
    attrs self !! "limb_dark" = None.
Proof.
  destruct (StarryModel 1 1047 kw_priors) as [e|self] eqn:E;
    [vm_compute in E; discriminate|].
  exists self. split; [reflexivity|].
  pose proof (built_model_attributes 1 1047 kw_priors self E) as H.
  rewrite (H "a" eq_refl), (H "Ms" eq_refl), (H "limb_dark" eq_refl).
  vm_compute. repeat split; reflexivity.
Defined.

(** X4 at the phase curve: the law is linear, u1 and u2 are both
    attributes, and the map of the star has degree 2. *)
Lemma built_model_star_witness :
  exists self st,
    StarryModel 1 1047 kw_phase_curve = inr self /\
    star self = Some st /\
    starry.Primary_m st = TConst (VNum 1) /\
    starry.Primary_prot st = 1 /\
    starry.Map_udeg (starry.Primary_map st) = 2%nat.
Proof.
  destruct (StarryModel 1 1047 kw_phase_curve) as [e|self] eqn:E;
    [vm_compute in E; discriminate|].
  destruct (built_model_star 1 1047 kw_phase_curve self E)
    as (st & Hst & HMs & _ & Hprot & _ & _ & _ & Hudeg).
  exists self, st. split; [reflexivity|]. split; [exact Hst|].
  rewrite (built_attrs _ _ _ _ E "Ms") in HMs.
  rewrite (built_attrs _ _ _ _ E "u2") in Hudeg.
  vm_compute in HMs. vm_compute in Hudeg.
  injection HMs as HMs. auto.
Defined.

(** X5 at the phase curve: under the linear law the only coefficient of
    the star map is u1, at index 1. *)
Lemma built_model_limb_coefficients_witness :
  exists self st,
    StarryModel 1 1047 kw_phase_curve = inr self /\
    star self = Some st /\
    starry.Map_u (starry.Primary_map st) = {[ 1%nat := TConst (VNum 1) ]} /\
    forall l, is_Some (starry.Map_u (starry.Primary_map st) !! l) ->
              (1 <= l <= starry.Map_udeg (starry.Primary_map st))%nat.
Proof.
  destruct (StarryModel 1 1047 kw_phase_curve) as [e|self] eqn:E;
    [vm_compute in E; discriminate|].
  destruct (built_model_limb_coefficients 1 1047 kw_phase_curve self E)
    as (ld & st & Hp & Hst & _ & Hlin & _ & Hdeg).
  exists self, st. split; [reflexivity|]. split; [exact Hst|].
  split; [|exact Hdeg].
  vm_compute in Hp. injection Hp as <-.
  destruct (Hlin eq_refl) as (u1 & Hu1 & Hu).
  rewrite (built_attrs _ _ _ _ E "u1") in Hu1.
  vm_compute in Hu1. injection Hu1 as <-. exact Hu.
Defined.

(** X6 at the complete scenario: both periods of the planet are the
    attribute per, and the reference phase is 180 at time 0. *)
Lemma built_model_planet_witness :
  exists self pl,
    StarryModel 1 1047 kw_scenario_complete = inr self /\
    planet self = Some pl /\
    starry.Secondary_porb pl = Some (TConst (VNum 3.5)) /\
    starry.Secondary_prot pl = Some (TConst (VNum 3.5)) /\
    starry.Secondary_theta0 pl = Some 180 /\
    starry.Secondary_tref pl = Some 0.
Proof.
  destruct (StarryModel 1 1047 kw_scenario_complete) as [e|self] eqn:E;
    [vm_compute in E; discriminate|].
  destruct (built_model_planet 1 1047 kw_scenario_complete self E)
    as (pl & Mp & rp & Rs & a & per & inc & ecc & w & Hpl & _ & _ & _ & Ha & Hper &
        _ & _ & _ & _ & _ & Eporb & Eprot & _ & _ & _ & Eth & Etref & _).
  exists self, pl. split; [reflexivity|]. split; [exact Hpl|].
  rewrite (built_attrs _ _ _ _ E "per") in Hper.
  vm_compute in Hper. injection Hper as <-.
  rewrite Eporb, Eprot, Eth, Etref.
  repeat split; vm_compute; reflexivity.
Defined.

(** X7 at the phase curve: AmpCos1 and AmpSin2 are attributes, the map has
    degree 2, and the coefficients (1,1) and (2,0) stay unset. *)
Lemma built_model_harmonics_witness :
  exists self pl,
    StarryModel 1 1047 kw_phase_curve = inr self /\
    planet self = Some pl /\
    starry.Map_ydeg (starry.Secondary_map pl) = 2%nat /\
    starry.Map_y (starry.Secondary_map pl) !! (1%nat, 0%nat)
    = Some (TConst (VNum 0.4)) /\
    starry.Map_y (starry.Secondary_map pl) !! (1%nat, 1%nat) = None /\
    starry.Map_y (starry.Secondary_map pl) !! (2%nat, 0%nat) = None /\
    starry.Map_y (starry.Secondary_map pl) !! (2%nat, 1%nat)
    = Some (TConst (VNum 0.1)).
Proof.
  destruct (StarryModel 1 1047 kw_phase_curve) as [e|self] eqn:E;
    [vm_compute in E; discriminate|].
  destruct (built_model_harmonics 1 1047 kw_phase_curve self E)
    as (pl & Hpl & Hyd & H10 & H11 & H20 & H21 & Hin & Htop & _).
  exists self, pl. split; [reflexivity|]. split; [exact Hpl|].
  rewrite H10, H11, H20, H21, !(built_attrs _ _ _ _ E).
  assert (is_Some (starry.Map_y (starry.Secondary_map pl) !! (2%nat, 1%nat)))
    as Hset.
  { rewrite H21, (built_attrs _ _ _ _ E). vm_compute. eauto. }
  split.
  - destruct (Hin _ _ Hset) as [[_ Hle] _]. lia.
  - vm_compute. repeat split; reflexivity.
Defined.

(** X8 at the complete scenario. *)
Lemma built_model_system_witness :
  exists self st pl,
    StarryModel 1 1047 kw_scenario_complete = inr self /\
    star self = Some st /\ planet self = Some pl /\
    sys self = Some (starry.mkSystem st pl) /\
    ydeg self = Some (starry.Map_ydeg (starry.Secondary_map pl)).
Proof.
  destruct (StarryModel 1 1047 kw_scenario_complete) as [e|self] eqn:E;
    [vm_compute in E; discriminate|].
  destruct (built_model_system 1 1047 kw_scenario_complete self E)
    as (st & pl & H).
  exists self, st, pl. split; [reflexivity|]. exact H.
Defined.

(* ===================================================================== *)
(** ** The attributes of [fit] *)
(* ===================================================================== *)

Lemma fit_set_fitted_eq items (s : namespace pyvalue) :
  exists s',
    fit_set_fitted items s = (s', inr tt) /\
    star s' = star s /\ u1_quadratic s' = u1_quadratic s /\
    u2_quadratic s' = u2_quadratic s /\ ydeg s' = ydeg s /\
    planet s' = planet s /\ sys s' = sys s /\
    forall n, attrs s' !! n
              = match dict_get items n with
                | Some x => Some (VNum x)
                | None => attrs s !! n
                end.
Proof.
  unfold fit_set_fitted. revert s.
  induction items as [|[k v] items IH]; intros s.
  - exists s. repeat split; reflexivity.
  - simpl for_each. unfold setattr at 1, modify, bind. simpl fst. simpl snd.
    destruct (IH (mkNamespace (<[k := VNum v]> (attrs s)) (star s) (u1_quadratic s)
                    (u2_quadratic s) (ydeg s) (planet s) (sys s)))
      as (s' & E & H1 & H2 & H3 & H4 & H5 & H6 & Hattrs).
    exists s'. split; [exact E|]. do 6 (split; [assumption|]).
    intros n. rewrite Hattrs. simpl.
    destruct (dict_get items n); [reflexivity|].
    destruct (String.eqb_spec k n) as [->|Hne].
    + apply lookup_insert_eq.
    + apply lookup_insert_ne. exact Hne.
Qed.

Lemma fit_parameter_row kw parname (s s' : namespace pyvalue) :
  fit_parameter kw parname s = (s', inr tt) ->
  exists p, parameters kw !! parname = Some p /\
            star s' = star s /\ u1_quadratic s' = u1_quadratic s /\
            u2_quadratic s' = u2_quadratic s /\ ydeg s' = ydeg s /\
            planet s' = planet s /\ sys s' = sys s /\
            attrs s' = if String.eqb (ptype p) "fixed"
                       then <[parname := value p]> (attrs s) else attrs s.
Proof.
  unfold fit_parameter, bind, get_parameter.
  destruct (parameters kw !! parname) as [p|]; [|discriminate].
  intros H. exists p. split; [reflexivity|].
  destruct (String.eqb_spec (ptype p) "independent") as [E1|N1].
  - injection H as <-. rewrite E1. simpl. repeat split; reflexivity.
  - destruct (String.eqb (ptype p) "fixed"); injection H as <-;
      repeat split; reflexivity.
Qed.

Lemma fit_parameter_no_row kw parname (s : namespace pyvalue) :
  parameters kw !! parname = None ->
  fit_parameter kw parname s = (s, inl (AttributeError parname)).
Proof.
  intros H. unfold fit_parameter, bind, get_parameter. rewrite H. reflexivity.
Qed.

Lemma fit_parameter_returns kw parname p (s : namespace pyvalue) :
  parameters kw !! parname = Some p ->
  exists s', fit_parameter kw parname s = (s', inr tt).
Proof.
  intros H. unfold fit_parameter, bind, get_parameter. rewrite H.
  destruct (String.eqb (ptype p) "independent"); [eauto|].
  destruct (String.eqb (ptype p) "fixed"); eauto.
Qed.

(** The loop of the setter over the listed names. *)
Lemma fit_loop_attributes kw l (s s' : namespace pyvalue) :
  for_each l (fit_parameter kw) s = (s', inr tt) ->
  (forall n, n ∈ l -> is_Some (parameters kw !! n)) /\
  star s' = star s /\ u1_quadratic s' = u1_quadratic s /\
  u2_quadratic s' = u2_quadratic s /\ ydeg s' = ydeg s /\
  planet s' = planet s /\ sys s' = sys s /\
  forall n,
    attrs s' !! n
    = match (if bool_decide (n ∈ l) then parameters kw !! n else None) with
      | Some p => if String.eqb (ptype p) "fixed" then Some (value p)
                  else attrs s !! n
      | None => attrs s !! n
      end.
Proof.
  revert s. induction l as [|x l IH]; intros s Hrun.
  - injection Hrun as <-. split; [intros n Hn; inversion Hn|].
    repeat split; reflexivity.
  - simpl in Hrun. apply bind_inr in Hrun as (s1 & [] & Hx & Hrest).
    destruct (fit_parameter_row kw x s s1 Hx)
      as (p & Hp & H1 & H2 & H3 & H4 & H5 & H6 & Hattrs).
    destruct (IH s1 Hrest) as (Hrows & G1 & G2 & G3 & G4 & G5 & G6 & Hn).
    split.
    { intros n Hin. apply elem_of_cons in Hin as [->|Hin]; [rewrite Hp; eauto|auto]. }
    do 6 (split; [congruence|]).
    intros n. rewrite Hn.
    destruct (decide (n = x)) as [->|Hne].
    + rewrite (bool_decide_eq_true_2 (x ∈ x :: l)) by left.
      rewrite Hp, Hattrs.
      destruct (bool_decide (x ∈ l));
        destruct (String.eqb (ptype p) "fixed"); try reflexivity.
      apply lookup_insert_eq.
    + assert (attrs s1 !! n = attrs s !! n) as E.
      { rewrite Hattrs. destruct (String.eqb (ptype p) "fixed"); [|reflexivity].
        apply lookup_insert_ne. congruence. }
      rewrite E.
      destruct (decide (n ∈ l)) as [Hl|Hl].
      * rewrite (bool_decide_eq_true_2 _ Hl).
        rewrite (bool_decide_eq_true_2 (n ∈ x :: l)) by (right; exact Hl).
        reflexivity.
      * rewrite (bool_decide_eq_false_2 _ Hl).
        rewrite (bool_decide_eq_false_2 (n ∈ x :: l)); [reflexivity|].
        intros Hin. apply elem_of_cons in Hin as [?|?]; contradiction.
Qed.

Lemma fit_loop_runs kw l (s : namespace pyvalue) :
  (forall n, n ∈ l -> is_Some (parameters kw !! n)) ->
  exists s', for_each l (fit_parameter kw) s = (s', inr tt).
Proof.
  revert s. induction l as [|x l IH]; intros s Hall; simpl.
  - eauto.
  - destruct (Hall x) as (p & Hp); [left|].
    destruct (fit_parameter_returns kw x p s Hp) as (s1 & E).
    erewrite bind_ok by exact E. apply IH.
    intros n Hn. apply Hall. right. exact Hn.
Qed.

(** The loop stops at the first listed name without a row. *)
Lemma fit_loop_raises kw l1 x l2 (s : namespace pyvalue) :
  (forall n, n ∈ l1 -> is_Some (parameters kw !! n)) ->
  parameters kw !! x = None ->
  exists s', for_each (l1 ++ x :: l2)%list (fit_parameter kw) s
             = (s', inl (AttributeError x)).
Proof.
  intros Hall Hx.
  destruct (fit_loop_runs kw l1 s Hall) as (s1 & E1).
  exists s1. rewrite for_each_app. erewrite bind_ok by exact E1.
  simpl. apply bind_raise, fit_parameter_no_row, Hx.
Qed.

(** The two loops of the setter together, from the fresh object. *)
Lemma fit_loops kw input_fit_dict s1 :
  (fit_set_fitted input_fit_dict ;;;
   for_each (paramtitles kw) (fit_parameter kw))%py empty_namespace = (s1, inr tt) ->
  titles_have_rows kw /\
  (forall n, attrs s1 !! n = fit_attribute kw input_fit_dict n) /\
  star s1 = None /\ ydeg s1 = None /\ planet s1 = None /\ sys s1 = None.
Proof.
  intros H. apply bind_inr in H as (s0 & [] & H0 & H).
  destruct (fit_set_fitted_eq input_fit_dict empty_namespace)
    as (s0' & E0 & A1 & A2 & A3 & A4 & A5 & A6 & Hattrs0).
  assert (s0' = s0) as -> by congruence.
  destruct (fit_loop_attributes kw _ _ _ H)
    as (Hrows & B1 & B2 & B3 & B4 & B5 & B6 & Hattrs).
  split; [exact Hrows|]. split.
  - intros n. rewrite Hattrs. unfold fit_attribute.
    assert (attrs s0 !! n = VNum <$> dict_get input_fit_dict n) as E.
    { rewrite Hattrs0. simpl. rewrite lookup_empty.
      destruct (dict_get input_fit_dict n); reflexivity. }
    rewrite E. reflexivity.
  - simpl in A1, A4, A5, A6. repeat split; congruence.
Qed.

Lemma fit_loops_run kw input_fit_dict :
  titles_have_rows kw ->
  exists s1,
    (fit_set_fitted input_fit_dict ;;;
     for_each (paramtitles kw) (fit_parameter kw))%py empty_namespace
    = (s1, inr tt).
Proof.
  intros Hrows.
  destruct (fit_set_fitted_eq input_fit_dict empty_namespace) as (s0 & E0 & _).
  destruct (fit_loop_runs kw (paramtitles kw) s0 Hrows) as (s1 & E1).
  exists s1. erewrite bind_ok by exact E0. exact E1.
Qed.

(* ===================================================================== *)
(** ** The stages of the setter *)
(* ===================================================================== *)

(** The star stage of the setter. *)
Lemma fit_star_outcome (s : namespace pyvalue) :
  match first_missing (fun n => attrs s !! n) ["Ms"; "Rs"] with
  | Some n => fit_star s = (s, inl (AttributeError n))
  | None =>
      exists Ms Rs,
        attrs s !! "Ms" = Some Ms /\ attrs s !! "Rs" = Some Rs /\
        fit_star s
        = (mkNamespace (attrs s)
             (Some (starry.mkPrimary
                      (starry.new_Map 0 (star_udeg (attrs s)) (tnum 1) None None)
                      (TConst Ms) (TConst Rs) 1))
             (u1_quadratic s) (u2_quadratic s) (ydeg s) (planet s) (sys s),
           inr tt)
  end.
Proof.
  unfold fit_star, star_udeg, bind, hasattr, gets, getattr, set_star, modify, ret.
  simpl.
  destruct (attrs s !! "Ms") as [Ms|] eqn:EM; simpl.
  - destruct (attrs s !! "Rs") as [Rs|] eqn:ER; simpl.
    + exists Ms, Rs. do 2 (split; [reflexivity|]).
      destruct (bool_decide (is_Some (attrs s !! "u2"))); simpl;
        rewrite ?EM, ?ER; [reflexivity|].
      destruct (bool_decide (is_Some (attrs s !! "u1"))); simpl;
        rewrite ?EM, ?ER; reflexivity.
    + destruct (bool_decide (is_Some (attrs s !! "u2"))); simpl;
        rewrite ?EM, ?ER; [reflexivity|].
      destruct (bool_decide (is_Some (attrs s !! "u1"))); simpl;
        rewrite ?EM, ?ER; reflexivity.
  - destruct (bool_decide (is_Some (attrs s !! "u2"))); simpl;
      rewrite ?EM; [reflexivity|].
    destruct (bool_decide (is_Some (attrs s !! "u1"))); simpl;
      rewrite ?EM; reflexivity.
Qed.

Lemma fit_limb_dark_no_row kw (s : namespace pyvalue) :
  parameters kw !! "limb_dark" = None ->
  fit_limb_dark kw s = (s, inl (AttributeError "limb_dark")).
Proof.
  intros H. unfold fit_limb_dark. apply bind_raise.
  unfold get_parameter. rewrite H. reflexivity.
Qed.

(** The law stage of the setter on an object that has its star. *)
Lemma fit_limb_dark_outcome kw (s : namespace pyvalue) st limb_dark :
  star s = Some st ->
  starry.Map_u (starry.Primary_map st) = ∅ ->
  parameters kw !! "limb_dark" = Some limb_dark ->
  match first_missing (fun n => attrs s !! n) (law_reads (value limb_dark)) with
  | Some n => exists s', fit_limb_dark kw s = (s', inl (AttributeError n))
  | None =>
      if is_recognized_law (value limb_dark) then
        exists s' st',
          fit_limb_dark kw s = (s', inr tt) /\
          attrs s' = attrs s /\ ydeg s' = ydeg s /\ planet s' = planet s /\
          sys s' = sys s /\ star s' = Some st' /\
          starry.Primary_m st' = starry.Primary_m st /\
          starry.Primary_r st' = starry.Primary_r st /\
          starry.Primary_prot st' = starry.Primary_prot st /\
          starry.Map_udeg (starry.Primary_map st')
          = starry.Map_udeg (starry.Primary_map st) /\
          starry.Map_ydeg (starry.Primary_map st')
          = starry.Map_ydeg (starry.Primary_map st) /\
          starry.Map_amp (starry.Primary_map st')
          = starry.Map_amp (starry.Primary_map st) /\
          starry.Map_inc (starry.Primary_map st')
          = starry.Map_inc (starry.Primary_map st) /\
          starry.Map_obl (starry.Primary_map st')
          = starry.Map_obl (starry.Primary_map st) /\
          starry.Map_y (starry.Primary_map st')
          = starry.Map_y (starry.Primary_map st) /\
          starry.Map_u (starry.Primary_map st')
          = fit_limb_coefficients (value limb_dark)
              (default (VNum 0) (attrs s !! "u1"))
              (default (VNum 0) (attrs s !! "u2"))
      else fit_limb_dark kw s
           = (s, inl (ValueError (LimbDarkNotHandled (value limb_dark))))
  end.
Proof.
  intros Hst Hu Hp. unfold law_reads, fit_limb_coefficients.
  destruct (is_str (value limb_dark) "kipping2013") eqn:E1;
    [|destruct (is_str (value limb_dark) "quadratic") eqn:E2;
      [|destruct (is_str (value limb_dark) "linear") eqn:E3]].
  - unfold is_recognized_law. rewrite ?E1, ?E2, ?E3. cbn [orb].
    simpl. unfold_limb_dark. rewrite Hp, E1.
    destruct (attrs s !! "u1") as [u1|] eqn:Hu1; [|eauto].
    destruct (attrs s !! "u2") as [u2|] eqn:Hu2; [|eauto].
    repeat (simpl; rewrite ?Hu1, ?Hu2, ?Hst).
    do 2 eexists. split; [reflexivity|]. simpl.
    do 14 (split; [reflexivity|]). simpl. rewrite Hu. reflexivity.
  - assert (is_str (value limb_dark) "linear" = false) as E3.
    { destruct (value limb_dark) as [x|str]; [reflexivity|]. simpl in *.
      apply String.eqb_eq in E2. subst str. reflexivity. }
    unfold is_recognized_law. rewrite ?E1, ?E2, ?E3. cbn [orb].
    simpl. unfold_limb_dark. rewrite Hp, E1, E3, E2.
    destruct (attrs s !! "u1") as [u1|] eqn:Hu1; [|eauto].
    destruct (attrs s !! "u2") as [u2|] eqn:Hu2.
    + repeat (simpl; rewrite ?Hu1, ?Hu2, ?Hst).
      do 2 eexists. split; [reflexivity|]. simpl.
      do 14 (split; [reflexivity|]). simpl. rewrite Hu. reflexivity.
    + repeat (simpl; rewrite ?Hu1, ?Hu2, ?Hst). eauto.
  - unfold is_recognized_law. rewrite ?E1, ?E2, ?E3. cbn [orb].
    simpl. unfold_limb_dark. rewrite Hp, E1, E3.
    destruct (attrs s !! "u1") as [u1|] eqn:Hu1; [|eauto].
    repeat (simpl; rewrite ?Hu1, ?Hst).
    do 2 eexists. split; [reflexivity|]. simpl.
    do 14 (split; [reflexivity|]). simpl. rewrite Hu. reflexivity.
  - simpl. unfold_limb_dark. rewrite Hp, E1, E3, E2.
    destruct (is_str (value limb_dark) "uniform") eqn:E4; simpl.
    + unfold is_recognized_law. rewrite E1, E2, E3, E4. cbn [orb].
      exists s, st. rewrite Hu. repeat split; (assumption || reflexivity).
    + unfold is_recognized_law. rewrite E1, E2, E3, E4. reflexivity.
Qed.

Section FitPlanetStage.

Variables (M_jup M_sun : R).

(** The planet stage of the setter: it raises on the first attribute it
    cannot read, the planet flux fp first, and otherwise sets the degree
    and the planet. *)
Lemma fit_planet_outcome (s : namespace pyvalue) :
  let get n := TConst (default (VNum 0) (attrs s !! n)) in
  match first_missing (fun n => attrs s !! n) fit_planet_reads with
  | Some n => exists s', fit_planet M_jup M_sun s = (s', inl (AttributeError n))
  | None =>
      fit_planet M_jup M_sun s
      = (mkNamespace (attrs s) (star s) (u1_quadratic s) (u2_quadratic s)
           (Some (planet_ydeg (attrs s)))
           (Some (starry.mkSecondary
                    (starry.new_Map (planet_ydeg (attrs s)) 0 (get "fp")
                       (Some 90) (Some 0))
                    (TDiv (TMul (get "Mp") (tnum M_jup)) (tnum M_sun))
                    (TMul (get "rp") (get "Rs"))
                    None (Some (get "per")) (Some (get "per"))
                    (get "inc") (get "ecc") (get "w") None None))
           (sys s),
         inr tt)
  end.
Proof.
  intros get. subst get. unfold fit_planet_reads, first_missing.
  unfold fit_planet.
  erewrite bind_ok by (apply init_ydeg_eq). cbv beta.
  py_ok. simpl attrs.
  destruct (attrs s !! "fp") as [fp|] eqn:Efp; [py_ok|eexists; py_raise].
  destruct (attrs s !! "Mp") as [Mp|] eqn:EMp; [py_ok|eexists; py_raise].
  destruct (attrs s !! "rp") as [rp|] eqn:Erp; [py_ok|eexists; py_raise].
  destruct (attrs s !! "Rs") as [Rs|] eqn:ERs; [py_ok|eexists; py_raise].
  destruct (attrs s !! "per") as [per|] eqn:Eper; [py_ok; py_ok|eexists; py_raise].
  destruct (attrs s !! "inc") as [inc|] eqn:Einc; [py_ok|eexists; py_raise].
  destruct (attrs s !! "ecc") as [ecc|] eqn:Eecc; [py_ok|eexists; py_raise].
  destruct (attrs s !! "w") as [w|] eqn:Ew; [py_ok|eexists; py_raise].
  reflexivity.
Qed.

Lemma fit_dict_setter_raises kw input_fit_dict s e :
  fit_dict_build M_jup M_sun kw input_fit_dict empty_namespace = (s, inl e) ->
  fit_dict_setter M_jup M_sun kw input_fit_dict = inl e.
Proof. intros H. apply fit_dict_setter_inl. eauto. Qed.

Lemma fit_dict_build_assoc kw input_fit_dict :
  fit_dict_build M_jup M_sun kw input_fit_dict empty_namespace
  = ((fit_set_fitted input_fit_dict ;;;
      for_each (paramtitles kw) (fit_parameter kw)) ;;;
     fit_star ;;; fit_limb_dark kw ;;; fit_planet M_jup M_sun ;;;
     init_planet_map TConst ;;; init_sys)%py empty_namespace.
Proof.
  unfold fit_dict_build, bind.
  destruct (fit_set_fitted input_fit_dict empty_namespace) as [s0 [e|[]]];
    reflexivity.
Qed.

(** What the setter does, stage by stage, once its two loops can run. *)
Lemma fit_dict_outcome kw input_fit_dict :
  titles_have_rows kw ->
  let has := fit_attribute kw input_fit_dict in
  match first_missing has ["Ms"; "Rs"] with
  | Some n => fit_dict_setter M_jup M_sun kw input_fit_dict = inl (AttributeError n)
  | None =>
      match parameters kw !! "limb_dark" with
      | None => fit_dict_setter M_jup M_sun kw input_fit_dict
                = inl (AttributeError "limb_dark")
      | Some limb_dark =>
          match first_missing has (law_reads (value limb_dark)) with
          | Some n => fit_dict_setter M_jup M_sun kw input_fit_dict
                      = inl (AttributeError n)
          | None =>
              if is_recognized_law (value limb_dark) then
                match first_missing has fit_planet_reads with
                | Some n => fit_dict_setter M_jup M_sun kw input_fit_dict
                            = inl (AttributeError n)
                | None =>
                    exists fit,
                      fit_dict_setter M_jup M_sun kw input_fit_dict = inr fit /\
                      is_fit_model M_jup M_sun kw input_fit_dict (value limb_dark) fit
                end
              else fit_dict_setter M_jup M_sun kw input_fit_dict
                   = inl (ValueError (LimbDarkNotHandled (value limb_dark)))
          end
      end
  end.
Proof.
  intros Hrows has. subst has.
  destruct (fit_loops_run kw input_fit_dict Hrows) as (s1 & Hloop).
  destruct (fit_loops kw input_fit_dict s1 Hloop)
    as (_ & Hattrs & Hstar1 & Hyd1 & Hpl1 & Hsys1).
  assert (forall names, first_missing (fit_attribute kw input_fit_dict) names
                        = first_missing (fun n => attrs s1 !! n) names) as Hfm.
  { intros names. apply first_missing_ext. intros n. symmetry. apply Hattrs. }
  assert (fit_dict_build M_jup M_sun kw input_fit_dict empty_namespace
          = (fit_star ;;; fit_limb_dark kw ;;; fit_planet M_jup M_sun ;;;
             init_planet_map TConst ;;; init_sys)%py s1) as Hrun.
  { rewrite fit_dict_build_assoc. erewrite bind_ok by exact Hloop. reflexivity. }
  rewrite !Hfm.
  pose proof (fit_star_outcome s1) as Ostar.
  destruct (first_missing _ ["Ms"; "Rs"]) as [n|] eqn:Hstar.
  { eapply fit_dict_setter_raises. rewrite Hrun. apply bind_raise. exact Ostar. }
  destruct Ostar as (Ms & Rs & EMs & ERs & Estar).
  set (s2 := mkNamespace (attrs s1) _ _ _ _ _ _) in Estar.
  erewrite bind_ok in Hrun by exact Estar.
  destruct (parameters kw !! "limb_dark") as [limb_dark|] eqn:Hp.
  2:{ eapply fit_dict_setter_raises. rewrite Hrun. apply bind_raise.
      apply fit_limb_dark_no_row. exact Hp. }
  rewrite !Hfm.
  pose proof (fit_limb_dark_outcome kw s2 _ limb_dark eq_refl eq_refl Hp) as Olaw.
  simpl attrs in Olaw.
  destruct (first_missing _ (law_reads _)) as [n|] eqn:Hlaw.
  { destruct Olaw as (s' & Olaw).
    eapply fit_dict_setter_raises. rewrite Hrun. apply bind_raise. exact Olaw. }
  destruct (is_recognized_law (value limb_dark)) eqn:Hrec.
  2:{ eapply fit_dict_setter_raises. rewrite Hrun. apply bind_raise. exact Olaw. }
  destruct Olaw as (s3 & st & Elaw & A3 & Y3 & P3 & S3 & St3 & Hm & Hr & Hprot &
                    Hud & Hyd & Hamp & Hinc & Hobl & Hy & Hu).
  erewrite bind_ok in Hrun by exact Elaw.
  pose proof (fit_planet_outcome s3) as Oplanet. cbv zeta in Oplanet.
  rewrite A3 in Oplanet. simpl attrs in Oplanet.
  destruct (first_missing _ fit_planet_reads) as [n|] eqn:Hplanet.
  { destruct Oplanet as (s' & Oplanet).
    eapply fit_dict_setter_raises. rewrite Hrun. apply bind_raise. exact Oplanet. }
  set (s4 := mkNamespace (attrs s1) _ _ _ _ _ _) in Oplanet.
  pose proof (init_planet_map_eq TConst s4 _ _ eq_refl eq_refl) as Omap.
  set (s5 := mkNamespace (attrs s4) _ _ _ _ _ _) in Omap.
  assert (star s5 = Some st) as Hst5 by exact St3.
  pose proof (init_sys_eq s5 st _ Hst5 eq_refl) as Osys.
  erewrite bind_ok in Hrun by exact Oplanet.
  erewrite bind_ok in Hrun by exact Omap.
  rewrite Osys in Hrun.
  eexists. split.
  { apply fit_dict_setter_inr. exact Hrun. }
  unfold is_fit_model, fit_star_of, fit_planet_of. simpl.
  split; [exact Hattrs|].
  assert (st = starry.mkPrimary
                 (starry.mkMap 0 (star_udeg (attrs s1)) (tnum 1) None None
                    (fit_limb_coefficients (value limb_dark)
                       (default (VNum 0) (attrs s1 !! "u1"))
                       (default (VNum 0) (attrs s1 !! "u2"))) ∅)
                 (TConst (default (VNum 0) (attrs s1 !! "Ms")))
                 (TConst (default (VNum 0) (attrs s1 !! "Rs"))) 1) as Est.
  { rewrite EMs, ERs. simpl default.
    destruct st as [[yd ud amp inc obl u y] m r prot]. simpl in *.
    congruence. }
  rewrite St3, Est. repeat split; reflexivity.
Qed.

(** A run of the setter that returns has found a row for every name. *)
Lemma fit_dict_setter_returns kw input_fit_dict fit :
  fit_dict_setter M_jup M_sun kw input_fit_dict = inr fit -> titles_have_rows kw.
Proof.
  intros H. apply fit_dict_setter_inr in H. rewrite fit_dict_build_assoc in H.
  apply bind_inr in H as (s1 & [] & H1 & _).
  apply (fit_loops kw input_fit_dict s1 H1).
Qed.

(** The object of a run that returns, and the conditions it has met. *)
Lemma fit_dict_built kw input_fit_dict fit :
  fit_dict_setter M_jup M_sun kw input_fit_dict = inr fit ->
  exists limb_dark,
    parameters kw !! "limb_dark" = Some limb_dark /\
    is_recognized_law (value limb_dark) = true /\
    first_missing (fit_attribute kw input_fit_dict) ["Ms"; "Rs"] = None /\
    first_missing (fit_attribute kw input_fit_dict) (law_reads (value limb_dark))
    = None /\
    first_missing (fit_attribute kw input_fit_dict) fit_planet_reads = None /\
    is_fit_model M_jup M_sun kw input_fit_dict (value limb_dark) fit.
Proof.
  intros H. pose proof (fit_dict_setter_returns kw input_fit_dict fit H) as Hrows.
  pose proof (fit_dict_outcome kw input_fit_dict Hrows) as O. cbv zeta in O.
  destruct (first_missing _ ["Ms"; "Rs"]) eqn:E1; [congruence|].
  destruct (parameters kw !! "limb_dark") as [limb_dark|]; [|congruence].
  destruct (first_missing _ (law_reads _)) eqn:E2; [congruence|].
  destruct (is_recognized_law _) eqn:E3; [|congruence].
  destruct (first_missing _ fit_planet_reads) eqn:E4; [congruence|].
  destruct O as (fit' & E & Hmodel).
  exists limb_dark. do 5 (split; [reflexivity || assumption|]).
  replace fit with fit' by congruence. exact Hmodel.
Qed.

End FitPlanetStage.

(* ===================================================================== *)
(** ** Properties of the [fit_dict] setter *)
(* ===================================================================== *)

Lemma fit_reads_split {V} (has : string -> option V) :
  (forall n, n ∈ fit_reads -> is_Some (has n)) <->
  first_missing has ["Ms"; "Rs"] = None /\
  first_missing has fit_planet_reads = None.
Proof.
  rewrite !first_missing_None. unfold fit_reads, fit_planet_reads.
  split.
  - intros H. split; intros n Hn; apply H;
      rewrite !elem_of_cons, elem_of_nil in *; tauto.
  - intros [H1 H2] n Hn.
    destruct (decide (n = "Ms")) as [->|Hne]; [apply H1; left|].
    apply H2. rewrite !elem_of_cons, elem_of_nil in *. tauto.
Qed.

Section FitTheorems.

Variables (M_jup M_sun : R).

(** X9. On a table whose law is not kipping2013 and with parameter names
    as listed names and as keys of [fit_dict], the setter runs to its end
    exactly when every listed name has a row, the nine attributes its star
    and planet read (Ms, Rs, fp, Mp, rp, per, inc, ecc, w) are fixed rows
    or fitted values, and the law is uniform, linear or quadratic with the
    coefficients it reads among them. The setter does not look at the
    [ptype] beyond fixed and independent, and it does not read the
    semi-major axis. *)
Theorem fit_returns_iff kw input_fit_dict :
  fit_names_are_parameters kw input_fit_dict ->
  law_is_direct kw ->
  ((exists fit, fit_dict_setter M_jup M_sun kw input_fit_dict = inr fit) <->
   titles_have_rows kw /\
   (forall n, n ∈ fit_reads -> is_Some (fit_attribute kw input_fit_dict n)) /\
   exists limb_dark,
     parameters kw !! "limb_dark" = Some limb_dark /\
     (value limb_dark = VStr "uniform" \/
      (value limb_dark = VStr "linear" /\
       is_Some (fit_attribute kw input_fit_dict "u1")) \/
      (value limb_dark = VStr "quadratic" /\
       is_Some (fit_attribute kw input_fit_dict "u1") /\
       is_Some (fit_attribute kw input_fit_dict "u2")))).
Proof.
  intros _ Hlaw.
  assert (law_served kw (fit_attribute kw input_fit_dict) <->
          exists limb_dark,
            parameters kw !! "limb_dark" = Some limb_dark /\
            (value limb_dark = VStr "uniform" \/
             (value limb_dark = VStr "linear" /\
              is_Some (fit_attribute kw input_fit_dict "u1")) \/
             (value limb_dark = VStr "quadratic" /\
              is_Some (fit_attribute kw input_fit_dict "u1") /\
              is_Some (fit_attribute kw input_fit_dict "u2")))) as <-.
  { unfold law_served. split.
    - intros (ld & Hp & [H|[H|[[H|H] H']]]); exists ld; split; try exact Hp; auto.
      destruct (Hlaw ld Hp H).
    - intros (ld & Hp & [H|[H|[H H']]]); exists ld; split; try exact Hp; auto. }
  rewrite fit_reads_split, law_served_iff. split.
  - intros (fit & H).
    pose proof (fit_dict_setter_returns M_jup M_sun kw input_fit_dict fit H) as Hrows.
    destruct (fit_dict_built M_jup M_sun kw input_fit_dict fit H)
      as (ld & Hp & Hrec & H1 & H2 & H3 & _).
    split; [exact Hrows|]. split; [split; assumption|]. eauto.
  - intros (Hrows & [H1 H3] & ld & Hp & Hrec & H2).
    pose proof (fit_dict_outcome M_jup M_sun kw input_fit_dict Hrows) as O.
    cbv zeta in O. rewrite H1, Hp, H2, Hrec, H3 in O.
    destruct O as (fit & E & _). eauto.
Qed.

(** X10. The exception of a failing setter, once every listed name has a
    row, on a table whose law is not kipping2013 and with parameter names
    as listed names and as keys of [fit_dict]: the [AttributeError] of the
    first attribute that a stage cannot read, in the order star (Ms, Rs),
    law (the row limb_dark, then u1, u2), planet (fp, Mp, rp, Rs, per,
    inc, ecc, w); the planet flux fp, which [__init__] replaces by 0 when
    it is missing, comes first among those of the planet. *)
Theorem fit_first_failure kw input_fit_dict :
  fit_names_are_parameters kw input_fit_dict ->
  law_is_direct kw ->
  titles_have_rows kw ->
  let has := fit_attribute kw input_fit_dict in
  match first_missing has ["Ms"; "Rs"] with
  | Some n => fit_dict_setter M_jup M_sun kw input_fit_dict = inl (AttributeError n)
  | None =>
      match parameters kw !! "limb_dark" with
      | None => fit_dict_setter M_jup M_sun kw input_fit_dict
                = inl (AttributeError "limb_dark")
      | Some limb_dark =>
          match first_missing has (law_reads (value limb_dark)) with
          | Some n => fit_dict_setter M_jup M_sun kw input_fit_dict
                      = inl (AttributeError n)
          | None =>
              if is_recognized_law (value limb_dark) then
                match first_missing has fit_planet_reads with
                | Some n => fit_dict_setter M_jup M_sun kw input_fit_dict
                            = inl (AttributeError n)
                | None =>
                    exists fit,
                      fit_dict_setter M_jup M_sun kw input_fit_dict = inr fit
                end
              else fit_dict_setter M_jup M_sun kw input_fit_dict
                   = inl (ValueError (LimbDarkNotHandled (value limb_dark)))
          end
      end
  end.
Proof.
  intros _ _ Hrows has. subst has.
  pose proof (fit_dict_outcome M_jup M_sun kw input_fit_dict Hrows) as O.
  cbv zeta in O.
  destruct (first_missing _ ["Ms"; "Rs"]); [exact O|].
  destruct (parameters kw !! "limb_dark") as [limb_dark|]; [|exact O].
  destruct (first_missing _ (law_reads _)); [exact O|].
  destruct (is_recognized_law _); [|exact O].
  destruct (first_missing _ fit_planet_reads); [exact O|].
  destruct O as (fit & E & _). eauto.
Qed.

(** X11. The attributes [fit] holds under the parameter names, the names
    that the setter does not assign itself as it does star, ydeg, planet
    and sys: under a listed name with a fixed row, the value of the row,
    also when [fit_dict] holds a value under that name; under any other
    parameter name the value of [fit_dict], if it has one. *)
Theorem fit_attributes kw input_fit_dict fit :
  fit_dict_setter M_jup M_sun kw input_fit_dict = inr fit ->
  forall n,
    is_parameter_name n = true ->
    (forall p, n ∈ paramtitles kw -> parameters kw !! n = Some p ->
               ptype p = "fixed" -> attrs fit !! n = Some (value p)) /\
    (forall p, n ∈ paramtitles kw -> parameters kw !! n = Some p ->
               ptype p <> "fixed" ->
               attrs fit !! n = VNum <$> dict_get input_fit_dict n) /\
    (n ∉ paramtitles kw -> attrs fit !! n = VNum <$> dict_get input_fit_dict n).
Proof.
  intros H n _.
  destruct (fit_dict_built M_jup M_sun kw input_fit_dict fit H)
    as (ld & _ & _ & _ & _ & _ & Hattrs & _).
  rewrite Hattrs. unfold fit_attribute. split; [|split].
  - intros p Hn Hp Hfixed. rewrite (bool_decide_eq_true_2 _ Hn), Hp, Hfixed.
    reflexivity.
  - intros p Hn Hp Hfree. rewrite (bool_decide_eq_true_2 _ Hn), Hp.
    destruct (String.eqb_spec (ptype p) "fixed"); [contradiction|reflexivity].
  - intros Hn. rewrite (bool_decide_eq_false_2 _ Hn). reflexivity.
Qed.

End FitTheorems.

Lemma titles_checked_rows kw : titles_checked kw = true -> titles_have_rows kw.
Proof.
  intros H n Hn. destruct (titles_checked_true kw H n Hn) as (p & Hp & _).
  rewrite Hp. eauto.
Qed.

(** The law of a table whose row limb_dark holds another string. *)
Lemma law_is_direct_of kw limb_dark :
  parameters kw !! "limb_dark" = Some limb_dark ->
  is_str (value limb_dark) "kipping2013" = false ->
  law_is_direct kw.
Proof.
  intros Hp Hlaw ld Hld E. rewrite Hp in Hld. injection Hld as <-.
  rewrite E in Hlaw. discriminate.
Qed.

(** X9 at the complete scenario, whose law is quadratic, with the constant
    term of the trend fitted: the setter runs to its end. *)
Lemma fit_returns_iff_witness :
  exists fit, fit_dict_setter 1 1047 kw_scenario_complete [("c0", 1)] = inr fit.
Proof.
  apply (fit_returns_iff 1 1047 kw_scenario_complete [("c0", 1)]).
  - split.
    + apply (bool_decide_unpack _). vm_compute. reflexivity.
    + apply Forall_cons. split; [reflexivity|]. apply Forall_nil. exact I.
  - apply (law_is_direct_of _ (limb_dark_param "quadratic"));
      vm_compute; reflexivity.
  - split; [apply titles_checked_rows; vm_compute; reflexivity|]. split.
    + apply Forall_forall.
      repeat (apply Forall_cons; split; [vm_compute; eauto|]).
      apply Forall_nil. exact I.
    + exists (limb_dark_param "quadratic").
      split; [vm_compute; reflexivity|]. right. right.
      split; [reflexivity|]. split; vm_compute; eauto.
Defined.

(** X10 at the transit without a planet flux: [__init__] builds the model,
    the setter stops at fp. *)
Lemma fit_first_failure_witness :
  (exists self, StarryModel 1 1047 kw_no_fp = inr self) /\
  fit_dict_setter 1 1047 kw_no_fp [] = inl (AttributeError "fp").
Proof.
  split; [eexists; vm_compute; reflexivity|].
  set (kw := kw_no_fp).
  assert (titles_have_rows kw) as Hrows
    by (apply titles_checked_rows; vm_compute; reflexivity).
  assert (fit_names_are_parameters kw []) as Hnames.
  { split; [|apply Forall_nil; exact I].
    apply (bool_decide_unpack _). vm_compute. reflexivity. }
  assert (law_is_direct kw) as Hlaw
    by (apply (law_is_direct_of _ (limb_dark_param "quadratic"));
        vm_compute; reflexivity).
  pose proof (fit_first_failure 1 1047 kw [] Hnames Hlaw Hrows) as H.
  set (r := fit_dict_setter 1 1047 kw []) in *.
  vm_compute in H. exact H.
Defined.

(** X11 at the scenario with a fitted planet flux: the fixed period stays
    3.5 although [fit_dict] holds a value for it, and fp is the fitted
    value. *)
Lemma fit_attributes_witness :
  exists fit,
    fit_dict_setter 1 1047 kw_fitted_fp [("fp", 0.001); ("per", 4)] = inr fit /\
    attrs fit !! "per" = Some (VNum 3.5) /\
    attrs fit !! "fp" = Some (VNum 0.001).
Proof.
  destruct (fit_dict_setter 1 1047 kw_fitted_fp [("fp", 0.001); ("per", 4)])
    as [e|fit] eqn:E; [vm_compute in E; discriminate|].
  exists fit. split; [reflexivity|].
  destruct (fit_attributes 1 1047 kw_fitted_fp _ fit E "per" eq_refl)
    as (Hper & _ & _).
  destruct (fit_attributes 1 1047 kw_fitted_fp _ fit E "fp" eq_refl)
    as (_ & Hfp & _).
  split.
  - apply (Hper (fixed_param "per" 3.5)).
    + apply (bool_decide_eq_true_1 _). vm_compute. reflexivity.
    + vm_compute. reflexivity.
    + reflexivity.
  - rewrite (Hfp (sampled_param "fp" 0 "free" 0 1 "U")).
    + vm_compute. reflexivity.
    + apply (bool_decide_eq_true_1 _). vm_compute. reflexivity.
    + vm_compute. reflexivity.
    + discriminate.
Defined.

(* ===================================================================== *)
(** ** The random variables of a system *)
(* ===================================================================== *)

Lemma vars_in_const allowed v : vars_in allowed (TConst v).
Proof. intros x Hx. inversion Hx. Qed.

Lemma vars_in_binary allowed a b :
  vars_in allowed a -> vars_in allowed b ->
  vars_in allowed (TAdd a b) /\ vars_in allowed (TSub a b) /\
  vars_in allowed (TMul a b) /\ vars_in allowed (TDiv a b).
Proof.
  intros Ha Hb. repeat split; intros x Hx; simpl in Hx;
    apply elem_of_app in Hx as [Hx|Hx]; auto.
Qed.

Lemma vars_in_mul allowed a b :
  vars_in allowed a -> vars_in allowed b -> vars_in allowed (TMul a b).
Proof. intros Ha Hb. apply (vars_in_binary allowed a b Ha Hb). Qed.

Lemma vars_in_div allowed a b :
  vars_in allowed a -> vars_in allowed b -> vars_in allowed (TDiv a b).
Proof. intros Ha Hb. apply (vars_in_binary allowed a b Ha Hb). Qed.

Lemma vars_in_sub allowed a b :
  vars_in allowed a -> vars_in allowed b -> vars_in allowed (TSub a b).
Proof. intros Ha Hb. apply (vars_in_binary allowed a b Ha Hb). Qed.

Lemma vars_in_sqrt allowed a : vars_in allowed a -> vars_in allowed (TSqrt a).
Proof. intros Ha. exact Ha. Qed.

Lemma vars_in_default {V} allowed (lift : V -> tensor) (a : gmap string V) n d :
  (forall n x, a !! n = Some x -> vars_in allowed (lift x)) ->
  vars_in allowed (lift d) ->
  vars_in allowed (lift (default d (a !! n))).
Proof.
  intros Ha Hd. destruct (a !! n) as [x|] eqn:E; simpl; [exact (Ha n x E)|exact Hd].
Qed.

(** A tensor without variables has the same value at every point. *)
Lemma teval_closed t theta theta' :
  vars_in (fun _ => False) t -> teval theta t = teval theta' t.
Proof.
  induction t as [v|name d|a IHa b IHb|a IHa b IHb|a IHa b IHb|a IHa b IHb
                  |a IHa|a IHa|a IHa]; intros H; simpl.
  - reflexivity.
  - destruct (H name). left.
  - rewrite IHa, IHb; [reflexivity| |]; intros x Hx; apply (H x); simpl;
      apply elem_of_app; auto.
  - rewrite IHa, IHb; [reflexivity| |]; intros x Hx; apply (H x); simpl;
      apply elem_of_app; auto.
  - rewrite IHa, IHb; [reflexivity| |]; intros x Hx; apply (H x); simpl;
      apply elem_of_app; auto.
  - rewrite IHa, IHb; [reflexivity| |]; intros x Hx; apply (H x); simpl;
      apply elem_of_app; auto.
  - rewrite IHa; [reflexivity|exact H].
  - rewrite IHa; [reflexivity|exact H].
  - rewrite IHa; [reflexivity|exact H].
Qed.

Lemma map_tensors_forall (P : tensor -> Prop) mp :
  P (starry.Map_amp mp) ->
  (forall n t, starry.Map_u mp !! n = Some t -> P t) ->
  (forall lm t, starry.Map_y mp !! lm = Some t -> P t) ->
  forall t, t ∈ map_tensors mp -> P t.
Proof.
  intros Hamp Hu Hy t Ht. unfold map_tensors in Ht.
  apply elem_of_cons in Ht as [->|Ht]; [exact Hamp|].
  apply elem_of_app in Ht as [Ht|Ht];
    apply list_elem_of_fmap in Ht as ([k x] & -> & Hkx);
    apply elem_of_map_to_list in Hkx; eauto.
Qed.

Lemma option_tensor_forall (P : tensor -> Prop) o :
  (forall t, o = Some t -> P t) -> forall t, t ∈ option_tensor o -> P t.
Proof.
  intros H t Ht. destruct o as [x|]; simpl in Ht.
  - apply list_elem_of_singleton in Ht as ->. auto.
  - inversion Ht.
Qed.

(** The limb-darkening coefficients are made of u1 and u2. *)
Lemma init_limb_coefficients_forall (P : tensor -> Prop) law u1 u2 :
  P u1 -> P u2 ->
  P (TMul (TMul (tnum 2) (TSqrt u1)) u2) ->
  P (TMul (TSqrt u1) (TSub (tnum 1) (TMul (tnum 2) u2))) ->
  forall n t, init_limb_coefficients law u1 u2 !! n = Some t -> P t.
Proof.
  intros H1 H2 H3 H4 n t. unfold init_limb_coefficients.
  destruct (is_str law "kipping2013");
    [|destruct (is_str law "quadratic"); [|destruct (is_str law "linear")]];
    intros Hn;
    destruct (decide (n = 2%nat)) as [E2|N2];
    destruct (decide (n = 1%nat)) as [E1|N1]; subst;
    repeat first [ rewrite lookup_insert_eq in Hn
                 | rewrite lookup_insert_ne in Hn by congruence ];
    rewrite ?lookup_empty in Hn;
    first [ discriminate | injection Hn as <-; assumption ].
Qed.

Lemma fit_limb_coefficients_forall (P : tensor -> Prop) law u1 u2 :
  P (TConst u1) -> P (TConst u2) ->
  P (TMul (TMul (tnum 2) (TSqrt (TConst u1))) (TConst u2)) ->
  P (TMul (TSqrt (TConst u1)) (TSub (tnum 1) (TMul (tnum 2) (TConst u2)))) ->
  forall n t, fit_limb_coefficients law u1 u2 !! n = Some t -> P t.
Proof.
  intros H1 H2 H3 H4 n t. unfold fit_limb_coefficients.
  destruct (is_str law "kipping2013");
    [|destruct (is_str law "linear"); [|destruct (is_str law "quadratic")]];
    intros Hn;
    destruct (decide (n = 2%nat)) as [E2|N2];
    destruct (decide (n = 1%nat)) as [E1|N1]; subst;
    repeat first [ rewrite lookup_insert_eq in Hn
                 | rewrite lookup_insert_ne in Hn by congruence ];
    rewrite ?lookup_empty in Hn;
    first [ discriminate | injection Hn as <-; assumption ].
Qed.

(** The harmonic coefficients are attributes. *)
Lemma apply_harmonics_forall {V} (P : tensor -> Prop) (lift : V -> tensor)
    (a : gmap string V) yd pl :
  (forall n x, a !! n = Some x -> P (lift x)) ->
  (forall lm t, starry.Map_y (starry.Secondary_map pl) !! lm = Some t -> P t) ->
  forall lm t,
    starry.Map_y (starry.Secondary_map (apply_harmonics lift a yd pl)) !! lm
    = Some t -> P t.
Proof.
  intros Ha Hpl.
  assert (forall attr l m pl0,
             (forall lm t, starry.Map_y (starry.Secondary_map pl0) !! lm = Some t
                           -> P t) ->
             forall lm t,
               starry.Map_y (starry.Secondary_map (set_harmonic lift a attr l m pl0))
               !! lm = Some t -> P t) as Hstep.
  { intros attr l m pl0 H0 lm t. unfold set_harmonic.
    destruct (a !! attr) as [x|] eqn:E; [|apply H0].
    simpl. destruct (decide (lm = (l, m))) as [->|Hne].
    - rewrite lookup_insert_eq. intros [= <-]. eauto.
    - rewrite lookup_insert_ne by congruence. apply H0. }
  unfold apply_harmonics. destruct (Nat.eqb yd 2); repeat apply Hstep; exact Hpl.
Qed.

Ltac vars_in_steps :=
  repeat first
    [ apply vars_in_const
    | apply vars_in_mul
    | apply vars_in_div
    | apply vars_in_sub
    | apply vars_in_sqrt
    | assumption ].

Section SystemVariables.

Variables (M_jup M_sun : R).

Lemma init_system_vars allowed (a : gmap string tensor) law :
  (forall n x, a !! n = Some x -> vars_in allowed x) ->
  forall t,
    t ∈ system_tensors (starry.mkSystem (init_star_of a law)
                          (init_planet_of M_jup M_sun a)) ->
    vars_in allowed t.
Proof.
  intros Ha.
  assert (forall n, vars_in allowed (default (tnum 0) (a !! n))) as Hget.
  { intros n. apply (vars_in_default allowed (fun x => x) a n (tnum 0) Ha).
    apply vars_in_const. }
  intros t Ht. unfold system_tensors in Ht. cbv zeta in Ht.
  simpl starry.System_primary in Ht. simpl starry.System_secondary in Ht.
  unfold init_planet_of in Ht.
  set (pl0 := starry.mkSecondary _ _ _ _ _ _ _ _ _ _ _) in Ht.
  pose proof (apply_harmonics_fields (fun x : tensor => x) a (planet_ydeg a) pl0)
    as F.
  cbv zeta in F.
  destruct F as (F1 & F2 & F3 & F4 & F5 & F6 & F7 & F8 & F9 & F10 & F11 & F12 &
                 F13 & F14 & F15 & F16).
  simpl starry.Secondary_m in Ht. simpl starry.Secondary_r in Ht.
  simpl starry.Secondary_inc in Ht. simpl starry.Secondary_ecc in Ht.
  simpl starry.Secondary_w in Ht. simpl starry.Secondary_a in Ht.
  simpl starry.Secondary_porb in Ht. simpl starry.Secondary_prot in Ht.
  simpl starry.Secondary_map in Ht.
  rewrite F1, F2, F3, F4, F5, F6, F7, F8 in Ht.
  rewrite !elem_of_app in Ht.
  destruct Ht as [Ht|[Ht|[Ht|[Ht|[Ht|[Ht|Ht]]]]]].
  - revert t Ht. apply map_tensors_forall; simpl.
    + apply vars_in_const.
    + apply init_limb_coefficients_forall; vars_in_steps; apply Hget.
    + intros lm t Ht. rewrite lookup_empty in Ht. discriminate.
  - simpl in Ht. rewrite !elem_of_cons, elem_of_nil in Ht.
    destruct Ht as [->|[->|[]]]; apply Hget.
  - revert t Ht. apply map_tensors_forall.
    + rewrite F13. simpl. apply Hget.
    + rewrite F16. simpl. intros n t Ht. rewrite lookup_empty in Ht. discriminate.
    + apply (apply_harmonics_forall (vars_in allowed) (fun x => x)); [exact Ha|].
      simpl. intros lm t Ht. rewrite lookup_empty in Ht. discriminate.
  - subst pl0. simpl in Ht. rewrite !elem_of_cons, elem_of_nil in Ht.
    destruct Ht as [->|[->|[->|[->|[->|[]]]]]]; vars_in_steps; apply Hget.
  - revert t Ht. apply option_tensor_forall. subst pl0. simpl. eauto.
  - revert t Ht. apply option_tensor_forall. subst pl0. simpl. eauto.
  - revert t Ht. apply option_tensor_forall. subst pl0. simpl. eauto.
Qed.

Lemma fit_system_vars allowed (a : gmap string pyvalue) law :
  forall t,
    t ∈ system_tensors (starry.mkSystem (fit_star_of a law)
                          (fit_planet_of M_jup M_sun a)) ->
    vars_in allowed t.
Proof.
  intros t Ht. unfold system_tensors in Ht. cbv zeta in Ht.
  simpl starry.System_primary in Ht. simpl starry.System_secondary in Ht.
  unfold fit_planet_of in Ht.
  set (pl0 := starry.mkSecondary _ _ _ _ _ _ _ _ _ _ _) in Ht.
  pose proof (apply_harmonics_fields TConst a (planet_ydeg a) pl0) as F.
  cbv zeta in F.
  destruct F as (F1 & F2 & F3 & F4 & F5 & F6 & F7 & F8 & F9 & F10 & F11 & F12 &
                 F13 & F14 & F15 & F16).
  simpl starry.Secondary_m in Ht. simpl starry.Secondary_r in Ht.
  simpl starry.Secondary_inc in Ht. simpl starry.Secondary_ecc in Ht.
  simpl starry.Secondary_w in Ht. simpl starry.Secondary_a in Ht.
  simpl starry.Secondary_porb in Ht. simpl starry.Secondary_prot in Ht.
  simpl starry.Secondary_map in Ht.
  rewrite F1, F2, F3, F4, F5, F6, F7, F8 in Ht.
  rewrite !elem_of_app in Ht.
  destruct Ht as [Ht|[Ht|[Ht|[Ht|[Ht|[Ht|Ht]]]]]].
  - revert t Ht. apply map_tensors_forall; simpl.
    + apply vars_in_const.
    + apply fit_limb_coefficients_forall; vars_in_steps.
    + intros lm t Ht. rewrite lookup_empty in Ht. discriminate.
  - simpl in Ht. rewrite !elem_of_cons, elem_of_nil in Ht.
    destruct Ht as [->|[->|[]]]; apply vars_in_const.
  - revert t Ht. apply map_tensors_forall.
    + rewrite F13. simpl. apply vars_in_const.
    + rewrite F16. simpl. intros n t Ht. rewrite lookup_empty in Ht. discriminate.
    + apply (apply_harmonics_forall (vars_in allowed) TConst).
      * intros n x _. apply vars_in_const.
      * simpl. intros lm t Ht. rewrite lookup_empty in Ht. discriminate.
  - subst pl0. simpl in Ht. rewrite !elem_of_cons, elem_of_nil in Ht.
    destruct Ht as [->|[->|[->|[->|[->|[]]]]]]; vars_in_steps.
  - revert t Ht. apply option_tensor_forall. subst pl0. simpl. discriminate.
  - revert t Ht. apply option_tensor_forall. subst pl0. simpl.
    intros t [= <-]. apply vars_in_const.
  - revert t Ht. apply option_tensor_forall. subst pl0. simpl.
    intros t [= <-]. apply vars_in_const.
Qed.

(** The variables of an attribute that [__init__] assigned. *)
Lemma init_attribute_vars kw n t :
  titles_well_formed kw ->
  init_attribute kw n = Some t ->
  vars_in (sampled_name kw) t.
Proof.
  intros Hwf. unfold init_attribute.
  destruct (decide (n ∈ paramtitles kw)) as [Hn|Hn];
    [rewrite (bool_decide_eq_true_2 _ Hn)
    |rewrite (bool_decide_eq_false_2 _ Hn); discriminate].
  destruct (Hwf n Hn) as (p & Hp & Hptype). rewrite Hp. simpl.
  unfold row_tensor, sampled_tensor, prior_table.
  apply recognized_ptypes_iff in Hptype.
  destruct (String.eqb_spec (ptype p) "independent") as [E1|N1]; [discriminate|].
  destruct (String.eqb_spec (ptype p) "fixed") as [E2|N2].
  { intros [= <-]. apply vars_in_const. }
  assert (ptype p = "free" \/ ptype p = "shared") as Hsampled by tauto.
  assert (forall d, (prior p = "U" \/ prior p = "N" \/ prior p = "LU") ->
                    vars_in (sampled_name kw) (TVar n d)) as Hvar.
  { intros d Hprior v Hv. simpl in Hv. apply list_elem_of_singleton in Hv as ->.
    split; [exact Hn|]. eauto. }
  destruct (String.eqb_spec (prior p) "U") as [EU|NU].
  { intros [= <-]. apply Hvar. auto. }
  destruct (String.eqb_spec (prior p) "N") as [EN|NN].
  { intros [= <-]. simpl.
    destruct (bool_decide _); [|destruct (bool_decide _)]; apply Hvar; auto. }
  destruct (String.eqb_spec (prior p) "LU") as [EL|NL]; [|discriminate].
  intros [= <-].
  exact (Hvar (Uniform (priorpar1 p) (priorpar2 p)) (or_intror (or_intror EL))).
Qed.

(** X12. Every random variable in the system of a built model is named
    after a listed parameter with a free or shared row and a prior code U,
    N or LU: the star, the planet and their maps depend on the sampled
    parameters and on nothing else. *)
Theorem built_model_variables kw self :
  StarryModel M_jup M_sun kw = inr self ->
  exists system,
    sys self = Some system /\
    forall t v, t ∈ system_tensors system -> v ∈ tensor_vars t ->
      v ∈ paramtitles kw /\
      exists p, parameters kw !! v = Some p /\
                (ptype p = "free" \/ ptype p = "shared") /\
                (prior p = "U" \/ prior p = "N" \/ prior p = "LU").
Proof.
  intros H.
  destruct (StarryModel_returns M_jup M_sun kw self H) as [_ Hwf].
  destruct (StarryModel_built M_jup M_sun kw self H)
    as (ld & _ & _ & _ & _ & _ & Hattrs & _ & _ & _ & Hsys).
  eexists. split; [exact Hsys|].
  intros t v Ht Hv.
  apply (init_system_vars (sampled_name kw) (attrs self) (value ld)) in Ht.
  - exact (Ht v Hv).
  - intros n x Hx. rewrite Hattrs in Hx.
    exact (init_attribute_vars kw n x Hwf Hx).
Qed.

(** X13. The system of [fit] holds no random variable: each of its
    tensors has the same value at every parameter point. *)
Theorem fitted_system_is_closed kw input_fit_dict fit :
  fit_dict_setter M_jup M_sun kw input_fit_dict = inr fit ->
  exists system,
    sys fit = Some system /\
    forall t, t ∈ system_tensors system ->
      tensor_vars t = [] /\
      forall theta theta', teval theta t = teval theta' t.
Proof.
  intros H.
  destruct (fit_dict_built M_jup M_sun kw input_fit_dict fit H)
    as (ld & _ & _ & _ & _ & _ & _ & _ & _ & _ & Hsys).
  eexists. split; [exact Hsys|].
  intros t Ht.
  apply (fit_system_vars (fun _ => False) (attrs fit) (value ld)) in Ht.
  split.
  - destruct (tensor_vars t) as [|v l] eqn:E; [reflexivity|].
    destruct (Ht v). rewrite E. left.
  - intros theta theta'. apply teval_closed. exact Ht.
Qed.

End SystemVariables.

(* ===================================================================== *)
(** ** Loops over the channels *)
(* ===================================================================== *)

Lemma run_inr {S A} (m : PyM S A) s s' a : m s = (s', inr a) -> run m s = inr s'.
Proof. intros H. unfold run. rewrite H. reflexivity. Qed.

Lemma run_inl {S A} (m : PyM S A) s s' e : m s = (s', inl e) -> run m s = inl e.
Proof. intros H. unfold run. rewrite H. reflexivity. Qed.

Lemma run_inr_inv {S} (m : PyM S unit) s s' :
  run m s = inr s' -> m s = (s', inr tt).
Proof.
  unfold run. destruct (m s) as [s1 [e|[]]]; [discriminate|].
  intros [= ->]. reflexivity.
Qed.

(** An invariant of the loop body is an invariant of the loop. *)
Lemma for_each_invariant {S A} (P : S -> Prop) (l : list A) (body : A -> PyM S unit) :
  (forall x s s', P s -> body x s = (s', inr tt) -> P s') ->
  forall s s', P s -> for_each l body s = (s', inr tt) -> P s'.
Proof.
  intros Hbody. induction l as [|x l IH]; intros s s' Hs Hrun.
  - injection Hrun as <-. exact Hs.
  - simpl in Hrun. apply bind_inr in Hrun as (s1 & [] & Hx & Hrest).
    eapply IH; [|exact Hrest]. eapply Hbody; eassumption.
Qed.

(** A loop over the row indices of a table whose body appends a piece
    computed from the row. *)
Lemma for_each_rows {A B} (tbl : list A) (piece : A -> list B)
    (body : nat -> PyM (list B) unit) :
  (forall c row acc, tbl !! c = Some row ->
                     body c acc = ((acc ++ piece row)%list, inr tt)) ->
  forall acc,
    for_each (seq 0 (length tbl)) body acc
    = ((acc ++ concat (map piece tbl))%list, inr tt).
Proof.
  intros Hbody.
  assert (forall rows pre acc,
             tbl = (pre ++ rows)%list ->
             for_each (seq (length pre) (length rows)) body acc
             = ((acc ++ concat (map piece rows))%list, inr tt)) as Hgen.
  { induction rows as [|row rows IH]; intros pre acc Htbl.
    - simpl. rewrite app_nil_r. reflexivity.
    - simpl. erewrite bind_ok.
      2:{ apply Hbody. rewrite Htbl. apply list_lookup_middle. reflexivity. }
      cbv beta.
      replace (S (length pre)) with (length (pre ++ [row])%list)
        by (rewrite length_app; simpl; lia).
      rewrite (IH (pre ++ [row])%list).
      + rewrite <- app_assoc. reflexivity.
      + rewrite <- app_assoc. exact Htbl. }
  intros acc. apply (Hgen tbl [] acc). reflexivity.
Qed.

Lemma length_concat_blocks {A} (blocks : list (list A)) n :
  Forall (fun b => length b = n) blocks ->
  length (concat blocks) = (length blocks * n)%nat.
Proof.
  induction 1 as [|b blocks Hb _ IH]; simpl; [reflexivity|].
  rewrite length_app, IH, Hb. reflexivity.
Qed.

(** The block [c] of a concatenation of blocks of equal length. *)
Lemma slice_concat_blocks {A} (blocks : list (list A)) n c b :
  Forall (fun b => length b = n) blocks ->
  blocks !! c = Some b ->
  take n (drop (c * n) (concat blocks)) = b.
Proof.
  intros Hall. revert c. induction Hall as [|b0 blocks Hb0 _ IH]; intros c Hc.
  - discriminate.
  - destruct c as [|c]; simpl in Hc; cbn [concat Nat.mul].
    + injection Hc as ->. rewrite drop_0.
      rewrite take_app_length'; [reflexivity|]. symmetry. exact Hb0.
    + rewrite drop_app.
      replace (drop (n + c * n) b0) with (@nil A)
        by (symmetry; apply drop_ge; lia).
      rewrite Hb0. replace (n + c * n - n)%nat with (c * n)%nat by lia.
      simpl. apply IH. exact Hc.
Qed.

(* ===================================================================== *)
(** ** The two trends, channel after channel *)
(* ===================================================================== *)

(** The polynomial trend on a table of [nchan] rows. *)
Lemma poly_flux_eval_run nchan poly time :
  length poly = nchan ->
  run (poly_flux_eval nchan poly time) []
  = inr (concat (map (fun row =>
                        map (fun t => np_polyval (np_poly1d row) (t - np_mean time))
                            time) poly)).
Proof.
  intros <-. unfold poly_flux_eval. eapply run_inr.
  rewrite (for_each_rows poly
             (fun row => map (fun t => np_polyval (np_poly1d row) (t - np_mean time))
                             time)).
  - reflexivity.
  - intros c row acc Hrow. unfold bind, getitem, modify. rewrite Hrow.
    rewrite map_map. reflexivity.
Qed.

(** The ramp trend on a table of [nchan] rows of six terms. *)
Lemma ramp_flux_eval_run nchan ramp t0 time :
  length ramp = nchan ->
  Forall (fun row => length row = 6%nat) ramp ->
  run (ramp_flux_eval nchan ramp (t0 :: time)) []
  = inr (concat (map (fun row => map (fun t => ramp_value row (t - t0)) (t0 :: time))
                     ramp)).
Proof.
  intros <- Hrows. unfold ramp_flux_eval. eapply run_inr.
  erewrite bind_ok by reflexivity. cbv beta zeta.
  rewrite (for_each_rows ramp
             (fun row => map (fun t => ramp_value row (t - t0)) (t0 :: time))).
  - reflexivity.
  - intros c row acc Hrow. unfold bind, getitem, modify. rewrite Hrow.
    assert (length row = 6%nat) as Hlen.
    { rewrite Forall_forall in Hrows. apply Hrows.
      eapply list_elem_of_lookup_2, Hrow. }
    destruct row as [|r0 [|r1 [|r2 [|r3 [|r4 [|r5 [|r6 row]]]]]]];
      try discriminate Hlen.
    unfold ramp_piece, ret. rewrite map_map. reflexivity.
Qed.

(** Without a time sample the ramp trend cannot read [time[0]]. *)
Lemma ramp_flux_eval_empty nchan ramp :
  run (ramp_flux_eval nchan ramp []) [] = inl IndexError.
Proof. reflexivity. Qed.

(* ===================================================================== *)
(** ** The shape of the decoded tables *)
(* ===================================================================== *)

Lemma setitem2_shape {A} (tbl tbl' : list (list A)) i j v ncols :
  setitem2 i j v tbl = inr tbl' ->
  length tbl' = length tbl /\
  (Forall (fun row => length row = ncols) tbl ->
   Forall (fun row => length row = ncols) tbl').
Proof.
  unfold setitem2. destruct (tbl !! i) as [row|] eqn:Hrow; [|discriminate].
  destruct (Nat.ltb _ _); [|discriminate]. intros [= <-].
  split; [apply length_insert|].
  intros Hall. apply Forall_insert; [exact Hall|].
  rewrite length_insert. rewrite Forall_forall in Hall. apply Hall.
  eapply list_elem_of_lookup_2, Hrow.
Qed.

Lemma poly_setitem_shaped {A} nchan (tb tb' : tables A) ch d v :
  shaped nchan tb -> poly_setitem ch d v tb = (tb', inr tt) -> shaped nchan tb'.
Proof.
  intros (H1 & H2 & H3 & H4). unfold poly_setitem.
  destruct (setitem2 ch d v (poly_coeffs tb)) as [e|p] eqn:E; [discriminate|].
  intros [= <-]. destruct (setitem2_shape _ _ _ _ _ 10%nat E) as [Hlen Hrows].
  unfold shaped. simpl. repeat split; auto. congruence.
Qed.

Lemma ramp_setitem_shaped {A} nchan (tb tb' : tables A) ch d v :
  shaped nchan tb -> ramp_setitem ch d v tb = (tb', inr tt) -> shaped nchan tb'.
Proof.
  intros (H1 & H2 & H3 & H4). unfold ramp_setitem.
  destruct (setitem2 ch d v (ramp_coeffs tb)) as [e|p] eqn:E; [discriminate|].
  intros [= <-]. destruct (setitem2_shape _ _ _ _ _ 6%nat E) as [Hlen Hrows].
  unfold shaped. simpl. repeat split; auto. congruence.
Qed.

Lemma decode_fit_item_shaped nchan kv tb tb' :
  shaped nchan tb -> decode_fit_item nchan kv tb = (tb', inr tt) -> shaped nchan tb'.
Proof.
  intros Hs. unfold decode_fit_item. cbv zeta.
  repeat match goal with
         | |- context [if ?b then _ else _] => destruct b
         end;
    first [ apply poly_setitem_shaped; exact Hs
          | apply ramp_setitem_shaped; exact Hs
          | intros [= <-]; exact Hs ].
Qed.

Lemma decoded_tables_shaped nchan fit_dict tb :
  run (for_each fit_dict (decode_fit_item nchan)) (zero_tables 0 nchan) = inr tb ->
  shaped nchan tb.
Proof.
  intros H. apply run_inr_inv in H.
  eapply (for_each_invariant (shaped nchan)); [|apply shaped_zero_tables|exact H].
  intros kv s s' Hs Hstep. eapply decode_fit_item_shaped; eassumption.
Qed.

Lemma trim_and_flip_length poly : length (trim_and_flip poly) = length poly.
Proof. unfold trim_and_flip. apply length_map. Qed.

(* ===================================================================== *)
(** ** The systematics of several channels *)
(* ===================================================================== *)

Lemma share_slice_blocks chan time (blocks : list (list R)) b :
  Forall (fun b => length b = length time) blocks ->
  blocks !! chan = Some b ->
  share_slice chan time (concat blocks) = b.
Proof.
  intros Hall Hb. unfold share_slice.
  replace ((chan + 1) * length time - chan * length time)%nat
    with (length time) by lia.
  apply slice_concat_blocks; assumption.
Qed.

Lemma share_slice_zip_with chan time (a b : list R) :
  share_slice chan time (zip_with Rmult a b)
  = zip_with Rmult (share_slice chan time a) (share_slice chan time b).
Proof. unfold share_slice. rewrite zip_with_drop, zip_with_take. reflexivity. Qed.

(** The flux [syseval(eval=True)] computes from the decoded tables. *)
Lemma syseval_eval_decoded nchan fit_dict t0 time tb :
  run (for_each fit_dict (decode_fit_item nchan)) (zero_tables 0 nchan) = inr tb ->
  syseval_eval nchan fit_dict (t0 :: time)
  = inr (zip_with Rmult
           (concat (map (fun row =>
                           map (fun t => np_polyval (np_poly1d row)
                                           (t - np_mean (t0 :: time)))
                               (t0 :: time))
                        (trim_and_flip (poly_coeffs tb))))
           (concat (map (fun row =>
                           map (fun t => ramp_value row (t - t0)) (t0 :: time))
                        (ramp_coeffs tb)))).
Proof.
  intros Hdec. destruct (decoded_tables_shaped nchan fit_dict tb Hdec)
    as (Hp & _ & Hr & Hr6).
  unfold syseval_eval. rewrite Hdec.
  rewrite (poly_flux_eval_run nchan) by (rewrite trim_and_flip_length; exact Hp).
  rewrite (ramp_flux_eval_run nchan) by assumption.
  reflexivity.
Qed.

(** The length of what [syseval(eval=True)] returns. *)
Lemma syseval_eval_length nchan fit_dict time flux :
  syseval_eval nchan fit_dict time = inr flux ->
  length flux = (nchan * length time)%nat.
Proof.
  intros H.
  destruct (run (for_each fit_dict (decode_fit_item nchan)) (zero_tables 0 nchan))
    as [e|tb] eqn:Hdec.
  { unfold syseval_eval in H. rewrite Hdec in H. discriminate. }
  destruct time as [|t0 time].
  { unfold syseval_eval in H. rewrite Hdec in H.
    destruct (run (poly_flux_eval _ _ _) _); [discriminate|].
    rewrite ramp_flux_eval_empty in H. discriminate. }
  destruct (decoded_tables_shaped nchan fit_dict tb Hdec) as (Hp & _ & Hr & _).
  rewrite (syseval_eval_decoded nchan fit_dict t0 time tb Hdec) in H.
  injection H as <-.
  set (T := (t0 :: time)).
  rewrite length_zip_with.
  rewrite (length_concat_blocks _ (length T)).
  2:{ apply Forall_forall. intros b Hb.
      apply list_elem_of_fmap in Hb as (row & -> & _).
      subst T. simpl. f_equal. apply length_map. }
  rewrite (length_concat_blocks _ (length T)).
  2:{ apply Forall_forall. intros b Hb.
      apply list_elem_of_fmap in Hb as (row & -> & _).
      subst T. simpl. f_equal. apply length_map. }
  rewrite !length_map, trim_and_flip_length, Hp, Hr. lia.
Qed.

(** X14. Once the names of [fit_dict] are decoded and there is at least
    one time sample, [syseval(eval=True)] returns one block of
    [len(time)] values per channel, in channel order; the block of a
    channel, which is the slice [plot] takes with [share=True], is the
    polynomial of the channel at the centred times multiplied by its ramp
    at the times since the first sample. *)
Theorem syseval_eval_channels nchan fit_dict time tb :
  run (for_each fit_dict (decode_fit_item nchan)) (zero_tables 0 nchan) = inr tb ->
  time <> [] ->
  exists flux,
    syseval_eval nchan fit_dict time = inr flux /\
    length flux = (nchan * length time)%nat /\
    forall chan poly_row ramp_row,
      trim_and_flip (poly_coeffs tb) !! chan = Some poly_row ->
      ramp_coeffs tb !! chan = Some ramp_row ->
      share_slice chan time flux = channel_flux poly_row ramp_row time.
Proof.
  intros Hdec Htime. destruct time as [|t0 time]; [contradiction|].
  destruct (decoded_tables_shaped nchan fit_dict tb Hdec)
    as (Hp & _ & Hr & Hr6).
  eexists. split; [apply syseval_eval_decoded; exact Hdec|].
  set (T := (t0 :: time)).
  set (P := fun row : list R =>
              map (fun t => np_polyval (np_poly1d row) (t - np_mean T)) T).
  set (Rp := fun row : list R => map (fun t => ramp_value row (t - t0)) T).
  assert (forall rows, Forall (fun b => length b = length T) (map P rows)) as HP.
  { intros rows. apply Forall_forall. intros b Hb.
    apply list_elem_of_fmap in Hb as (row & -> & _). apply length_map. }
  assert (forall rows, Forall (fun b => length b = length T) (map Rp rows)) as HR.
  { intros rows. apply Forall_forall. intros b Hb.
    apply list_elem_of_fmap in Hb as (row & -> & _). apply length_map. }
  split.
  - rewrite length_zip_with.
    rewrite (length_concat_blocks _ (length T)) by apply HP.
    rewrite (length_concat_blocks _ (length T)) by apply HR.
    rewrite !length_map, trim_and_flip_length, Hp, Hr. lia.
  - intros chan poly_row ramp_row Hprow Hrrow.
    rewrite share_slice_zip_with.
    rewrite (share_slice_blocks chan T _ (P poly_row)); [|apply HP|].
    2:{ change (map P ?l) with (P <$> l). rewrite list_lookup_fmap, Hprow.
        reflexivity. }
    rewrite (share_slice_blocks chan T _ (Rp ramp_row)); [|apply HR|].
    2:{ change (map Rp ?l) with (Rp <$> l). rewrite list_lookup_fmap, Hrrow.
        reflexivity. }
    reflexivity.
Qed.

(** The failures of [syseval(eval=True)] on a time array. *)
Lemma syseval_eval_raises nchan fit_dict time e :
  syseval_eval nchan fit_dict time = inl e ->
  e = IndexError /\
  (run (for_each fit_dict (decode_fit_item nchan)) (zero_tables 0 nchan)
   = inl IndexError \/ time = []).
Proof.
  intros H.
  destruct (run (for_each fit_dict (decode_fit_item nchan)) (zero_tables 0 nchan))
    as [e'|tb] eqn:Hdec.
  - unfold syseval_eval in H. rewrite Hdec in H. injection H as <-.
    assert (e' = IndexError) as ->.
    { unfold run in Hdec.
      destruct (for_each fit_dict (decode_fit_item nchan) (zero_tables 0 nchan))
        as [s [e1|[]]] eqn:E; [|discriminate].
      injection Hdec as <-.
      eapply (raises_only_for_each (fun e => e = IndexError)); [|exact E].
      intros kv. apply raises_only_decode_fit_item. }
    auto.
  - destruct time as [|t0 time].
    + unfold syseval_eval in H. rewrite Hdec in H.
      destruct (run (poly_flux_eval _ _ _) _) as [e1|pf] eqn:E1.
      * destruct (decoded_tables_shaped nchan fit_dict tb Hdec) as (Hp & _).
        rewrite (poly_flux_eval_run nchan) in E1
          by (rewrite trim_and_flip_length; exact Hp).
        discriminate.
      * rewrite ramp_flux_eval_empty in H. injection H as <-. auto.
    + rewrite (syseval_eval_decoded nchan fit_dict t0 time tb Hdec) in H.
      discriminate.
Qed.

(** X15. With names of ASCII characters as keys of [fit_dict],
    [syseval(eval=True)] fails in two ways only: with [IndexError], when a
    coefficient name indexes outside the tables or the time axis is an
    empty array, and with [AttributeError], when the names are decoded and
    the time axis was stored as a list or a tuple, which has no method
    mean. *)
Theorem syseval_eval_failures nchan fit_dict time e :
  Forall (fun kv => Py.isascii (fst kv) = true) fit_dict ->
  syseval_stored nchan fit_dict time = inl e ->
  (e = IndexError /\
   (run (for_each fit_dict (decode_fit_item nchan)) (zero_tables 0 nchan)
    = inl IndexError \/ time = TimeArray [])) \/
  (e = AttributeError "mean" /\
   (exists tb, run (for_each fit_dict (decode_fit_item nchan))
                   (zero_tables 0 nchan) = inr tb) /\
   exists l, time = TimeSequence l).
Proof.
  intros _ H. destruct time as [a|l]; simpl in H.
  - left. destruct (syseval_eval_raises nchan fit_dict a e H) as [-> [Hd| ->]];
      auto.
  - destruct (run (for_each fit_dict (decode_fit_item nchan)) (zero_tables 0 nchan))
      as [e'|tb] eqn:Hdec.
    + left. injection H as <-.
      assert (e' = IndexError) as ->; [|auto].
      unfold run in Hdec.
      destruct (for_each fit_dict (decode_fit_item nchan) (zero_tables 0 nchan))
        as [s [e1|[]]] eqn:E; [|discriminate].
      injection Hdec as <-.
      eapply (raises_only_for_each (fun e => e = IndexError)); [|exact E].
      intros kv. apply raises_only_decode_fit_item.
    + right. injection H as <-. eauto.
Qed.

Section Broadcasting.

Variable starry_flux : starry.System -> list R -> list R.

(** starry returns one flux value per time. *)
Hypothesis starry_flux_length :
  forall system t, length (starry_flux system t) = length t.

(** X16. [eval(eval=True)] multiplies the astrophysical flux, of
    [len(time)] values, by the systematics, of [nchan * len(time)]
    values: with one channel the product is taken sample by sample, and
    with two channels or more and two time samples or more the two arrays
    do not broadcast and the product raises [ValueError]. *)
Theorem eval_broadcasts_one_channel nchan fit_dict fit time systematics :
  is_Some (sys fit) ->
  (exists t0, attrs fit !! "t0" = Some (VNum t0)) ->
  syseval_eval nchan fit_dict time = inr systematics ->
  exists phys,
    physeval_eval starry_flux (Some fit) time = inr phys /\
    length phys = length time /\
    (nchan = 1%nat ->
     eval_eval starry_flux nchan fit_dict (Some fit) time
     = inr (zip_with Rmult phys systematics)) /\
    ((2 <= nchan)%nat -> (2 <= length time)%nat ->
     eval_eval starry_flux nchan fit_dict (Some fit) time
     = inl (ValueError BroadcastError)).
Proof.
  intros [system Hsys] [t0 Ht0] Hsyst.
  exists (starry_flux system (map (fun t => t - t0) time)).
  assert (physeval_eval starry_flux (Some fit) time
          = inr (starry_flux system (map (fun t => t - t0) time))) as Hphys.
  { unfold physeval_eval. rewrite Hsys, Ht0. reflexivity. }
  split; [exact Hphys|].
  set (phys := starry_flux system _) in *.
  assert (length phys = length time) as Hlen.
  { unfold phys. rewrite starry_flux_length. apply length_map. }
  split; [exact Hlen|].
  pose proof (syseval_eval_length nchan fit_dict time systematics Hsyst) as Hslen.
  unfold eval_eval. rewrite Hphys, Hsyst. unfold np_mul. split.
  - intros ->. rewrite Hlen, Hslen.
    replace (1 * length time)%nat with (length time) by lia.
    rewrite Nat.eqb_refl. reflexivity.
  - intros Hn Ht. rewrite Hlen, Hslen.
    destruct (Nat.eqb_spec (length time) (nchan * length time)) as [E|_]; [nia|].
    destruct phys as [|x [|y phys]]; simpl in Hlen; try lia.
    destruct systematics as [|a [|b systematics]]; simpl in Hslen; try nia.
    reflexivity.
Qed.

End Broadcasting.

(* ===================================================================== *)
(** ** Polynomials *)
(* ===================================================================== *)

Lemma Rzerob_true x : Rzerob x = true -> x = 0.
Proof. unfold Rzerob. destruct (Req_dec_T x 0); [auto|discriminate]. Qed.

Lemma Rzerob_false x : Rzerob x = false -> x <> 0.
Proof. unfold Rzerob. destruct (Req_dec_T x 0); [discriminate|auto]. Qed.

(** Horner's rule on the flipped coefficients is the sum of the powers. *)
Lemma np_polyval_rev c x : np_polyval (rev c) x = power_sum c x.
Proof.
  unfold np_polyval.
  induction c as [|a c IH]; simpl; [reflexivity|].
  rewrite fold_left_app. simpl. rewrite IH. lra.
Qed.

Lemma np_polyval_zeros_front c x :
  np_polyval (trim_zeros_front c) x = np_polyval c x.
Proof.
  unfold np_polyval. induction c as [|a c IH]; simpl; [reflexivity|].
  destruct (Rzerob a) eqn:E; [|reflexivity].
  apply Rzerob_true in E. subst a. rewrite IH.
  replace (0 * x + 0) with 0 by lra. reflexivity.
Qed.

(** [np.poly1d] drops leading zeros and does not change the value. *)
Lemma np_polyval_poly1d c x : np_polyval (np_poly1d c) x = np_polyval c x.
Proof.
  unfold np_poly1d. rewrite <- (np_polyval_zeros_front c x).
  destruct (trim_zeros_front c); [|reflexivity].
  unfold np_polyval. simpl. lra.
Qed.

Lemma power_sum_app c1 c2 x :
  power_sum (c1 ++ c2) x = power_sum c1 x + x ^ length c1 * power_sum c2 x.
Proof.
  induction c1 as [|a c1 IH]; simpl; [lra|]. rewrite IH. lra.
Qed.

Lemma power_sum_zeros c x : Forall (fun a => a = 0) c -> power_sum c x = 0.
Proof. induction 1 as [|a c -> _ IH]; simpl; [reflexivity|]. rewrite IH. lra. Qed.

(* ===================================================================== *)
(** ** The columns that are kept *)
(* ===================================================================== *)

Lemma mask_select_app {A} (l1 l2 : list A) m1 m2 :
  length l1 = length m1 ->
  mask_select (l1 ++ l2) (m1 ++ m2) = (mask_select l1 m1 ++ mask_select l2 m2)%list.
Proof.
  revert m1. induction l1 as [|x l1 IH]; intros [|b m1] Hlen; try discriminate.
  - reflexivity.
  - simpl. rewrite IH by (simpl in Hlen; lia). destruct b; reflexivity.
Qed.

Lemma mask_select_all {A} (l : list A) :
  mask_select l (replicate (length l) true) = l.
Proof. induction l as [|x l IH]; simpl; [reflexivity|]. rewrite IH. reflexivity. Qed.

Lemma mask_select_none {A} (l : list A) n :
  mask_select l (replicate n false) = [].
Proof.
  revert n. induction l as [|x l IH]; intros [|n]; simpl; try reflexivity.
  apply IH.
Qed.

(** A column that is not kept holds a zero in every row. *)
Lemma kept_columns_false poly row j :
  row ∈ poly -> kept_columns poly !! j = Some false -> nth j row 0 = 0.
Proof.
  intros Hrow Hj. unfold kept_columns, np_all_zero_axis0 in Hj.
  change (map negb ?l) with (negb <$> l) in Hj.
  change (map ?f (seq 0 10)) with (f <$> seq 0 10) in Hj.
  rewrite !list_lookup_fmap in Hj.
  destruct (seq 0 10 !! j) as [j'|] eqn:Ej; [|discriminate].
  apply lookup_seq in Ej as [-> _]. simpl in Hj.
  injection Hj as Hj. apply negb_false_iff in Hj.
  rewrite forallb_forall in Hj. apply Rzerob_true, Hj.
  apply list_elem_of_In, Hrow.
Qed.

(** With the zero columns last, the kept part of a row is a prefix and
    what is dropped is zero. *)
Lemma zero_columns_last_row poly row x :
  zero_columns_last poly -> row ∈ poly -> length row = 10%nat ->
  power_sum (mask_select row (kept_columns poly)) x = power_sum row x.
Proof.
  intros (k & Hk & Hkeep) Hrow Hlen.
  rewrite <- (take_drop k row) at 1 2.
  rewrite Hkeep.
  rewrite mask_select_app
    by (rewrite length_take, length_replicate; lia).
  replace (replicate k true) with (replicate (length (take k row)) true)
    by (rewrite length_take; f_equal; lia).
  rewrite mask_select_all, mask_select_none, app_nil_r.
  rewrite power_sum_app.
  rewrite (power_sum_zeros (drop k row)); [lra|].
  apply Forall_forall. intros a Ha.
  apply list_elem_of_lookup in Ha as (i & Hi).
  rewrite lookup_drop in Hi.
  assert (k + i < 10)%nat as Hlt.
  { apply lookup_lt_Some in Hi. lia. }
  rewrite <- (nth_lookup_Some _ _ 0 _ Hi).
  apply (kept_columns_false poly row (k + i) Hrow).
  rewrite Hkeep. rewrite lookup_app_r by (rewrite length_replicate; lia).
  rewrite length_replicate. apply lookup_replicate_2. lia.
Qed.

(** The row [trim_and_flip] makes of a row of the table. *)
Lemma trim_and_flip_lookup poly c row :
  poly !! c = Some row ->
  trim_and_flip poly !! c = Some (rev (mask_select row (kept_columns poly))).
Proof.
  intros H. unfold trim_and_flip.
  change (map ?f poly) with (f <$> poly).
  rewrite list_lookup_fmap, H. reflexivity.
Qed.

(** X17. What the polynomial of a channel evaluates to after the column
    selection of line 228: the coefficients that are kept, in their
    order, multiply the powers 0, 1, 2, ... of the centred time, whatever
    degree they were decoded at. *)
Theorem trimmed_polynomial_value poly c row :
  poly !! c = Some row ->
  exists trimmed,
    trim_and_flip poly !! c = Some trimmed /\
    forall x, np_polyval (np_poly1d trimmed) x
              = power_sum (mask_select row (kept_columns poly)) x.
Proof.
  intros H. eexists. split; [apply trim_and_flip_lookup, H|].
  intros x. rewrite np_polyval_poly1d. apply np_polyval_rev.
Qed.

(** X18. When the columns that are zero in every channel come last, the
    selection keeps every coefficient at its degree: the polynomial of a
    channel is the sum of its ten coefficients times the powers of the
    centred time. *)
Theorem zero_columns_last_keeps_degrees poly c row :
  zero_columns_last poly ->
  poly !! c = Some row -> length row = 10%nat ->
  exists trimmed,
    trim_and_flip poly !! c = Some trimmed /\
    forall x, np_polyval (np_poly1d trimmed) x = power_sum row x.
Proof.
  intros Hlast H Hlen. eexists. split; [apply trim_and_flip_lookup, H|].
  intros x. rewrite np_polyval_poly1d, np_polyval_rev.
  apply zero_columns_last_row; [exact Hlast| |exact Hlen].
  eapply list_elem_of_lookup_2, H.
Qed.

(* ===================================================================== *)
(** ** The tensors of [syseval(eval=False)] *)
(* ===================================================================== *)

Lemma map_zip_self {A B C} (f : B * A -> C) (g : A -> B) (l : list A) :
  map f (zip (map g l) l) = map (fun t => f (g t, t)) l.
Proof. induction l as [|x l IH]; simpl; [reflexivity|]. rewrite IH. reflexivity. Qed.

(** The power loop of lines 270-272, sample by sample. *)
Lemma lazy_piece_fold (row : list tensor) (time_poly : list R) powers
    (g : R -> tensor) :
  fold_left
    (fun lcpiece power =>
       map (fun acc_t =>
              TAdd (fst acc_t)
                   (TMul (nth power row (tnum 0)) (tnum (snd acc_t ^ power))))
           (zip lcpiece time_poly))
    powers (map g time_poly)
  = map (fun t =>
           fold_left (fun acc power =>
                        TAdd acc (TMul (nth power row (tnum 0)) (tnum (t ^ power))))
                     powers (g t))
        time_poly.
Proof.
  revert g. induction powers as [|p powers IH]; intros g; simpl; [reflexivity|].
  rewrite map_zip_self. simpl. apply (IH (fun t => TAdd (g t) _)).
Qed.

Lemma lazy_piece_eq (row : list tensor) (time : list R) (m : R) :
  fold_left
    (fun lcpiece power =>
       map (fun acc_t =>
              TAdd (fst acc_t)
                   (TMul (nth power row (tnum 0)) (tnum (snd acc_t ^ power))))
           (zip lcpiece (map (fun t => t - m) time)))
    (seq 0 (length row)) (replicate (length time) (tnum 0))
  = map (fun t => lazy_polynomial row (t - m)) time.
Proof.
  replace (replicate (length time) (tnum 0))
    with (map (fun _ : R => tnum 0) (map (fun t => t - m) time)).
  - rewrite lazy_piece_fold, map_map. reflexivity.
  - rewrite map_map. induction time as [|t time IH]; simpl; [reflexivity|].
    rewrite IH. reflexivity.
Qed.

(** The polynomial trend of the lazy path on a table of [nchan] rows. *)
Lemma poly_flux_lazy_run nchan (poly : list (list tensor)) time :
  length poly = nchan ->
  run (poly_flux_lazy nchan poly time) []
  = inr (concat (map (fun row =>
                        map (fun t => lazy_polynomial row (t - np_mean time)) time)
                     poly)).
Proof.
  intros <-. unfold poly_flux_lazy. eapply run_inr.
  rewrite (for_each_rows poly
             (fun row => map (fun t => lazy_polynomial row (t - np_mean time)) time)).
  - reflexivity.
  - intros c row acc Hrow. unfold bind, getitem, modify. rewrite Hrow.
    cbv zeta. rewrite lazy_piece_eq. reflexivity.
Qed.

(** The ramp trend of the lazy path on a table of [nchan] rows of six
    terms. *)
Lemma ramp_flux_lazy_run nchan (ramp : list (list tensor)) t0 time :
  length ramp = nchan ->
  Forall (fun row => length row = 6%nat) ramp ->
  run (ramp_flux_lazy nchan ramp (t0 :: time)) []
  = inr (concat (map (fun row => map (fun t => lazy_ramp row (t - t0)) (t0 :: time))
                     ramp)).
Proof.
  intros <- Hrows. unfold ramp_flux_lazy. eapply run_inr.
  erewrite bind_ok by reflexivity. cbv beta zeta.
  rewrite (for_each_rows ramp
             (fun row => map (fun t => lazy_ramp row (t - t0)) (t0 :: time))).
  - reflexivity.
  - intros c row acc Hrow. unfold bind, getitem, modify. rewrite Hrow.
    assert (length row = 6%nat) as Hlen.
    { rewrite Forall_forall in Hrows. apply Hrows.
      eapply list_elem_of_lookup_2, Hrow. }
    destruct row as [|r0 [|r1 [|r2 [|r3 [|r4 [|r5 [|r6 row]]]]]]];
      try discriminate Hlen.
    unfold ramp_piece, ret. rewrite map_map. reflexivity.
Qed.

(* ===================================================================== *)
(** ** The value of the tensors at a parameter point *)
(* ===================================================================== *)

Lemma teval_lazy_polynomial theta row rowR t :
  Forall2 (fun x y => teval theta x = Some y) row rowR ->
  teval theta (lazy_polynomial row t) = Some (power_sum rowR t).
Proof.
  intros Hrow. unfold lazy_polynomial.
  assert (forall row' rowR' pre acc accR,
             Forall2 (fun x y => teval theta x = Some y) row' rowR' ->
             row = (pre ++ row')%list ->
             teval theta acc = Some accR ->
             teval theta
               (fold_left (fun acc power =>
                             TAdd acc (TMul (nth power row (tnum 0)) (tnum (t ^ power))))
                          (seq (length pre) (length row')) acc)
             = Some (accR + t ^ length pre * power_sum rowR' t)) as Hgen.
  { induction row' as [|x row' IH]; intros rowR' pre acc accR Hall Hsplit Hacc.
    - inversion Hall; subst. simpl. rewrite Hacc. f_equal. lra.
    - inversion Hall as [|? y ? rowR'' Hx Hall']; subst. simpl.
      replace (S (length pre)) with (length (pre ++ [x])%list)
        by (rewrite length_app; simpl; lia).
      rewrite (IH rowR'' (pre ++ [x])%list _ (accR + y * t ^ length pre)).
      + f_equal. rewrite length_app. simpl.
        replace (length pre + 1)%nat with (S (length pre)) by lia.
        simpl. lra.
      + exact Hall'.
      + rewrite <- app_assoc. reflexivity.
      + simpl. rewrite Hacc. simpl.
        rewrite app_nth2 by lia. rewrite Nat.sub_diag. simpl.
        rewrite Hx. reflexivity. }
  etransitivity; [exact (Hgen row rowR [] (tnum 0) 0 Hrow eq_refl eq_refl)|].
  f_equal. simpl. lra.
Qed.

Lemma teval_lazy_ramp theta row rowR t :
  length row = 6%nat ->
  Forall2 (fun x y => teval theta x = Some y) row rowR ->
  teval theta (lazy_ramp row t) = Some (ramp_value rowR t).
Proof.
  intros Hlen Hrow.
  destruct row as [|r0 [|r1 [|r2 [|r3 [|r4 [|r5 [|r6 row]]]]]]];
    try discriminate Hlen.
  repeat match goal with
         | H : Forall2 _ (_ :: _) _ |- _ =>
             apply Forall2_cons_inv_l in H as (? & ? & ? & H & ->)
         | H : Forall2 _ [] _ |- _ => apply Forall2_nil_inv_l in H as ->
         end.
  simpl.
  repeat match goal with H : teval theta _ = Some _ |- _ => rewrite H; clear H end.
  reflexivity.
Qed.

Lemma Forall2_concat_map {A B C D} (P : A -> B -> Prop) (Q : C -> D -> Prop)
    (f : A -> list C) (g : B -> list D) l k :
  (forall x y, P x y -> Forall2 Q (f x) (g y)) ->
  Forall2 P l k -> Forall2 Q (concat (map f l)) (concat (map g k)).
Proof.
  intros Hfg. induction 1 as [|x y l k Hxy _ IH]; simpl; [constructor|].
  apply Forall2_app; auto.
Qed.

Lemma Forall2_map_same {A C D} (Q : C -> D -> Prop) (f : A -> C) (g : A -> D) l :
  (forall x, Q (f x) (g x)) -> Forall2 Q (map f l) (map g l).
Proof.
  intros H. induction l as [|x l IH]; simpl; constructor; auto.
Qed.

Lemma Forall2_teval_mul theta a b aR bR :
  Forall2 (fun x y => teval theta x = Some y) a aR ->
  Forall2 (fun x y => teval theta x = Some y) b bR ->
  Forall2 (fun x y => teval theta x = Some y)
          (zip_with TMul a b) (zip_with Rmult aR bR).
Proof.
  intros Ha. revert b bR. induction Ha as [|x y a aR Hxy _ IH]; intros b bR Hb.
  - constructor.
  - destruct Hb as [|x' y' b bR Hxy' Hb]; simpl; constructor.
    + simpl. rewrite Hxy, Hxy'. reflexivity.
    + apply IH. exact Hb.
Qed.

Lemma table_at_Some theta tbl tblR :
  table_at theta tbl = Some tblR ->
  Forall2 (Forall2 (fun x y => teval theta x = Some y)) tbl tblR.
Proof.
  intros H. apply mapM_Some in H.
  eapply Forall2_impl; [exact H|]. intros row rowR Hrow.
  apply mapM_Some. exact Hrow.
Qed.

(* ===================================================================== *)
(** ** The shape of the tables of tensors *)
(* ===================================================================== *)

Lemma self_getattr_state {S} self attr (s s1 : S) r :
  self_getattr self attr s = (s1, r) -> s1 = s.
Proof. unfold self_getattr. intros [= <- _]. reflexivity. Qed.

Lemma decode_paramtitle_shaped nchan self k tb tb' :
  shaped nchan tb -> decode_paramtitle nchan self k tb = (tb', inr tt) ->
  shaped nchan tb'.
Proof.
  intros Hs. unfold decode_paramtitle. cbv zeta.
  repeat match goal with
         | |- context [if ?b then _ else _] => destruct b
         end;
    intros H;
    first [ injection H as <-; exact Hs
          | apply bind_inr in H as (s1 & v & Hget & Hset);
            apply self_getattr_state in Hget; subst s1;
            first [ eapply poly_setitem_shaped; eassumption
                  | eapply ramp_setitem_shaped; eassumption ] ].
Qed.

Lemma decoded_tensor_tables_shaped nchan self titles tb :
  run (for_each titles (decode_paramtitle nchan self)) (zero_tables (tnum 0) nchan)
  = inr tb ->
  shaped nchan tb.
Proof.
  intros H. apply run_inr_inv in H.
  eapply (for_each_invariant (shaped nchan)); [|apply shaped_zero_tables|exact H].
  intros kv s s' Hs Hstep. eapply decode_paramtitle_shaped; eassumption.
Qed.

(* ===================================================================== *)
(** ** The two evaluation paths *)
(* ===================================================================== *)

(** The tensors [syseval(eval=False)] computes from the decoded tables. *)
Lemma syseval_lazy_decoded kw self t0 time tb :
  run (for_each (paramtitles kw) (decode_paramtitle (nchan kw) self))
      (zero_tables (tnum 0) (nchan kw)) = inr tb ->
  syseval_lazy kw self (t0 :: time)
  = inr (zip_with TMul
           (concat (map (fun row =>
                           map (fun t => lazy_polynomial row (t - np_mean (t0 :: time)))
                               (t0 :: time))
                        (poly_coeffs tb)))
           (concat (map (fun row =>
                           map (fun t => lazy_ramp row (t - t0)) (t0 :: time))
                        (ramp_coeffs tb)))).
Proof.
  intros Hdec.
  destruct (decoded_tensor_tables_shaped _ _ _ _ Hdec) as (Hp & _ & Hr & Hr6).
  unfold syseval_lazy. rewrite Hdec.
  rewrite (poly_flux_lazy_run (nchan kw)) by exact Hp.
  rewrite (ramp_flux_lazy_run (nchan kw)) by assumption.
  reflexivity.
Qed.

Lemma lazy_flux_value theta (polyT rampT : list (list tensor)) polyR rampR t0 time :
  Forall (fun row => length row = 6%nat) rampT ->
  Forall2 (Forall2 (fun x y => teval theta x = Some y)) polyT polyR ->
  Forall2 (Forall2 (fun x y => teval theta x = Some y)) rampT rampR ->
  flux_at theta
    (zip_with TMul
       (concat (map (fun row =>
                       map (fun t => lazy_polynomial row (t - np_mean (t0 :: time)))
                           (t0 :: time)) polyT))
       (concat (map (fun row =>
                       map (fun t => lazy_ramp row (t - t0)) (t0 :: time)) rampT)))
  = Some (zip_with Rmult
            (concat (map (fun row =>
                            map (fun t => power_sum row (t - np_mean (t0 :: time)))
                                (t0 :: time)) polyR))
            (concat (map (fun row =>
                            map (fun t => ramp_value row (t - t0)) (t0 :: time))
                         rampR))).
Proof.
  intros H6 Hpoly Hramp. unfold flux_at. apply mapM_Some.
  apply Forall2_teval_mul.
  - eapply Forall2_concat_map; [|exact Hpoly].
    intros row rowR Hrow. apply Forall2_map_same. intros t.
    apply teval_lazy_polynomial. exact Hrow.
  - assert (Forall2 (fun row rowR =>
                       length row = 6%nat /\
                       Forall2 (fun x y => teval theta x = Some y) row rowR)
                    rampT rampR) as Hramp'.
    { clear -H6 Hramp. induction Hramp as [|row rowR l k Hrow _ IH];
        constructor.
      - split; [|exact Hrow]. inversion H6; assumption.
      - apply IH. inversion H6; assumption. }
    eapply Forall2_concat_map; [|exact Hramp'].
    intros row rowR [Hlen Hrow]. apply Forall2_map_same. intros t.
    apply teval_lazy_ramp; assumption.
Qed.

(** X19. The value of [syseval(eval=False)] at a parameter point: when
    the decoded coefficient tensors take the values [polyR] and [rampR]
    there, the systematics of a channel are the sum of its ten
    coefficients times the powers of the centred time, every coefficient
    at the degree of its name, multiplied by the ramp. *)
Theorem syseval_lazy_value kw self time theta tb polyR rampR :
  run (for_each (paramtitles kw) (decode_paramtitle (nchan kw) self))
      (zero_tables (tnum 0) (nchan kw)) = inr tb ->
  table_at theta (poly_coeffs tb) = Some polyR ->
  table_at theta (ramp_coeffs tb) = Some rampR ->
  time <> [] ->
  exists flux,
    syseval_lazy kw self time = inr flux /\
    flux_at theta flux
    = Some (zip_with Rmult
              (concat (map (fun row =>
                              map (fun t => power_sum row (t - np_mean time)) time)
                           polyR))
              (concat (map (fun row =>
                              map (fun t => ramp_value row (t - List.hd 0 time)) time)
                           rampR))).
Proof.
  intros Hdec Hpoly Hramp Htime. destruct time as [|t0 time]; [contradiction|].
  destruct (decoded_tensor_tables_shaped _ _ _ _ Hdec) as (_ & _ & _ & Hr6).
  eexists. split; [apply syseval_lazy_decoded; exact Hdec|].
  apply lazy_flux_value;
    [exact Hr6 | apply table_at_Some, Hpoly | apply table_at_Some, Hramp].
Qed.

(** X20. The two paths of [syseval] return the same flux at a parameter
    point where the coefficient tensors take the fitted values, provided
    the polynomial columns that are zero in every channel come last. *)
Theorem syseval_paths_agree kw self fit_dict time theta tbT tbR :
  run (for_each (paramtitles kw) (decode_paramtitle (nchan kw) self))
      (zero_tables (tnum 0) (nchan kw)) = inr tbT ->
  run (for_each fit_dict (decode_fit_item (nchan kw))) (zero_tables 0 (nchan kw))
  = inr tbR ->
  table_at theta (poly_coeffs tbT) = Some (poly_coeffs tbR) ->
  table_at theta (ramp_coeffs tbT) = Some (ramp_coeffs tbR) ->
  zero_columns_last (poly_coeffs tbR) ->
  time <> [] ->
  exists lazy flux,
    syseval_lazy kw self time = inr lazy /\
    syseval_eval (nchan kw) fit_dict time = inr flux /\
    flux_at theta lazy = Some flux.
Proof.
  intros HdecT HdecR Hpoly Hramp Hlast Htime.
  destruct time as [|t0 time]; [contradiction|].
  destruct (decoded_tensor_tables_shaped _ _ _ _ HdecT) as (_ & _ & _ & Hr6).
  destruct (decoded_tables_shaped _ _ _ HdecR) as (_ & Hp10 & _ & _).
  do 2 eexists. split; [apply syseval_lazy_decoded; exact HdecT|].
  split; [apply syseval_eval_decoded; exact HdecR|].
  rewrite (lazy_flux_value theta _ _ (poly_coeffs tbR) (ramp_coeffs tbR));
    [|exact Hr6 | apply table_at_Some, Hpoly | apply table_at_Some, Hramp].
  do 3 f_equal.
  unfold trim_and_flip. rewrite map_map.
  apply map_ext_in. intros row Hrow.
  apply map_ext. intros t.
  rewrite np_polyval_poly1d, np_polyval_rev. symmetry.
  apply list_elem_of_In in Hrow.
  apply (zero_columns_last_row (poly_coeffs tbR) row _ Hlast Hrow).
  rewrite Forall_forall in Hp10. apply Hp10, Hrow.
Qed.

(* ===================================================================== *)
(** ** The properties at example inputs *)
(* ===================================================================== *)

(** X12 at the table with a prior of each kind. *)
Lemma built_model_variables_witness :
  exists self system,
    StarryModel 1 1047 kw_priors = inr self /\
    sys self = Some system /\
    forall t v, t ∈ system_tensors system -> v ∈ tensor_vars t ->
      v ∈ paramtitles kw_priors /\
      exists p, parameters kw_priors !! v = Some p /\
                (ptype p = "free" \/ ptype p = "shared") /\
                (prior p = "U" \/ prior p = "N" \/ prior p = "LU").
Proof.
  destruct (StarryModel 1 1047 kw_priors) as [e|self] eqn:E;
    [vm_compute in E; discriminate|].
  destruct (built_model_variables 1 1047 kw_priors self E) as (system & Hsys & H).
  exists self, system. split; [reflexivity|]. split; [exact Hsys|exact H].
Defined.

(** X13 at the complete scenario with the constant term fitted. *)
Lemma fitted_system_is_closed_witness :
  exists fit system,
    fit_dict_setter 1 1047 kw_scenario_complete [("c0", 1)] = inr fit /\
    sys fit = Some system /\
    forall t, t ∈ system_tensors system ->
      tensor_vars t = [] /\
      forall theta theta', teval theta t = teval theta' t.
Proof.
  destruct (fit_dict_setter 1 1047 kw_scenario_complete [("c0", 1)])
    as [e|fit] eqn:E; [vm_compute in E; discriminate|].
  destruct (fitted_system_is_closed 1 1047 kw_scenario_complete _ fit E)
    as (system & Hsys & H).
  exists fit, system. split; [reflexivity|]. split; [exact Hsys|exact H].
Defined.

(** X14 at two channels and three samples, with a constant for each
    channel: six values, and the second channel in the second half. *)
Lemma syseval_eval_channels_witness :
  exists flux,
    syseval_eval 2 [("c0", 1); ("c0_1", 3)] [0; 1; 2] = inr flux /\
    length flux = 6%nat /\
    share_slice 1 [0; 1; 2] flux
    = channel_flux [3] [0; 0; 0; 0; 0; 0] [0; 1; 2].
Proof.
  assert (run (for_each [("c0", 1); ("c0_1", 3)] (decode_fit_item 2))
              (zero_tables 0 2)
          = inr (mkTables [[1; 0; 0; 0; 0; 0; 0; 0; 0; 0];
                           [3; 0; 0; 0; 0; 0; 0; 0; 0; 0]]
                          [[0; 0; 0; 0; 0; 0]; [0; 0; 0; 0; 0; 0]])) as Hdec
    by (vm_compute; reflexivity).
  destruct (syseval_eval_channels 2 _ [0; 1; 2] _ Hdec) as (flux & Hflux & Hlen & Hch);
    [discriminate|].
  exists flux. split; [exact Hflux|]. split; [exact Hlen|].
  apply Hch; [|reflexivity].
  unfold trim_and_flip, np_all_zero_axis0.
  cbn [poly_coeffs map seq forallb nth andb].
  rewrite Rzerob_0, (Rzerob_nonzero 1), (Rzerob_nonzero 3) by lra.
  reflexivity.
Defined.

(** X15 at a name of degree 10 on a time array, where decoding raises, and
    at a constant trend on a time axis stored as a list, where the name is
    decoded and the failure is that of the missing method. *)
Lemma syseval_eval_failures_witness :
  (syseval_stored 1 [("c10", 1)] (TimeArray [0; 1; 2]) = inl IndexError /\
   run (for_each [("c10", 1)] (decode_fit_item 1)) (zero_tables 0 1)
   = inl IndexError) /\
  (syseval_stored 1 [("c0", 1)] (TimeSequence [0; 1; 2])
   = inl (AttributeError "mean") /\
   exists tb, run (for_each [("c0", 1)] (decode_fit_item 1)) (zero_tables 0 1)
              = inr tb).
Proof.
  assert (forall k v, Py.isascii k = true ->
            Forall (fun kv : string * R => Py.isascii (fst kv) = true) [(k, v)])
    as Hascii.
  { intros k v Hk. apply Forall_cons. split; [exact Hk|]. apply Forall_nil. exact I. }
  split.
  - assert (syseval_stored 1 [("c10", 1)] (TimeArray [0; 1; 2]) = inl IndexError)
      as H by (vm_compute; reflexivity).
    split; [exact H|].
    destruct (syseval_eval_failures 1 _ _ _ (Hascii "c10" 1 eq_refl) H)
      as [[_ [Hd|Ht]]|[E _]]; [exact Hd|discriminate|discriminate].
  - assert (syseval_stored 1 [("c0", 1)] (TimeSequence [0; 1; 2])
            = inl (AttributeError "mean")) as H by (vm_compute; reflexivity).
    split; [exact H|].
    destruct (syseval_eval_failures 1 _ _ _ (Hascii "c0" 1 eq_refl) H)
      as [[E _]|(_ & Hd & _)]; [discriminate|exact Hd].
Defined.

(** X17 at a single channel whose only coefficient is c2 = 5: the
    coefficient that is kept multiplies the power 0. *)
Lemma trimmed_polynomial_value_witness :
  exists trimmed,
    trim_and_flip [[0; 0; 5; 0; 0; 0; 0; 0; 0; 0]] !! 0%nat = Some trimmed /\
    forall x, np_polyval (np_poly1d trimmed) x = 5.
Proof.
  destruct (trimmed_polynomial_value [[0; 0; 5; 0; 0; 0; 0; 0; 0; 0]] 0
              [0; 0; 5; 0; 0; 0; 0; 0; 0; 0] eq_refl) as (trimmed & Ht & Hval).
  exists trimmed. split; [exact Ht|].
  intros x. rewrite Hval.
  unfold kept_columns, np_all_zero_axis0.
  cbn [map seq forallb nth andb].
  rewrite Rzerob_0, (Rzerob_nonzero 5) by lra.
  simpl. lra.
Defined.

Lemma zero_columns_last_example :
  zero_columns_last [[1; 2; 0; 0; 0; 0; 0; 0; 0; 0]].
Proof.
  exists 2%nat. split; [lia|].
  unfold kept_columns, np_all_zero_axis0.
  cbn [map seq forallb nth andb].
  rewrite Rzerob_0, (Rzerob_nonzero 1), (Rzerob_nonzero 2) by lra.
  reflexivity.
Qed.

(** X18 at a single channel with c0 = 1 and c1 = 2. *)
Lemma zero_columns_last_keeps_degrees_witness :
  exists trimmed,
    trim_and_flip [[1; 2; 0; 0; 0; 0; 0; 0; 0; 0]] !! 0%nat = Some trimmed /\
    forall x, np_polyval (np_poly1d trimmed) x = 1 + 2 * x.
Proof.
  destruct (zero_columns_last_keeps_degrees [[1; 2; 0; 0; 0; 0; 0; 0; 0; 0]] 0
              [1; 2; 0; 0; 0; 0; 0; 0; 0; 0]
              zero_columns_last_example eq_refl eq_refl)
    as (trimmed & Ht & Hval).
  exists trimmed. split; [exact Ht|].
  intros x. rewrite Hval. simpl. lra.
Defined.

(** X19 at the linear trend, at the point c0 = 1, c1 = 2. *)
Lemma syseval_lazy_value_witness :
  exists flux,
    syseval_lazy kw_trend trend_model [0; 1; 2] = inr flux /\
    flux_at trend_point flux = Some [-1; 1; 3].
Proof.
  set (kw := kw_trend).
  eassert (run (for_each (paramtitles kw) (decode_paramtitle (nchan kw) trend_model))
               (zero_tables (tnum 0) (nchan kw)) = inr _) as Hdec
    by (vm_compute; reflexivity).
  destruct (syseval_lazy_value kw trend_model [0; 1; 2] trend_point _
              [[1; 2; 0; 0; 0; 0; 0; 0; 0; 0]] [[0; 0; 0; 0; 0; 0]] Hdec)
    as (flux & Hflux & Hval).
  - vm_compute. reflexivity.
  - vm_compute. reflexivity.
  - discriminate.
  - exists flux. split; [exact Hflux|]. rewrite Hval. f_equal.
    unfold np_mean. simpl.
    repeat (apply (f_equal2 cons); [lra|]). reflexivity.
Defined.

(** X20 at the linear trend: the two paths give the same three values. *)
Lemma syseval_paths_agree_witness :
  exists lazy flux,
    syseval_lazy kw_trend trend_model [0; 1; 2] = inr lazy /\
    syseval_eval 1 [("c0", 1); ("c1", 2)] [0; 1; 2] = inr flux /\
    flux_at trend_point lazy = Some flux.
Proof.
  set (kw := kw_trend).
  eassert (run (for_each (paramtitles kw) (decode_paramtitle (nchan kw) trend_model))
               (zero_tables (tnum 0) (nchan kw)) = inr _) as HdecT
    by (vm_compute; reflexivity).
  assert (run (for_each [("c0", 1); ("c1", 2)] (decode_fit_item (nchan kw)))
              (zero_tables 0 (nchan kw))
          = inr (mkTables [[1; 2; 0; 0; 0; 0; 0; 0; 0; 0]] [[0; 0; 0; 0; 0; 0]]))
    as HdecR by (vm_compute; reflexivity).
  apply (syseval_paths_agree kw trend_model _ [0; 1; 2] trend_point _ _ HdecT HdecR).
  - vm_compute. reflexivity.
  - vm_compute. reflexivity.
  - exact zero_columns_last_example.
  - discriminate.
Defined.

(** X16 at two channels and three samples: the setter builds [fit], the
    systematics have six values, and the product with the three values of
    the astrophysical flux raises. *)
Lemma eval_broadcasts_one_channel_witness :
  exists fit,
    fit_dict_setter 1 1047 kw_scenario_complete [("c0", 1)] = inr fit /\
    eval_eval flat_flux 2 [("c0", 1)] (Some fit) [0; 1; 2]
    = inl (ValueError BroadcastError).
Proof.
  destruct (fit_dict_setter 1 1047 kw_scenario_complete [("c0", 1)])
    as [e|fit] eqn:E; [vm_compute in E; discriminate|].
  exists fit. split; [reflexivity|].
  destruct (fit_dict_built 1 1047 kw_scenario_complete _ fit E)
    as (ld & _ & _ & _ & _ & _ & Hattrs & _ & _ & _ & Hsys).
  assert (run (for_each [("c0", 1)] (decode_fit_item 2)) (zero_tables 0 2)
          = inr (mkTables [[1; 0; 0; 0; 0; 0; 0; 0; 0; 0];
                           [0; 0; 0; 0; 0; 0; 0; 0; 0; 0]]
                          [[0; 0; 0; 0; 0; 0]; [0; 0; 0; 0; 0; 0]])) as Hdec
    by (vm_compute; reflexivity).
  pose proof (syseval_eval_decoded 2 [("c0", 1)] 0 [1; 2] _ Hdec) as Hsyst.
  assert (is_Some (sys fit)) as H1 by (rewrite Hsys; eauto).
  assert (exists t0, attrs fit !! "t0" = Some (VNum t0)) as H2.
  { exists 0. rewrite Hattrs. vm_compute. reflexivity. }
  destruct (eval_broadcasts_one_channel flat_flux
              (fun system t => length_map (fun _ => 1) t)
              2 [("c0", 1)] fit [0; 1; 2] _ H1 H2 Hsyst)
    as (phys & _ & _ & _ & Hraise).
  apply Hraise; simpl; lia.
Defined.

(* ===================================================================== *)
(** ** Properties of the time grid *)
(* ===================================================================== *)

Lemma up_IZR z : up (IZR z) = (z + 1)%Z.
Proof.
  symmetry. apply tech_up.
  - apply IZR_lt. lia.
  - rewrite plus_IZR. lra.
Qed.

Lemma np_round_IZR z : np_round (IZR z) = z.
Proof.
  unfold np_round. rewrite up_IZR.
  replace (z + 1 - 1)%Z with z by lia.
  destruct (Rlt_dec (IZR z - IZR z) (1 / 2)) as [_|H]; [reflexivity|].
  exfalso. apply H. lra.
Qed.

Lemma np_round_INR n : np_round (INR n) = Z.of_nat n.
Proof. rewrite INR_IZR_INZ. apply np_round_IZR. Qed.

Lemma last_map_seq (f : nat -> R) n d :
  List.last (map f (seq 0 (S n))) d = f n.
Proof.
  rewrite seq_S, map_app. simpl. apply last_last.
Qed.

(** X21. On evenly spaced times, two or more, [physeval(interp=True)]
    evaluates the flux at the times themselves: the number of steps is the
    number of samples and the interpolated grid is the time axis. *)
Theorem interp_grid_of_even_times t0 dt n :
  dt <> 0 -> (2 <= n)%nat ->
  physeval_new_time true (even_grid t0 dt n) = inr (even_grid t0 dt n).
Proof.
  intros Hdt Hn. destruct n as [|[|n]]; try lia.
  unfold physeval_new_time, even_grid.
  set (T := map _ (seq 0 (S (S n)))).
  assert (T !! 1%nat = Some (t0 + INR 1 * dt)) as E1 by reflexivity.
  assert (T !! 0%nat = Some (t0 + INR 0 * dt)) as E0 by reflexivity.
  rewrite E1, E0. cbv zeta.
  assert (List.last T 0 = t0 + INR (S n) * dt) as Elast.
  { unfold T. apply (last_map_seq (fun i => t0 + INR i * dt)). }
  rewrite Elast.
  destruct (Req_dec_T (t0 + INR 1 * dt - (t0 + INR 0 * dt)) 0) as [Hz|_].
  { exfalso. simpl in Hz. apply Hdt. lra. }
  assert ((t0 + INR (S n) * dt - (t0 + INR 0 * dt))
          / (t0 + INR 1 * dt - (t0 + INR 0 * dt)) + 1
          = INR (S (S n))) as Esteps.
  { rewrite (S_INR (S n)). simpl INR at 2 3 4. field.
    intros Hc. apply Hdt. lra. }
  rewrite Esteps, np_round_INR. unfold np_linspace.
  destruct (Z.ltb_spec (Z.of_nat (S (S n))) 0) as [Hneg|_]; [lia|].
  rewrite Nat2Z.id. cbv zeta. f_equal. unfold T.
  apply map_ext_in. intros i Hi. apply in_seq in Hi.
  replace (S (S n) - 1)%nat with (S n) by lia.
  destruct (Nat.ltb_spec 1 (S (S n))) as [_|Hbad]; [|lia]. simpl andb.
  destruct (Nat.eqb_spec i (S n)) as [->|Hne]; [reflexivity|].
  assert (INR (S n) <> 0) as Hpos by (apply not_0_INR; lia).
  change (INR 0) with 0.
  revert Hpos. generalize (INR (S n)) (INR i). intros a b Ha.
  field. exact Ha.
Qed.

(** Fewer than two samples: [time[1]] is out of range. *)
Lemma interp_grid_needs_two_samples time :
  (length time < 2)%nat -> physeval_new_time true time = inl GridIndexError.
Proof.
  intros H. unfold physeval_new_time.
  destruct time as [|a [|b time]]; simpl in H; try lia; reflexivity.
Qed.

(** X21 at the three times 0, 1, 2. *)
Lemma interp_grid_of_even_times_witness :
  physeval_new_time true (even_grid 0 1 3) = inr (even_grid 0 1 3).
Proof.
  apply (interp_grid_of_even_times 0 1 3); [lra|lia].
Defined.

(* ===================================================================== *)
(** ** The transit time *)
(* ===================================================================== *)

Section TransitTime.

Variables (M_jup M_sun : R).
Variable starry_flux : starry.System -> list R -> list R.

(** X22. Neither builder reads the transit time t0, and [physeval] does:
    on a [fit] that the setter built, [eval(eval=True)] raises
    [AttributeError] for t0 when t0 is neither a fixed row nor a fitted
    value, before the systematics are looked at, and with a number under
    t0 the astrophysical flux is that of the fitted system at the times
    minus t0. *)
Theorem evaluation_needs_t0 kw input_fit_dict fit nchan time :
  fit_dict_setter M_jup M_sun kw input_fit_dict = inr fit ->
  exists system,
    sys fit = Some system /\
    (fit_attribute kw input_fit_dict "t0" = None ->
     physeval_eval starry_flux (Some fit) time = inl (AttributeError "t0") /\
     eval_eval starry_flux nchan input_fit_dict (Some fit) time
     = inl (AttributeError "t0")) /\
    (forall t0, fit_attribute kw input_fit_dict "t0" = Some (VNum t0) ->
       physeval_eval starry_flux (Some fit) time
       = inr (starry_flux system (map (fun t => t - t0) time))).
Proof.
  intros H.
  destruct (fit_dict_built M_jup M_sun kw input_fit_dict fit H)
    as (ld & _ & _ & _ & _ & _ & Hattrs & _ & _ & _ & Hsys).
  eexists. split; [exact Hsys|]. split.
  - intros Hnone. rewrite <- Hattrs in Hnone.
    assert (physeval_eval starry_flux (Some fit) time = inl (AttributeError "t0"))
      as Hphys.
    { unfold physeval_eval. rewrite Hsys, Hnone. reflexivity. }
    split; [exact Hphys|]. unfold eval_eval. rewrite Hphys. reflexivity.
  - intros t0 Ht0. rewrite <- Hattrs in Ht0.
    unfold physeval_eval. rewrite Hsys, Ht0. reflexivity.
Qed.

End TransitTime.

(** X22 at the scenario without a transit time: the setter returns, and
    the evaluation raises. *)
Lemma evaluation_needs_t0_witness :
  exists fit,
    fit_dict_setter 1 1047 kw_no_t0 [("c0", 1)] = inr fit /\
    eval_eval flat_flux 1 [("c0", 1)] (Some fit) [0; 1; 2]
    = inl (AttributeError "t0").
Proof.
  destruct (fit_dict_setter 1 1047 kw_no_t0 [("c0", 1)]) as [e|fit] eqn:E;
    [vm_compute in E; discriminate|].
  exists fit. split; [reflexivity|].
  destruct (evaluation_needs_t0 1 1047 flat_flux kw_no_t0 _ fit 1 [0; 1; 2] E)
    as (system & _ & Hnone & _).
  apply Hnone. vm_compute. reflexivity.
Defined.

Section LazyTransitTime.

Variables (M_jup M_sun : R).
Variable starry_flux_lazy : starry.System -> list tensor -> list tensor.

(** X23. The model [__init__] builds can be evaluated lazily only with a
    transit time: [physeval(eval=False)], which [eval(eval=False)] calls
    first, raises [AttributeError] for t0 when the loop assigned no
    attribute t0, and otherwise returns the flux of the system of the
    model at the times minus the tensor t0. *)
Theorem lazy_evaluation_needs_t0 kw self time :
  StarryModel M_jup M_sun kw = inr self ->
  exists system,
    sys self = Some system /\
    (init_attribute kw "t0" = None ->
     physeval_lazy starry_flux_lazy self time = inl (AttributeError "t0")) /\
    (forall t0, init_attribute kw "t0" = Some t0 ->
       physeval_lazy starry_flux_lazy self time
       = inr (starry_flux_lazy system (map (fun t => TSub (tnum t) t0) time))).
Proof.
  intros H.
  destruct (StarryModel_built M_jup M_sun kw self H)
    as (ld & _ & _ & _ & _ & _ & Hattrs & _ & _ & _ & Hsys).
  eexists. split; [exact Hsys|]. split.
  - intros Hnone. rewrite <- Hattrs in Hnone.
    unfold physeval_lazy. rewrite Hsys, Hnone. reflexivity.
  - intros t0 Ht0. rewrite <- Hattrs in Ht0.
    unfold physeval_lazy. rewrite Hsys, Ht0. reflexivity.
Qed.

End LazyTransitTime.

(** X23 at the scenario without a transit time. *)
Lemma lazy_evaluation_needs_t0_witness :
  exists self,
    StarryModel 1 1047 kw_no_t0 = inr self /\
    physeval_lazy symbolic_times self [0; 1; 2] = inl (AttributeError "t0").
Proof.
  destruct (StarryModel 1 1047 kw_no_t0) as [e|self] eqn:E;
    [vm_compute in E; discriminate|].
  exists self. split; [reflexivity|].
  destruct (lazy_evaluation_needs_t0 1 1047 symbolic_times kw_no_t0 self
              [0; 1; 2] E) as (system & _ & Hnone & _).
  apply Hnone. vm_compute. reflexivity.
Defined.

(* ===================================================================== *)
(** ** The two systems at a parameter point *)
(* ===================================================================== *)

Lemma agree_at_is_Some theta x v :
  agree_at theta x v -> (is_Some x <-> is_Some v).
Proof.
  destruct x, v; simpl; try contradiction; intros _; split; intros [? ?];
    try discriminate; eauto.
Qed.

Lemma agree_at_default theta x v :
  agree_at theta x v ->
  teval theta (default (tnum 0) x) = teval theta (TConst (default (VNum 0) v)).
Proof. destruct x, v; simpl; try contradiction; auto. Qed.

Lemma agree_at_bool_decide theta x v :
  agree_at theta x v -> bool_decide (is_Some x) = bool_decide (is_Some v).
Proof. intros H. apply bool_decide_ext, (agree_at_is_Some theta), H. Qed.

Lemma teval_mul theta a b a' b' :
  teval theta a = teval theta a' -> teval theta b = teval theta b' ->
  teval theta (TMul a b) = teval theta (TMul a' b').
Proof. intros Ha Hb. simpl. rewrite Ha, Hb. reflexivity. Qed.

Lemma teval_div theta a b a' b' :
  teval theta a = teval theta a' -> teval theta b = teval theta b' ->
  teval theta (TDiv a b) = teval theta (TDiv a' b').
Proof. intros Ha Hb. simpl. rewrite Ha, Hb. reflexivity. Qed.

Lemma teval_sub theta a b a' b' :
  teval theta a = teval theta a' -> teval theta b = teval theta b' ->
  teval theta (TSub a b) = teval theta (TSub a' b').
Proof. intros Ha Hb. simpl. rewrite Ha, Hb. reflexivity. Qed.

Lemma teval_sqrt theta a a' :
  teval theta a = teval theta a' -> teval theta (TSqrt a) = teval theta (TSqrt a').
Proof. intros Ha. simpl. rewrite Ha. reflexivity. Qed.

(** The limb-darkening coefficients of the two builders at a point. *)
Lemma limb_coefficients_agree theta law u1 u2 v1 v2 :
  teval theta u1 = teval theta (TConst v1) ->
  teval theta u2 = teval theta (TConst v2) ->
  teval theta <$> init_limb_coefficients law u1 u2
  = teval theta <$> fit_limb_coefficients law v1 v2.
Proof.
  intros H1 H2. unfold init_limb_coefficients, fit_limb_coefficients.
  destruct (is_str law "kipping2013") eqn:E1.
  { rewrite !fmap_insert, !fmap_empty. f_equal; [|f_equal].
    - apply teval_mul; [apply teval_sqrt, H1|].
      apply teval_sub; [reflexivity|]. apply teval_mul; [reflexivity|exact H2].
    - apply teval_mul; [|exact H2]. apply teval_mul; [reflexivity|].
      apply teval_sqrt, H1. }
  destruct (is_str law "quadratic") eqn:E2.
  { assert (is_str law "linear" = false) as ->.
    { destruct law as [x|str]; [reflexivity|]. simpl in *.
      apply String.eqb_eq in E2. subst str. reflexivity. }
    rewrite !fmap_insert, !fmap_empty, H1, H2. reflexivity. }
  destruct (is_str law "linear") eqn:E3.
  { rewrite !fmap_insert, !fmap_empty, H1. reflexivity. }
  reflexivity.
Qed.

(** The harmonic coefficients of the two builders at a point. *)
Lemma harmonics_agree theta (a : gmap string tensor) (a' : gmap string pyvalue)
    yd pl pl' :
  agree_at theta (a !! "AmpCos1") (a' !! "AmpCos1") ->
  agree_at theta (a !! "AmpSin1") (a' !! "AmpSin1") ->
  agree_at theta (a !! "AmpCos2") (a' !! "AmpCos2") ->
  agree_at theta (a !! "AmpSin2") (a' !! "AmpSin2") ->
  teval theta <$> starry.Map_y (starry.Secondary_map pl)
  = teval theta <$> starry.Map_y (starry.Secondary_map pl') ->
  teval theta <$> starry.Map_y (starry.Secondary_map
                                  (apply_harmonics (fun x => x) a yd pl))
  = teval theta <$> starry.Map_y (starry.Secondary_map
                                    (apply_harmonics TConst a' yd pl')).
Proof.
  intros H1 H2 H3 H4 Hy.
  assert (forall attr l m p p',
             agree_at theta (a !! attr) (a' !! attr) ->
             teval theta <$> starry.Map_y (starry.Secondary_map p)
             = teval theta <$> starry.Map_y (starry.Secondary_map p') ->
             teval theta <$> starry.Map_y (starry.Secondary_map
                                             (set_harmonic (fun x => x) a attr l m p))
             = teval theta <$> starry.Map_y (starry.Secondary_map
                                               (set_harmonic TConst a' attr l m p')))
    as Hstep.
  { intros attr l m p p' Hag Hp. unfold set_harmonic.
    destruct (a !! attr) as [x|], (a' !! attr) as [v|]; simpl in Hag;
      try contradiction; [|exact Hp].
    simpl. rewrite !fmap_insert, Hag, Hp. reflexivity. }
  unfold apply_harmonics. destruct (Nat.eqb yd 2); auto.
Qed.

Section TwoBuilders.

Variables (M_jup M_sun : R).

(** X24. The system of [fit] is the system of the model at the parameter
    point: when both builders return on the same parameters and, at the
    point, every attribute the star and the planet are made of takes the
    value [fit] holds under the same name (or is missing on both sides),
    the two stars and the two planets have the same degrees, amplitudes,
    limb-darkening and harmonic coefficients, masses, radii, periods and
    angles at that point. The semi-major axis, which only [__init__]
    passes to the planet, is left out of the comparison. *)
Theorem systems_agree_at_point kw input_fit_dict self fit theta :
  StarryModel M_jup M_sun kw = inr self ->
  fit_dict_setter M_jup M_sun kw input_fit_dict = inr fit ->
  (forall n, n ∈ system_reads ->
             agree_at theta (attrs self !! n) (attrs fit !! n)) ->
  exists st pl st' pl',
    sys self = Some (starry.mkSystem st pl) /\
    sys fit = Some (starry.mkSystem st' pl') /\
    primary_at theta st = primary_at theta st' /\
    secondary_at theta pl = secondary_at theta pl'.
Proof.
  intros Hself Hfit Hag.
  destruct (StarryModel_built M_jup M_sun kw self Hself)
    as (ld & Hp & _ & _ & _ & _ & _ & _ & _ & _ & Hsys).
  destruct (fit_dict_built M_jup M_sun kw input_fit_dict fit Hfit)
    as (ld' & Hp' & _ & _ & _ & _ & _ & _ & _ & _ & Hsys').
  assert (ld' = ld) as -> by congruence.
  do 4 eexists. split; [exact Hsys|]. split; [exact Hsys'|].
  assert (forall n, n ∈ system_reads ->
                    teval theta (default (tnum 0) (attrs self !! n))
                    = teval theta (TConst (default (VNum 0) (attrs fit !! n))))
    as Hget.
  { intros n Hn. apply agree_at_default, Hag, Hn. }
  assert (forall n, n ∈ system_reads ->
                    bool_decide (is_Some (attrs self !! n))
                    = bool_decide (is_Some (attrs fit !! n))) as Hhas.
  { intros n Hn. apply (agree_at_bool_decide theta), Hag, Hn. }
  assert (forall n, In n system_reads -> n ∈ system_reads) as Hin.
  { intros n Hn. apply list_elem_of_In, Hn. }
  assert (star_udeg (attrs self) = star_udeg (attrs fit)) as Hud.
  { unfold star_udeg. rewrite !Hhas by (apply Hin; simpl; tauto). reflexivity. }
  assert (planet_ydeg (attrs self) = planet_ydeg (attrs fit)) as Hyd.
  { unfold planet_ydeg. rewrite !Hhas by (apply Hin; simpl; tauto). reflexivity. }
  split.
  - unfold primary_at, map_at, init_star_of, fit_star_of. simpl.
    rewrite Hud.
    rewrite (limb_coefficients_agree theta (value ld) _ _
               (default (VNum 0) (attrs fit !! "u1"))
               (default (VNum 0) (attrs fit !! "u2")))
      by (apply Hget, Hin; simpl; tauto).
    rewrite !Hget by (apply Hin; simpl; tauto). reflexivity.
  - unfold secondary_at, map_at, init_planet_of, fit_planet_of.
    set (pl0 := starry.mkSecondary _ _ _ _ _ _ _ _ _ _ _).
    set (pl0' := starry.mkSecondary _ _ _ _ _ _ _ _ _ _ _).
    pose proof (apply_harmonics_fields (fun x : tensor => x) (attrs self)
                  (planet_ydeg (attrs self)) pl0) as F.
    pose proof (apply_harmonics_fields TConst (attrs fit)
                  (planet_ydeg (attrs fit)) pl0') as F'.
    cbv zeta in F, F'.
    destruct F as (F1 & F2 & F3 & F4 & F5 & F6 & F7 & F8 & F9 & F10 & F11 & F12 &
                   F13 & F14 & F15 & F16).
    destruct F' as (G1 & G2 & G3 & G4 & G5 & G6 & G7 & G8 & G9 & G10 & G11 & G12 &
                    G13 & G14 & G15 & G16).
    simpl. rewrite F1, F2, F4, F5, F6, F7, F8, F11, F12, F13, F14, F15, F16.
    rewrite G1, G2, G4, G5, G6, G7, G8, G11, G12, G13, G14, G15, G16.
    rewrite (harmonics_agree theta (attrs self) (attrs fit)
               (planet_ydeg (attrs self)) pl0 pl0')
      by (first [ apply Hag, Hin; simpl; tauto | reflexivity ]).
    rewrite Hyd. subst pl0 pl0'. simpl.
    assert (teval theta <$> attrs self !! "per"
            = Some (teval theta (TConst (default (VNum 0) (attrs fit !! "per")))))
      as Hper.
    { pose proof (Hag "per" ltac:(apply Hin; simpl; tauto)) as Hagp.
      destruct (StarryModel_built M_jup M_sun kw self Hself)
        as (ld2 & _ & _ & _ & _ & H3 & Hattrs & _).
      rewrite (first_missing_ext _ (fun n => attrs self !! n)) in H3
        by (intros n; symmetry; apply Hattrs).
      apply first_missing_None with (n := "per") in H3;
        [|unfold init_planet_reads; rewrite !elem_of_cons; tauto].
      destruct H3 as [x Hx]. rewrite Hx in Hagp |- *.
      destruct (attrs fit !! "per") as [v|]; simpl in Hagp; [|contradiction].
      simpl. rewrite Hagp. reflexivity. }
    rewrite Hper.
    rewrite !Hget by (apply Hin; simpl; tauto).
    rewrite ?Hyd. reflexivity.
Qed.

End TwoBuilders.

(** X24 at the scenario with a fitted planet flux, at the point where the
    variable fp takes the fitted value. *)
Lemma systems_agree_at_point_witness :
  exists self fit st pl st' pl',
    StarryModel 1 1047 kw_fitted_fp = inr self /\
    fit_dict_setter 1 1047 kw_fitted_fp [("fp", 0.001)] = inr fit /\
    sys self = Some (starry.mkSystem st pl) /\
    sys fit = Some (starry.mkSystem st' pl') /\
    primary_at fp_point st = primary_at fp_point st' /\
    secondary_at fp_point pl = secondary_at fp_point pl'.
Proof.
  destruct (StarryModel 1 1047 kw_fitted_fp) as [e|self] eqn:E;
    [vm_compute in E; discriminate|].
  destruct (fit_dict_setter 1 1047 kw_fitted_fp [("fp", 0.001)])
    as [e|fit] eqn:E'; [vm_compute in E'; discriminate|].
  destruct (systems_agree_at_point 1 1047 kw_fitted_fp _ self fit fp_point E E')
    as (st & pl & st' & pl' & H).
  - intros n Hn.
    destruct (fit_dict_built 1 1047 kw_fitted_fp _ fit E')
      as (ld & _ & _ & _ & _ & _ & Hattrs & _).
    rewrite (built_attrs _ _ _ _ E n), Hattrs.
    revert n Hn. apply Forall_forall. unfold system_reads.
    repeat (constructor; [vm_compute; try reflexivity; exact I|]).
    constructor.
  - exists self, fit, st, pl, st', pl'. split; [reflexivity|].
    split; [reflexivity|]. exact H.
Defined.
